(** * Food order backend: order lifecycle and totals

    A shallow embedding of [food_order_backend/api] (models.py,
    serializers.py, views.py): the order aggregate, the recalculation of
    its totals, order placement and status transitions, together with the
    parts of the Python runtime and of the Django/DRF layers the code
    relies on (integers, binary64 floats, strings, the relational store
    with its unique constraints, transactions). *)

From Stdlib Require Import ZArith Lia List Ascii String.
From Stdlib Require Import Floats.SpecFloat.
From stdpp Require Import base option gmap strings list sorting.

Open Scope string_scope.
Open Scope Z_scope.

(** ** Python runtime: exceptions and stateful computations *)

Inductive exn : Type :=
| ValidationError (fields : list string)
| ValueError
| OverflowError
| IntegrityError
| OperationalError
| DatabaseError
| MultipleObjectsReturned
| KeyError
| Http404.

Inductive result (A : Type) : Type :=
| Ok (a : A)
| Raise (e : exn).
Arguments Ok {A} a.
Arguments Raise {A} e.

(** A computation over a state [S] that returns a value or raises. The
    state reached when an exception is raised is kept: whatever was
    written before the [raise] stays written. *)
Definition M (S A : Type) : Type := S → result A * S.

Definition run_bind {S A B} (m : M S A) (k : A → M S B) : M S B :=
  λ s, match m s with
       | (Ok a, s') => k a s'
       | (Raise e, s') => (Raise e, s')
       end.

#[export] Instance M_ret {S} : MRet (M S) := λ A a s, (Ok a, s).
#[export] Instance M_bind {S} : MBind (M S) := λ A B k m, run_bind m k.

Definition raise {S A} (e : exn) : M S A := λ s, (Raise e, s).
Definition get {S} : M S S := λ s, (Ok s, s).
Definition gets {S A} (f : S → A) : M S A := λ s, (Ok (f s), s).
Definition modify {S} (f : S → S) : M S unit := λ s, (Ok tt, f s).
Definition lift_result {S A} (r : result A) : M S A := λ s, (r, s).

(** ** Python runtime: integers, floats, strings *)

(** [sum(xs)]: left to right, from 0. *)
Definition py_sum (xs : list Z) : Z := fold_left Z.add xs 0.

Module Float.
(** Python's [float] is IEEE 754 binary64. *)
Definition prec : Z := 53.
Definition emax : Z := 1024.
Definition t : Type := spec_float.

(** [float(n)] for an [int]: the nearest double, ties to even;
    OverflowError when that is out of range. *)
Definition of_int (n : Z) : result t :=
  match binary_normalize prec emax n 0 false with
  | S754_infinity _ => Raise OverflowError
  | x => Ok x
  end.

Definition mul (x y : t) : t := SFmul prec emax x y.
Definition div (x y : t) : t := SFdiv prec emax x y.

(** The literal [0.08]: the double nearest to 8/100. *)
Definition lit_0_08 : t := S754_finite false 5764607523034235 (-56).

(** Nearest integer to [m * 2^e] for [0 <= m], ties to even. *)
Definition round_half_even (m e : Z) : Z :=
  match e with
  | Zneg p =>
      let d := 2 ^ Zpos p in
      let q := m / d in
      match 2 * (m mod d) ?= d with
      | Lt => q
      | Eq => if Z.even q then q else q + 1
      | Gt => q + 1
      end
  | _ => m * 2 ^ e
  end.

(** [round(x)] with one argument: an [int], halfway cases to even. *)
Definition round (x : t) : result Z :=
  match x with
  | S754_zero _ => Ok 0
  | S754_finite s m e => Ok (cond_Zopp s (round_half_even (Zpos m) e))
  | S754_infinity _ => Raise OverflowError
  | S754_nan => Raise ValueError
  end.
End Float.

(** [int(round(n * 0.08))] for an [int] [n]. *)
Definition int_round_mul_0_08 (n : Z) : result Z :=
  match Float.of_int n with
  | Ok x => Float.round (Float.mul x Float.lit_0_08)
  | Raise e => Raise e
  end.

(** Characters are code points below 256. *)
Definition py_isspace (c : ascii) : bool :=
  let n := nat_of_ascii c in
  ((9 <=? n) && (n <=? 13) || (28 <=? n) && (n <=? 32)
   || (n =? 133) || (n =? 160))%nat.

Fixpoint py_lstrip (s : string) : string :=
  match s with
  | String c s' => if py_isspace c then py_lstrip s' else s
  | EmptyString => EmptyString
  end.

Fixpoint py_rstrip (s : string) : string :=
  match s with
  | String c s' =>
      match py_rstrip s' with
      | EmptyString => if py_isspace c then EmptyString else String c EmptyString
      | r => String c r
      end
  | EmptyString => EmptyString
  end.

(** [s.strip()] *)
Definition py_strip (s : string) : string := py_rstrip (py_lstrip s).

(** [c.upper()] on the ASCII range. *)
Definition ascii_upper (c : ascii) : ascii :=
  let n := nat_of_ascii c in
  if ((97 <=? n) && (n <=? 122))%nat then ascii_of_nat (n - 32) else c.

Fixpoint py_upper (s : string) : string :=
  match s with
  | String c s' => String (ascii_upper c) (py_upper s')
  | EmptyString => EmptyString
  end.

Fixpoint string_of_chars (cs : list ascii) : string :=
  match cs with
  | c :: cs' => String c (string_of_chars cs')
  | [] => EmptyString
  end.

Fixpoint chars_of_string (s : string) : list ascii :=
  match s with
  | String c s' => c :: chars_of_string s'
  | EmptyString => []
  end.

(** ** models.py: the rows *)

(** A foreign key is the primary key of the row it points to. Timestamps
    are readings of the clock of [World]. *)

Module Customer.
Record t : Type := mk {
  id : Z;
  created_at : Z;
  updated_at : Z;
  is_active : bool;
  email : string;
  full_name : string;
  phone : string;
  default_address : string }.

Definition set_full_name (v : string) (c : t) : t :=
  mk (id c) (created_at c) (updated_at c) (is_active c) (email c) v
     (phone c) (default_address c).
Definition set_phone (v : string) (c : t) : t :=
  mk (id c) (created_at c) (updated_at c) (is_active c) (email c)
     (full_name c) v (default_address c).
Definition set_default_address (v : string) (c : t) : t :=
  mk (id c) (created_at c) (updated_at c) (is_active c) (email c)
     (full_name c) (phone c) v.
Definition set_updated_at (v : Z) (c : t) : t :=
  mk (id c) (created_at c) v (is_active c) (email c) (full_name c)
     (phone c) (default_address c).
End Customer.

(** Of a menu item, the columns that order placement reads. *)
Module MenuItem.
Record t : Type := mk {
  id : Z;
  is_active : bool;
  category : option Z;
  name : string;
  price_cents : Z;
  is_available : bool }.
End MenuItem.

Module OrderItem.
Record t : Type := mk {
  id : Z;
  created_at : Z;
  updated_at : Z;
  order : Z;
  menu_item : Z;
  quantity : Z;
  unit_price_cents : Z }.
End OrderItem.

Module Order.
Module Status.
Definition PENDING : string := "PENDING".
Definition CONFIRMED : string := "CONFIRMED".
Definition PREPARING : string := "PREPARING".
Definition READY : string := "READY".
Definition OUT_FOR_DELIVERY : string := "OUT_FOR_DELIVERY".
Definition COMPLETED : string := "COMPLETED".
Definition CANCELLED : string := "CANCELLED".
Definition values : list string :=
  [PENDING; CONFIRMED; PREPARING; READY; OUT_FOR_DELIVERY; COMPLETED;
   CANCELLED].
End Status.

Record t : Type := mk {
  id : Z;
  created_at : Z;
  updated_at : Z;
  order_number : string;
  customer : Z;
  status : string;
  special_instructions : string;
  subtotal_cents : Z;
  tax_cents : Z;
  delivery_fee_cents : Z;
  total_cents : Z;
  eta : option Z }.

Definition set_updated_at (v : Z) (o : t) : t :=
  mk (id o) (created_at o) v (order_number o) (customer o) (status o)
     (special_instructions o) (subtotal_cents o) (tax_cents o)
     (delivery_fee_cents o) (total_cents o) (eta o).
Definition set_status (v : string) (o : t) : t :=
  mk (id o) (created_at o) (updated_at o) (order_number o) (customer o) v
     (special_instructions o) (subtotal_cents o) (tax_cents o)
     (delivery_fee_cents o) (total_cents o) (eta o).
Definition set_subtotal_cents (v : Z) (o : t) : t :=
  mk (id o) (created_at o) (updated_at o) (order_number o) (customer o)
     (status o) (special_instructions o) v (tax_cents o)
     (delivery_fee_cents o) (total_cents o) (eta o).
Definition set_tax_cents (v : Z) (o : t) : t :=
  mk (id o) (created_at o) (updated_at o) (order_number o) (customer o)
     (status o) (special_instructions o) (subtotal_cents o) v
     (delivery_fee_cents o) (total_cents o) (eta o).
Definition set_total_cents (v : Z) (o : t) : t :=
  mk (id o) (created_at o) (updated_at o) (order_number o) (customer o)
     (status o) (special_instructions o) (subtotal_cents o) (tax_cents o)
     (delivery_fee_cents o) v (eta o).
End Order.

Module Payment.
Module Method.
Definition CARD : string := "CARD".
Definition CASH : string := "CASH".
Definition WALLET : string := "WALLET".
End Method.
Module Status.
Definition INITIATED : string := "INITIATED".
Definition AUTHORIZED : string := "AUTHORIZED".
Definition CAPTURED : string := "CAPTURED".
Definition FAILED : string := "FAILED".
Definition REFUNDED : string := "REFUNDED".
End Status.

Record t : Type := mk {
  id : Z;
  created_at : Z;
  updated_at : Z;
  order : Z;
  method : string;
  amount_cents : Z;
  currency : string;
  status : string;
  processor_ref : string }.
End Payment.

Module OrderStatusEvent.
Record t : Type := mk {
  id : Z;
  created_at : Z;
  updated_at : Z;
  order : Z;
  from_status : string;
  to_status : string;
  at_ : Z }.
End OrderStatusEvent.

(** ** The store and its environment *)

Module DB.
Record t : Type := mk {
  customers : list Customer.t;
  menu_items : list MenuItem.t;
  orders : list Order.t;
  order_items : list OrderItem.t;
  payments : list Payment.t;
  events : list OrderStatusEvent.t }.

Definition set_customers (v : list Customer.t) (d : t) : t :=
  mk v (menu_items d) (orders d) (order_items d) (payments d) (events d).
Definition set_orders (v : list Order.t) (d : t) : t :=
  mk (customers d) (menu_items d) v (order_items d) (payments d) (events d).
Definition set_order_items (v : list OrderItem.t) (d : t) : t :=
  mk (customers d) (menu_items d) (orders d) v (payments d) (events d).
Definition set_payments (v : list Payment.t) (d : t) : t :=
  mk (customers d) (menu_items d) (orders d) (order_items d) v (events d).
Definition set_events (v : list OrderStatusEvent.t) (d : t) : t :=
  mk (customers d) (menu_items d) (orders d) (order_items d) (payments d) v.
End DB.

(** What a request runs against: the committed rows, the clock read by
    [timezone.now()], the random choices behind [get_random_string] (a
    stream and the number of choices consumed so far), and for each
    coming write statement whether the database refuses it
    ([true]: the statement raises OperationalError; past the end of the
    list every statement goes through). *)
Module World.
Record t : Type := mk {
  db : DB.t;
  clock : Z;
  rng : nat → nat;
  rng_pos : nat;
  faults : list bool }.

Definition set_db (v : DB.t) (w : t) : t :=
  mk v (clock w) (rng w) (rng_pos w) (faults w).
Definition set_clock (v : Z) (w : t) : t :=
  mk (db w) v (rng w) (rng_pos w) (faults w).
Definition set_rng_pos (v : nat) (w : t) : t :=
  mk (db w) (clock w) (rng w) v (faults w).
Definition set_faults (v : list bool) (w : t) : t :=
  mk (db w) (clock w) (rng w) (rng_pos w) v.
End World.

(** [timezone.now()] *)
Definition timezone_now : M World.t Z :=
  λ w, (Ok (World.clock w), World.set_clock (World.clock w + 1) w).

(** One INSERT or UPDATE statement reaching the database. *)
Definition execute : M World.t unit :=
  λ w, match World.faults w with
       | true :: fs => (Raise OperationalError, World.set_faults fs w)
       | false :: fs => (Ok tt, World.set_faults fs w)
       | [] => (Ok tt, w)
       end.

Definition query {A} (f : DB.t → A) : M World.t A :=
  gets (λ w, f (World.db w)).

Definition write (f : DB.t → DB.t) : M World.t unit :=
  modify (λ w, World.set_db (f (World.db w)) w).

(** [with transaction.atomic(): body]: the rows are those at entry again
    when [body] raises. *)
Definition transaction_atomic {A} (body : M World.t A) : M World.t A :=
  λ w, match body w with
       | (Ok a, w') => (Ok a, w')
       | (Raise e, w') => (Raise e, World.set_db (World.db w) w')
       end.

(** The next value of an auto-incremented primary key. *)
Definition next_id (ids : list Z) : Z := 1 + fold_right Z.max 0 ids.

(** [django.utils.crypto.get_random_string(length)]: [length] characters
    chosen in [RANDOM_STRING_CHARS]. *)
Definition RANDOM_STRING_CHARS : string :=
  "abcdefghijklmnopqrstuvwxyzABCDEFGHIJKLMNOPQRSTUVWXYZ0123456789".

Definition secrets_choice (cs : list ascii) : M World.t ascii :=
  λ w, let k := World.rng w (World.rng_pos w) in
       (Ok (nth (k mod length cs)%nat cs "a"%char),
        World.set_rng_pos (S (World.rng_pos w)) w).

Fixpoint random_chars (n : nat) : M World.t (list ascii) :=
  match n with
  | O => mret []
  | S n' =>
      c ← secrets_choice (chars_of_string RANDOM_STRING_CHARS);
      cs ← random_chars n';
      mret (c :: cs)
  end.

Definition get_random_string (n : nat) : M World.t string :=
  cs ← random_chars n; mret (string_of_chars cs).

(** ** The ORM calls the code makes *)

(** [obj.save()] on a row with a primary key: UPDATE, or INSERT when no
    row has that key. *)
Definition save_row {A} (pk : A → Z) (r : A) (rows : list A) : list A :=
  if bool_decide (pk r ∈ map pk rows)
  then map (λ x, if bool_decide (pk x = pk r) then r else x) rows
  else rows ++ [r].

Module Customer_objects.
(** INSERT; [email] is unique. *)
Definition create (email full_name phone default_address : string)
  : M World.t Customer.t :=
  created ← timezone_now;
  updated ← timezone_now;
  execute;;
  rows ← query DB.customers;
  if bool_decide (email ∈ map Customer.email rows)
  then raise IntegrityError
  else
    let c := Customer.mk (next_id (map Customer.id rows)) created updated
               true email full_name phone default_address in
    write (DB.set_customers (rows ++ [c]));;
    mret c.

(** [Customer.objects.get_or_create(email=email, defaults={...})] *)
Definition get_or_create (email full_name phone default_address : string)
  : M World.t (Customer.t * bool) :=
  rows ← query DB.customers;
  match filter (λ c, Customer.email c = email) rows with
  | [c] => mret (c, false)
  | [] => c ← create email full_name phone default_address; mret (c, true)
  | _ => raise MultipleObjectsReturned
  end.
End Customer_objects.

(** [customer.save()] *)
Definition Customer_save (c : Customer.t) : M World.t Customer.t :=
  updated ← timezone_now;
  let c := Customer.set_updated_at updated c in
  execute;;
  write (λ d, DB.set_customers (save_row Customer.id c (DB.customers d)) d);;
  mret c.

Module Order_objects.
(** INSERT; [order_number] is unique, the other columns take their
    defaults. *)
Definition create (order_number : string) (customer : Customer.t)
    (special_instructions : string) (delivery_fee_cents : Z)
  : M World.t Order.t :=
  created ← timezone_now;
  updated ← timezone_now;
  execute;;
  rows ← query DB.orders;
  if bool_decide (order_number ∈ map Order.order_number rows)
  then raise IntegrityError
  else
    let o := Order.mk (next_id (map Order.id rows)) created updated
               order_number (Customer.id customer) Order.Status.PENDING
               special_instructions 0 0 delivery_fee_cents 0 None in
    write (DB.set_orders (rows ++ [o]));;
    mret o.

(** [Order.objects.get(order_number=...)], as [get_object] of a view
    does it. *)
Definition get_object_or_404 (order_number : string) : M World.t Order.t :=
  rows ← query DB.orders;
  match filter (λ o, Order.order_number o = order_number) rows with
  | [o] => mret o
  | [] => raise Http404
  | _ => raise MultipleObjectsReturned
  end.
End Order_objects.

(** [order.save()] *)
Definition Order_save (o : Order.t) : M World.t Order.t :=
  updated ← timezone_now;
  let o := Order.set_updated_at updated o in
  execute;;
  write (λ d, DB.set_orders (save_row Order.id o (DB.orders d)) d);;
  mret o.

(** [order.save(update_fields=["status", "updated_at"])]: one UPDATE of
    these two columns, which must reach a row. *)
Definition Order_save_status (o : Order.t) : M World.t Order.t :=
  updated ← timezone_now;
  let o := Order.set_updated_at updated o in
  execute;;
  rows ← query DB.orders;
  if bool_decide (Order.id o ∈ map Order.id rows)
  then
    write (DB.set_orders
             (map (λ x, if bool_decide (Order.id x = Order.id o)
                        then Order.set_updated_at updated
                               (Order.set_status (Order.status o) x)
                        else x) rows));;
    mret o
  else raise DatabaseError.

Module OrderItem_objects.
(** INSERT; [(order, menu_item)] is unique. *)
Definition create (order : Order.t) (menu_item : MenuItem.t)
    (quantity unit_price_cents : Z) : M World.t OrderItem.t :=
  created ← timezone_now;
  updated ← timezone_now;
  execute;;
  rows ← query DB.order_items;
  if bool_decide ((Order.id order, MenuItem.id menu_item)
                  ∈ map (λ i, (OrderItem.order i, OrderItem.menu_item i)) rows)
  then raise IntegrityError
  else
    let i := OrderItem.mk (next_id (map OrderItem.id rows)) created updated
               (Order.id order) (MenuItem.id menu_item) quantity
               unit_price_cents in
    write (DB.set_order_items (rows ++ [i]));;
    mret i.
End OrderItem_objects.

Module Payment_objects.
(** INSERT; [order] is one-to-one. *)
Definition create (order : Order.t) (method : string) (amount_cents : Z)
    (currency status : string) : M World.t Payment.t :=
  created ← timezone_now;
  updated ← timezone_now;
  execute;;
  rows ← query DB.payments;
  if bool_decide (Order.id order ∈ map Payment.order rows)
  then raise IntegrityError
  else
    let p := Payment.mk (next_id (map Payment.id rows)) created updated
               (Order.id order) method amount_cents currency status "" in
    write (DB.set_payments (rows ++ [p]));;
    mret p.
End Payment_objects.

Module OrderStatusEvent_objects.
(** INSERT; [at] defaults to [timezone.now]. *)
Definition create (order : Order.t) (from_status to_status : string)
  : M World.t OrderStatusEvent.t :=
  at_ ← timezone_now;
  created ← timezone_now;
  updated ← timezone_now;
  execute;;
  rows ← query DB.events;
  let e := OrderStatusEvent.mk (next_id (map OrderStatusEvent.id rows))
             created updated (Order.id order) from_status to_status at_ in
  write (DB.set_events (rows ++ [e]));;
  mret e.
End OrderStatusEvent_objects.

(** [order.items.all()] *)
Definition items_all (order : Order.t) : M World.t (list OrderItem.t) :=
  query (λ d, filter (λ i, OrderItem.order i = Order.id order)
                (DB.order_items d)).

(** ** models.py: the methods of [Order] *)

(** A method runs on [self] and the world. *)
Definition in_world {O A} (m : M World.t A) : M (O * World.t) A :=
  λ s, let '(r, w') := m (snd s) in (r, (fst s, w')).

Definition self_ {O} : M (O * World.t) O := gets fst.

Definition set_self {O} (f : O → O) : M (O * World.t) unit :=
  modify (λ s, (f (fst s), snd s)).

(** [obj.method(...)] from code that goes on with the same object. *)
Definition call {O A} (obj : O) (m : M (O * World.t) A) : M World.t (O * A) :=
  λ w, match m (obj, w) with
       | (Ok a, (obj', w')) => (Ok (obj', a), w')
       | (Raise e, (_, w')) => (Raise e, w')
       end.

Definition line_total (i : OrderItem.t) : Z :=
  OrderItem.quantity i * OrderItem.unit_price_cents i.

(** [Order.recalculate_totals] *)
Definition recalculate_totals : M (Order.t * World.t) unit :=
  self ← self_;
  items ← in_world (items_all self);
  let subtotal := py_sum (map line_total items) in
  set_self (Order.set_subtotal_cents subtotal);;
  tax ← lift_result (int_round_mul_0_08 subtotal);
  set_self (Order.set_tax_cents tax);;
  self ← self_;
  set_self (Order.set_total_cents
              (subtotal + tax + Order.delivery_fee_cents self)).

(** [Order.mark_status] *)
Definition mark_status (new_status : string) : M (Order.t * World.t) unit :=
  if bool_decide (new_status ∈ Order.Status.values)
  then set_self (Order.set_status new_status)
  else raise ValueError.

(** ** serializers.py *)

(** [d.get(k, dflt)], [k in d], [d[k]] and truth of [d.get(k)] on a dict
    of strings. *)
Definition dict_get (d : gmap string string) (k dflt : string) : string :=
  default dflt (d !! k).

Definition dict_in (k : string) (d : gmap string string) : bool :=
  bool_decide (is_Some (d !! k)).

Definition dict_truthy (d : gmap string string) (k : string) : bool :=
  match d !! k with
  | Some v => bool_decide (v ≠ "")
  | None => false
  end.

Fixpoint for_each {S A} (xs : list A) (body : A → M S unit) : M S unit :=
  match xs with
  | [] => mret tt
  | x :: xs' => body x;; for_each xs' body
  end.

Module OrderItemCreateSerializer.
(** One element of [items] in the request. *)
Module Data.
Record t : Type := mk { menu_item_id : Z; quantity : Z }.
End Data.

(** The validated element, with the price snapshot. *)
Module Value.
Record t : Type := mk {
  menu_item : MenuItem.t;
  quantity : Z;
  unit_price_cents : Z }.
End Value.

(** [menu_item_id]: the primary key of an active, available item. *)
Definition field_menu_item (d : DB.t) (pk : Z) : option MenuItem.t :=
  head (filter (λ m, MenuItem.id m = pk ∧ MenuItem.is_active m = true
                     ∧ MenuItem.is_available m = true) (DB.menu_items d)).

(** [quantity = IntegerField(min_value=1, max_value=100)] *)
Definition field_quantity (q : Z) : option Z :=
  if bool_decide (1 ≤ q ≤ 100) then Some q else None.

(** [to_internal_value]; [None] when a field is invalid. *)
Definition to_internal_value (d : DB.t) (data : Data.t) : option Value.t :=
  match field_menu_item d (Data.menu_item_id data),
        field_quantity (Data.quantity data) with
  | Some menu_item, Some q =>
      Some (Value.mk menu_item q (MenuItem.price_cents menu_item))
  | _, _ => None
  end.
End OrderItemCreateSerializer.

Module PlaceOrderSerializer.
(** The request body; [None] is an absent key. *)
Module Data.
Record t : Type := mk {
  customer : option (gmap string string);
  items : option (list OrderItemCreateSerializer.Data.t);
  special_instructions : option string;
  delivery_fee_cents : option Z }.
End Data.

Module Validated.
Record t : Type := mk {
  customer : gmap string string;
  items : list OrderItemCreateSerializer.Value.t;
  special_instructions : option string;
  delivery_fee_cents : Z }.
End Validated.

(** [validate_customer] *)
Definition validate_customer (value : gmap string string)
  : option (gmap string string) :=
  if negb (dict_truthy value "email") || negb (dict_truthy value "full_name")
  then None
  else Some value.

(** [customer = DictField(child=CharField(), allow_empty=False)]: a
    required, non-empty dict whose values are trimmed and must not be
    blank; then [validate_customer]. *)
Definition field_customer (v : option (gmap string string))
  : option (gmap string string) :=
  match v with
  | None => None
  | Some d =>
      if bool_decide (d = ∅) then None
      else
        let d' := py_strip <$> d in
        if bool_decide (map_Forall (λ _ s, s ≠ "") d')
        then validate_customer d'
        else None
  end.

(** [items = OrderItemCreateSerializer(many=True)]: a required list,
    every element valid. *)
Definition field_items (d : DB.t)
    (v : option (list OrderItemCreateSerializer.Data.t))
  : option (list OrderItemCreateSerializer.Value.t) :=
  match v with
  | None => None
  | Some l => mapM (OrderItemCreateSerializer.to_internal_value d) l
  end.

(** [special_instructions = CharField(required=False, allow_blank=True)] *)
Definition field_special_instructions (v : option string) : option string :=
  py_strip <$> v.

(** [delivery_fee_cents = IntegerField(required=False, min_value=0,
    default=0)] *)
Definition field_delivery_fee_cents (v : option Z) : option Z :=
  match v with
  | None => Some 0
  | Some n => if bool_decide (0 ≤ n) then Some n else None
  end.

Definition error_of {A} (name : string) (v : option A) : list string :=
  match v with Some _ => [] | None => [name] end.

(** [is_valid(raise_exception=True)]: every field is validated, and the
    error names the fields that failed. *)
Definition run_validation (d : DB.t) (data : Data.t) : result Validated.t :=
  let customer := field_customer (Data.customer data) in
  let items := field_items d (Data.items data) in
  let fee := field_delivery_fee_cents (Data.delivery_fee_cents data) in
  match customer, items, fee with
  | Some c, Some i, Some f =>
      Ok (Validated.mk c i
            (field_special_instructions (Data.special_instructions data)) f)
  | _, _, _ =>
      Raise (ValidationError
               (error_of "customer" customer ++ error_of "items" items
                ++ error_of "delivery_fee_cents" fee))
  end.

Definition is_valid (data : Data.t) : M World.t Validated.t :=
  d ← query id; lift_result (run_validation d data).

(** [create] *)
Definition create (validated_data : Validated.t) : M World.t Order.t :=
  let customer_data := Validated.customer validated_data in
  let items_data := Validated.items validated_data in
  let special_instructions :=
    default "" (Validated.special_instructions validated_data) in
  let delivery_fee_cents := Validated.delivery_fee_cents validated_data in
  email ← match customer_data !! "email" with
          | Some v => mret v
          | None => raise KeyError
          end;
  '(customer, _) ← Customer_objects.get_or_create email
                     (dict_get customer_data "full_name" "")
                     (dict_get customer_data "phone" "")
                     (dict_get customer_data "address" "");
  let updated := false in
  let '(customer, updated) :=
    if dict_truthy customer_data "full_name"
       && bool_decide (Customer.full_name customer
                       ≠ dict_get customer_data "full_name" "")
    then (Customer.set_full_name (dict_get customer_data "full_name" "")
            customer, true)
    else (customer, updated) in
  let '(customer, updated) :=
    if dict_in "phone" customer_data
       && bool_decide (Customer.phone customer
                       ≠ dict_get customer_data "phone" "")
    then (Customer.set_phone (dict_get customer_data "phone" "") customer,
          true)
    else (customer, updated) in
  let '(customer, updated) :=
    if dict_in "address" customer_data
       && bool_decide (Customer.default_address customer
                       ≠ dict_get customer_data "address" "")
    then (Customer.set_default_address
            (dict_get customer_data "address" "") customer, true)
    else (customer, updated) in
  customer ← (if updated then Customer_save customer else mret customer);
  transaction_atomic (
    token ← get_random_string 10;
    let order_number := py_upper token in
    order ← Order_objects.create order_number customer special_instructions
              delivery_fee_cents;
    for_each items_data (λ item,
      OrderItem_objects.create order
        (OrderItemCreateSerializer.Value.menu_item item)
        (OrderItemCreateSerializer.Value.quantity item)
        (OrderItemCreateSerializer.Value.unit_price_cents item);;
      mret tt);;
    '(order, _) ← call order recalculate_totals;
    order ← Order_save order;
    Payment_objects.create order Payment.Method.CARD
      (Order.total_cents order) "USD" Payment.Status.INITIATED;;
    OrderStatusEvent_objects.create order Order.Status.PENDING
      Order.Status.PENDING;;
    mret order).
(** The two halves of [create], named so that statements can speak of
    each: the upsert of the customer (before the transaction) and the
    body of [with transaction.atomic()]. *)
Definition create_customer (customer_data : gmap string string)
  : M World.t Customer.t :=
  email ← match customer_data !! "email" with
          | Some v => mret v
          | None => raise KeyError
          end;
  '(customer, _) ← Customer_objects.get_or_create email
                     (dict_get customer_data "full_name" "")
                     (dict_get customer_data "phone" "")
                     (dict_get customer_data "address" "");
  let updated := false in
  let '(customer, updated) :=
    if dict_truthy customer_data "full_name"
       && bool_decide (Customer.full_name customer
                       ≠ dict_get customer_data "full_name" "")
    then (Customer.set_full_name (dict_get customer_data "full_name" "")
            customer, true)
    else (customer, updated) in
  let '(customer, updated) :=
    if dict_in "phone" customer_data
       && bool_decide (Customer.phone customer
                       ≠ dict_get customer_data "phone" "")
    then (Customer.set_phone (dict_get customer_data "phone" "") customer,
          true)
    else (customer, updated) in
  let '(customer, updated) :=
    if dict_in "address" customer_data
       && bool_decide (Customer.default_address customer
                       ≠ dict_get customer_data "address" "")
    then (Customer.set_default_address
            (dict_get customer_data "address" "") customer, true)
    else (customer, updated) in
  if updated then Customer_save customer else mret customer.

Definition create_aggregate (customer : Customer.t)
    (special_instructions : string) (delivery_fee_cents : Z)
    (items_data : list OrderItemCreateSerializer.Value.t)
  : M World.t Order.t :=
  token ← get_random_string 10;
  let order_number := py_upper token in
  order ← Order_objects.create order_number customer special_instructions
            delivery_fee_cents;
  for_each items_data (λ item,
    OrderItem_objects.create order
      (OrderItemCreateSerializer.Value.menu_item item)
      (OrderItemCreateSerializer.Value.quantity item)
      (OrderItemCreateSerializer.Value.unit_price_cents item);;
    mret tt);;
  '(order, _) ← call order recalculate_totals;
  order ← Order_save order;
  Payment_objects.create order Payment.Method.CARD
    (Order.total_cents order) "USD" Payment.Status.INITIATED;;
  OrderStatusEvent_objects.create order Order.Status.PENDING
    Order.Status.PENDING;;
  mret order.
End PlaceOrderSerializer.

Module UpdateOrderStatusSerializer.
(** [status = ChoiceField(choices=Order.Status.choices)], required. *)
Definition run_validation (data : option string) : result string :=
  match data with
  | Some s =>
      if bool_decide (s ∈ Order.Status.values) then Ok s
      else Raise (ValidationError ["status"])
  | None => Raise (ValidationError ["status"])
  end.

Definition is_valid (data : option string) : M World.t string :=
  lift_result (run_validation data).

(** [update]; [new_status] is [validated_data["status"]]. *)
Definition update (instance : Order.t) (new_status : string)
  : M World.t Order.t :=
  let old_status := Order.status instance in
  if bool_decide (new_status = old_status) then mret instance
  else
    '(instance, _) ← call instance (mark_status new_status);
    instance ← Order_save_status instance;
    OrderStatusEvent_objects.create instance old_status new_status;;
    mret instance.
End UpdateOrderStatusSerializer.

(** ** views.py *)

Module PlaceOrderView.
(** [post]: the order behind the 201 response. *)
Definition post (data : PlaceOrderSerializer.Data.t) : M World.t Order.t :=
  validated_data ← PlaceOrderSerializer.is_valid data;
  PlaceOrderSerializer.create validated_data.
End PlaceOrderView.

Module OrderStatusUpdateView.
(** [patch]: the order behind the 200 response. *)
Definition patch (order_number : string) (data : option string)
  : M World.t Order.t :=
  order ← Order_objects.get_object_or_404 order_number;
  new_status ← UpdateOrderStatusSerializer.is_valid data;
  UpdateOrderStatusSerializer.update order new_status.
End OrderStatusUpdateView.

Module OrderEventsView.
(** One entry of the payload; [at_] is the stamp that the response renders
    with [isoformat()]. *)
Module Entry.
Record t : Type := mk { from_status : string; to_status : string; at_ : Z }.
End Entry.

Inductive response : Type :=
| Response_200 (payload : list Entry.t)
| Response_404.

Definition entry (e : OrderStatusEvent.t) : Entry.t :=
  Entry.mk (OrderStatusEvent.from_status e) (OrderStatusEvent.to_status e)
    (OrderStatusEvent.at_ e).

(** [order_by("-at")]: latest first; the database is free in the order of
    rows with the same stamp, here they stay as stored. *)
Definition later (a b : OrderStatusEvent.t) : Prop :=
  OrderStatusEvent.at_ b ≤ OrderStatusEvent.at_ a.

#[global] Instance later_dec : RelDecision later :=
  λ a b, decide (OrderStatusEvent.at_ b ≤ OrderStatusEvent.at_ a).

(** [OrderStatusEvent.objects.filter(order=order).order_by("-at")] *)
Definition events_of (order : Order.t)
  : M World.t (list OrderStatusEvent.t) :=
  query (λ d, merge_sort later
                (filter (λ e, OrderStatusEvent.order e = Order.id order)
                   (DB.events d))).

(** [list]: the response, 404 when no order has the number. *)
Definition list (order_number : string) : M World.t response :=
  rows ← query DB.orders;
  match filter (λ o, Order.order_number o = order_number) rows with
  | [order] =>
      events ← events_of order;
      mret (Response_200 (map entry events))
  | [] => mret Response_404
  | _ => raise MultipleObjectsReturned
  end.
End OrderEventsView.

(** ** What the statements speak of *)

(** The line items of an order, and the sum of quantity times unit price
    over them. *)
Definition order_lines (d : DB.t) (o : Order.t) : list OrderItem.t :=
  filter (λ i, OrderItem.order i = Order.id o) (DB.order_items d).

Fixpoint sum_lines (items : list OrderItem.t) : Z :=
  match items with
  | [] => 0
  | i :: items' =>
      OrderItem.quantity i * OrderItem.unit_price_cents i + sum_lines items'
  end.

Definition totals_consistent (d : DB.t) (o : Order.t) : Prop :=
  Order.total_cents o
  = Order.subtotal_cents o + Order.tax_cents o + Order.delivery_fee_cents o
  ∧ Order.subtotal_cents o = sum_lines (order_lines d o).

(** The customer that the three conditional assignments of [create] leave
    in hand, and whether any of them fired ([updated]). *)
Definition merge_customer (customer_data : gmap string string)
    (c : Customer.t) : Customer.t :=
  let c :=
    if dict_truthy customer_data "full_name"
       && bool_decide (Customer.full_name c
                       ≠ dict_get customer_data "full_name" "")
    then Customer.set_full_name (dict_get customer_data "full_name" "") c
    else c in
  let c :=
    if dict_in "phone" customer_data
       && bool_decide (Customer.phone c ≠ dict_get customer_data "phone" "")
    then Customer.set_phone (dict_get customer_data "phone" "") c
    else c in
  if dict_in "address" customer_data
     && bool_decide (Customer.default_address c
                     ≠ dict_get customer_data "address" "")
  then Customer.set_default_address (dict_get customer_data "address" "") c
  else c.

Definition merge_updated (customer_data : gmap string string)
    (c : Customer.t) : bool :=
  dict_truthy customer_data "full_name"
  && bool_decide (Customer.full_name c ≠ dict_get customer_data "full_name" "")
  || dict_in "phone" customer_data
     && bool_decide (Customer.phone c ≠ dict_get customer_data "phone" "")
  || dict_in "address" customer_data
     && bool_decide (Customer.default_address c
                     ≠ dict_get customer_data "address" "").

(** Upper-case letters and digits. *)
Definition is_upper_alnum (c : ascii) : bool :=
  let n := nat_of_ascii c in
  ((65 <=? n) && (n <=? 90) || (48 <=? n) && (n <=? 57))%nat.

(** The string that [get_random_string(10)] returns next. *)
Definition next_token (w : World.t) : string :=
  match get_random_string 10 w with
  | (Ok token, _) => token
  | (Raise _, _) => ""
  end.

(** The rows of an order aggregate: everything but the customers. *)
Definition aggregate_rows (d : DB.t)
  : list MenuItem.t * list Order.t * list OrderItem.t * list Payment.t
    * list OrderStatusEvent.t :=
  (DB.menu_items d, DB.orders d, DB.order_items d, DB.payments d, DB.events d).

(** The key constraints of the customer table. *)
Definition customers_keyed (d : DB.t) : Prop :=
  NoDup (map Customer.id (DB.customers d))
  ∧ NoDup (map Customer.email (DB.customers d)).

(** The key constraints of the order table. *)
Definition orders_keyed (d : DB.t) : Prop :=
  NoDup (map Order.id (DB.orders d))
  ∧ NoDup (map Order.order_number (DB.orders d)).

(** What a line of the request costs in the store [d]: quantity times the
    price of the active, available menu item asked for. *)
Definition quoted_cents (d : DB.t) (data : OrderItemCreateSerializer.Data.t)
  : Z :=
  match OrderItemCreateSerializer.field_menu_item d
          (OrderItemCreateSerializer.Data.menu_item_id data) with
  | Some m => OrderItemCreateSerializer.Data.quantity data * MenuItem.price_cents m
  | None => 0
  end.

(** The foreign keys on orders: every order belongs to a stored customer,
    and every line item, payment and event to a stored order. *)
Definition references_resolve (d : DB.t) : Prop :=
  (∀ o, o ∈ DB.orders d → Order.customer o ∈ map Customer.id (DB.customers d))
  ∧ (∀ i, i ∈ DB.order_items d →
          OrderItem.order i ∈ map Order.id (DB.orders d))
  ∧ (∀ p, p ∈ DB.payments d → Payment.order p ∈ map Order.id (DB.orders d))
  ∧ (∀ e, e ∈ DB.events d →
          OrderStatusEvent.order e ∈ map Order.id (DB.orders d)).

(** The line item that [create] stores for a validated line of the
    request. *)
Definition stores_line (o : Order.t)
    (item : OrderItemCreateSerializer.Value.t) (i : OrderItem.t) : Prop :=
  OrderItem.order i = Order.id o
  ∧ OrderItem.menu_item i
    = MenuItem.id (OrderItemCreateSerializer.Value.menu_item item)
  ∧ OrderItem.quantity i = OrderItemCreateSerializer.Value.quantity item
  ∧ OrderItem.unit_price_cents i
    = OrderItemCreateSerializer.Value.unit_price_cents item.

(** What a stored line item owes to the line of the request it comes
    from: the menu item and the quantity asked for, and the price that
    this menu item, active and available, has in the store [d]. *)
Definition line_snapshot (d : DB.t) (o : Order.t)
    (data : OrderItemCreateSerializer.Data.t) (i : OrderItem.t) : Prop :=
  OrderItem.order i = Order.id o
  ∧ OrderItem.menu_item i = OrderItemCreateSerializer.Data.menu_item_id data
  ∧ OrderItem.quantity i = OrderItemCreateSerializer.Data.quantity data
  ∧ 1 ≤ OrderItemCreateSerializer.Data.quantity data ≤ 100
  ∧ ∃ m, m ∈ DB.menu_items d
         ∧ MenuItem.id m = OrderItemCreateSerializer.Data.menu_item_id data
         ∧ MenuItem.is_active m = true
         ∧ MenuItem.is_available m = true
         ∧ OrderItem.unit_price_cents i = MenuItem.price_cents m.

(** The key of a line item under its unique constraint. *)
Definition line_key (i : OrderItem.t) : Z * Z :=
  (OrderItem.order i, OrderItem.menu_item i).

(** What validation accepts, said without the serializer: a customer dict
    with an email and a full name and no value that is blank once trimmed;
    lines with a quantity from 1 to 100 for an active, available menu
    item; a delivery fee that is absent or not negative. *)
Definition customer_acceptable (v : option (gmap string string)) : Prop :=
  ∃ raw, v = Some raw
         ∧ (∀ k s, raw !! k = Some s → py_strip s ≠ "")
         ∧ is_Some (raw !! "email")
         ∧ is_Some (raw !! "full_name").

Definition line_acceptable (d : DB.t)
    (data : OrderItemCreateSerializer.Data.t) : Prop :=
  1 ≤ OrderItemCreateSerializer.Data.quantity data ≤ 100
  ∧ ∃ m, m ∈ DB.menu_items d
         ∧ MenuItem.id m = OrderItemCreateSerializer.Data.menu_item_id data
         ∧ MenuItem.is_active m = true
         ∧ MenuItem.is_available m = true.

Definition items_acceptable (d : DB.t)
    (v : option (list OrderItemCreateSerializer.Data.t)) : Prop :=
  ∃ l, v = Some l ∧ Forall (line_acceptable d) l.

Definition fee_acceptable (v : option Z) : Prop :=
  ∀ n, v = Some n → 0 ≤ n.


(** The next [n] write statements go through. *)
Definition accepts (n : nat) (w : World.t) : Prop :=
  true ∉ take n (World.faults w).

(** The database refuses no statement. *)
Definition quiet (w : World.t) : Prop := true ∉ World.faults w.

(** Latest first, on the entries of a payload. *)
Definition entry_later (a b : OrderEventsView.Entry.t) : Prop :=
  OrderEventsView.Entry.at_ b ≤ OrderEventsView.Entry.at_ a.

(** ** Notions used in the proofs *)

(** [k] right shifts of [m], with the round and sticky bits. *)
Definition shr_state (m : Z) (k : nat) : shr_record :=
  match k with
  | O => Build_shr_record m false false
  | S k' =>
      Build_shr_record (m / 2 ^ Z.of_nat k) (Z.odd (m / 2 ^ Z.of_nat k'))
        (negb (m mod 2 ^ Z.of_nat k' =? 0))
  end.

(** [m] leaves the part [f] of the world as it is, however it ends. *)
Definition keeps {A B} (f : World.t → B) (m : M World.t A) : Prop :=
  ∀ w r w', m w = (r, w') → f w' = f w.

(** [m] raises nothing but the exceptions of [es]. *)
Definition raises_only {A} (es : list exn) (m : M World.t A) : Prop :=
  ∀ w e w', m w = (Raise e, w') → e ∈ es.

(** ** Sample data *)

Definition sample_menu : list MenuItem.t :=
  [MenuItem.mk 1 true (Some 1) "Margherita" 1200 true;
   MenuItem.mk 2 true (Some 2) "Lemonade" 250 true;
   MenuItem.mk 3 true (Some 2) "Iced tea" 300 false].

(** Random choices spelling [aaaaaaaaaa], then [bbbbbbbbbb], and so on. *)
Definition sample_rng (i : nat) : nat := (i / 10)%nat.

Definition sample_world : World.t :=
  World.mk (DB.mk [] sample_menu [] [] [] []) 1000 sample_rng 0 [].

Definition sample_customer : gmap string string :=
  {[ "email" := "ann@example.org"; "full_name" := "Ann Lee" ]}.

Definition line (menu_item_id quantity : Z) : OrderItemCreateSerializer.Data.t :=
  OrderItemCreateSerializer.Data.mk menu_item_id quantity.

(** Three Margheritas, delivery fee 200. *)
Definition sample_request : PlaceOrderSerializer.Data.t :=
  PlaceOrderSerializer.Data.mk (Some sample_customer) (Some [line 1 3]) None
    (Some 200).

(** The same menu item on two lines. *)
Definition repeated_item_request : PlaceOrderSerializer.Data.t :=
  PlaceOrderSerializer.Data.mk (Some sample_customer)
    (Some [line 1 3; line 1 2]) None None.

(** No line at all. *)
Definition empty_request : PlaceOrderSerializer.Data.t :=
  PlaceOrderSerializer.Data.mk (Some sample_customer) (Some []) None (Some 200).

(** The store after [sample_request]: an order of three Margheritas. *)
Definition sample_order : Order.t :=
  Order.mk 1 1002 1006 "AAAAAAAAAA" 1 "PENDING" "" 3600 288 200 4088 None.

Definition placed_world (rng_pos : nat) (faults : list bool) : World.t :=
  World.mk
    (DB.mk
       [Customer.mk 1 1000 1001 true "ann@example.org" "Ann Lee" "" ""]
       sample_menu
       [sample_order]
       [OrderItem.mk 1 1004 1005 1 1 3 1200]
       [Payment.mk 1 1007 1008 1 "CARD" 4088 "USD" "INITIATED" ""]
       [OrderStatusEvent.mk 1 1010 1011 1 "PENDING" "PENDING" 1009])
    1012 sample_rng rng_pos faults.

(** The same customer under a new name, with a phone number. *)
Definition update_request : PlaceOrderSerializer.Data.t :=
  PlaceOrderSerializer.Data.mk
    (Some {[ "email" := " ann@example.org"; "full_name" := "Ann B. Lee";
             "phone" := "555 0100 " ]})
    (Some [line 2 1]) None None.

(** ** Reasoning about computations *)

Lemma bind_run {S A B} (m : M S A) (k : A → M S B) (s : S) :
  (m ≫= k) s = match m s with
               | (Ok a, s') => k a s'
               | (Raise e, s') => (Raise e, s')
               end.
Proof. reflexivity. Qed.

Lemma bind_Ok_inv {S A B} (m : M S A) (k : A → M S B) s b s'' :
  (m ≫= k) s = (Ok b, s'') →
  ∃ a s', m s = (Ok a, s') ∧ k a s' = (Ok b, s'').
Proof.
  rewrite bind_run. destruct (m s) as [[a|e] s']; [eauto | discriminate].
Qed.

Lemma bind_Raise_inv {S A B} (m : M S A) (k : A → M S B) s e s'' :
  (m ≫= k) s = (Raise e, s'') →
  m s = (Raise e, s'') ∨ ∃ a s', m s = (Ok a, s') ∧ k a s' = (Raise e, s'').
Proof.
  rewrite bind_run. destruct (m s) as [[a|e'] s']; intros H;
    [right; eauto | left; by inversion H].
Qed.

Ltac unfold_ops :=
  unfold call, in_world, self_, set_self, timezone_now, execute, query, write,
    mbind, M_bind, run_bind, mret, M_ret, raise, gets, modify, lift_result
    in *.

Ltac bool_decide_hyps :=
  repeat match goal with
         | H : bool_decide _ = true |- _ => apply bool_decide_eq_true in H
         | H : bool_decide _ = false |- _ => apply bool_decide_eq_false in H
         end.

(** Runs a primitive to its outcomes. *)
Ltac run_cases H :=
  unfold_ops; cbn in H; repeat case_match; simplify_eq/=; bool_decide_hyps.

(** ** Binary64 arithmetic *)

Lemma digits2_pos_size (p : positive) : digits2_pos p = Pos.size p.
Proof. induction p; simpl; congruence. Qed.

Lemma digits_bounds (p : positive) :
  2 ^ (Zpos (digits2_pos p) - 1) ≤ Zpos p < 2 ^ Zpos (digits2_pos p).
Proof.
  rewrite digits2_pos_size.
  pose proof (Pos.size_gt p) as Hgt. pose proof (Pos.size_le p) as Hle.
  apply Pos2Z.pos_lt_pos in Hgt. apply Pos2Z.pos_le_pos in Hle.
  rewrite Pos2Z.inj_pow in Hgt, Hle.
  assert (2 ^ Zpos (Pos.size p) = 2 * 2 ^ (Zpos (Pos.size p) - 1)) as Hpow.
  { rewrite <- Z.pow_succ_r by lia. f_equal. lia. }
  change (Z.pos p~0) with (2 * Z.pos p) in Hle. lia.
Qed.

Lemma digits_unique (p : positive) (k : Z) :
  2 ^ (k - 1) ≤ Zpos p < 2 ^ k → Zpos (digits2_pos p) = k.
Proof.
  intros [Hlo Hhi]. pose proof (digits_bounds p) as [Hlo' Hhi'].
  assert (0 < k).
  { destruct (Z_lt_le_dec 0 k) as [|Hk]; [done|].
    assert (2 ^ k ≤ 1); [|lia].
    destruct (Z.eq_dec k 0) as [->|]; [done|].
    rewrite Z.pow_neg_r; lia. }
  assert (k - 1 < Zpos (digits2_pos p)).
  { apply (Z.pow_lt_mono_r_iff 2); lia. }
  assert (Zpos (digits2_pos p) - 1 < k).
  { apply (Z.pow_lt_mono_r_iff 2); lia. }
  lia.
Qed.

Lemma iter_pos_nat {A} (f : A → A) (p : positive) (x : A) :
  SpecFloat.iter_pos f p x = Nat.iter (Pos.to_nat p) f x.
Proof.
  revert x. induction p as [p IH|p IH|]; intros x; cbn [SpecFloat.iter_pos].
  - rewrite !IH, Pos2Nat.inj_xI, <- Nat.iter_add.
    replace (2 * Pos.to_nat p)%nat with (Pos.to_nat p + Pos.to_nat p)%nat by lia.
    by rewrite <- Nat.iter_succ_r.
  - rewrite !IH, Pos2Nat.inj_xO, <- Nat.iter_add.
    by replace (2 * Pos.to_nat p)%nat with (Pos.to_nat p + Pos.to_nat p)%nat by lia.
  - done.
Qed.

Lemma shr_1_nonneg (m : Z) (r s : bool) :
  0 ≤ m →
  shr_1 (Build_shr_record m r s) = Build_shr_record (m / 2) (Z.odd m) (r || s).
Proof.
  intros Hm. rewrite <- Z.div2_div.
  destruct m as [|[p|p|]|]; try done; lia.
Qed.

Lemma shr_1_iter (m : Z) (k : nat) :
  0 ≤ m → Nat.iter k shr_1 (Build_shr_record m false false) = shr_state m k.
Proof.
  intros Hm. induction k as [|k IH]; [done|].
  rewrite Nat.iter_succ, IH. destruct k as [|k].
  - simpl shr_state. rewrite shr_1_nonneg by done.
    change (2 ^ Z.of_nat 1) with 2. change (2 ^ Z.of_nat 0) with 1.
    rewrite Z.div_1_r, Z.mod_1_r. done.
  - unfold shr_state. rewrite shr_1_nonneg by (apply Z.div_pos; lia).
    set (a := Z.of_nat k).
    replace (Z.of_nat (S (S k))) with (a + 2) by lia.
    replace (Z.of_nat (S k)) with (a + 1) by lia.
    assert (0 ≤ a) by lia.
    assert (H2a : 0 < 2 ^ a) by (apply Z.pow_pos_nonneg; lia).
    assert (Hpow1 : 2 ^ (a + 1) = 2 ^ a * 2).
    { rewrite Z.pow_add_r by lia. done. }
    assert (Hpow2 : 2 ^ (a + 2) = 2 ^ (a + 1) * 2).
    { replace (a + 2) with (a + 1 + 1) by lia. rewrite Z.pow_add_r by lia. done. }
    assert (Hdiv : m / 2 ^ (a + 1) / 2 = m / 2 ^ (a + 2)).
    { rewrite Z.div_div by lia. by rewrite Hpow2. }
    assert (Hs : Z.odd (m / 2 ^ a) || negb (m mod 2 ^ a =? 0)
                 = negb (m mod 2 ^ (a + 1) =? 0)).
    { rewrite Hpow1, Z.rem_mul_r, Zmod_odd by lia.
      pose proof (Z.mod_pos_bound m (2 ^ a) H2a).
      destruct (Z.odd (m / 2 ^ a)); destruct (Z.eqb_spec (m mod 2 ^ a) 0);
        simpl; symmetry.
      - apply negb_true_iff, Z.eqb_neq. lia.
      - apply negb_true_iff, Z.eqb_neq. lia.
      - apply negb_false_iff, Z.eqb_eq. lia.
      - apply negb_true_iff, Z.eqb_neq. lia. }
    by rewrite Hdiv, Hs.
Qed.

(** Rounding [m / 2^k] to nearest is within half a unit of [m / 2^k]. *)
Lemma round_nearest_even_iter (m : Z) (k : nat) :
  0 ≤ m → (0 < k)%nat →
  let mrs := Nat.iter k shr_1 (Build_shr_record m false false) in
  let mr := round_nearest_even (shr_m mrs) (loc_of_shr_record mrs) in
  2 ^ Z.of_nat k * (2 * mr - 1) ≤ 2 * m ≤ 2 ^ Z.of_nat k * (2 * mr + 1)
  ∧ m / 2 ^ Z.of_nat k ≤ mr ≤ m / 2 ^ Z.of_nat k + 1.
Proof.
  intros Hm Hk. rewrite shr_1_iter by done.
  destruct k as [|k]; [lia|]. unfold shr_state.
  set (a := Z.of_nat k). replace (Z.of_nat (S k)) with (a + 1) by lia.
  assert (0 ≤ a) by lia.
  assert (H2a : 0 < 2 ^ a) by (apply Z.pow_pos_nonneg; lia).
  assert (Hpow1 : 2 ^ (a + 1) = 2 ^ a * 2).
  { rewrite Z.pow_add_r by lia. done. }
  pose proof (Z.div_mod m (2 ^ (a + 1)) ltac:(lia)) as Hdm.
  assert (Hrem : m mod 2 ^ (a + 1)
                 = m mod 2 ^ a + 2 ^ a * (if Z.odd (m / 2 ^ a) then 1 else 0)).
  { rewrite Hpow1, Z.rem_mul_r, Zmod_odd by lia. done. }
  pose proof (Z.mod_pos_bound m (2 ^ a) H2a) as Hlo.
  set (q := m / 2 ^ (a + 1)) in *. set (r := m mod 2 ^ a) in *.
  set (P := 2 ^ a) in *.
  destruct (Z.odd (m / P)); destruct (Z.eqb_spec r 0) as [Hr|Hr];
    cbn -[Z.mul Z.add Z.sub Z.pow Z.div]; try destruct (Z.even q); nia.
Qed.

Lemma fexp_normal (x : Z) :
  -1074 ≤ x - 53 → fexp 53 1024 x = x - 53.
Proof. unfold fexp, emin. lia. Qed.

(** A mantissa of 53 bits in range is kept as it is. *)
Lemma binary_round_aux_exact (p : positive) (e : Z) :
  Zpos (digits2_pos p) = 53 → -1074 ≤ e ≤ 971 →
  binary_round_aux 53 1024 false (Zpos p) e loc_Exact = S754_finite false p e.
Proof.
  intros Hd He. unfold binary_round_aux, shr_fexp. cbn [Zdigits2].
  rewrite Hd, fexp_normal by lia.
  replace (53 + e - 53 - e) with 0 by lia.
  cbn [shr shr_record_of_loc shr_m loc_of_shr_record round_nearest_even Zdigits2].
  rewrite Hd, fexp_normal by lia.
  replace (53 + e - 53 - e) with 0 by lia.
  cbn [shr shr_record_of_loc shr_m].
  destruct (Z.leb_spec e (1024 - 53)); [done | lia].
Qed.

(** A longer mantissa is rounded to 53 bits, to within half a unit. *)
Lemma binary_round_aux_round (p np : positive) (e : Z) :
  Zpos (digits2_pos p) = 53 + Zpos np →
  -1074 ≤ e + Zpos np → e + Zpos np + 1 ≤ 971 →
  ∃ (m : positive) (j : Z),
    0 ≤ j ≤ 1
    ∧ binary_round_aux 53 1024 false (Zpos p) e loc_Exact
      = S754_finite false m (e + Zpos np + j)
    ∧ 2 * Zpos p - 2 ^ Zpos np ≤ 2 * (Zpos m * 2 ^ (Zpos np + j))
      ≤ 2 * Zpos p + 2 ^ Zpos np.
Proof.
  intros Hd Hlo Hhi. unfold binary_round_aux, shr_fexp. cbn [Zdigits2].
  rewrite Hd, fexp_normal by lia.
  replace (53 + Zpos np + e - 53 - e) with (Zpos np) by lia.
  cbn [shr shr_record_of_loc]. rewrite iter_pos_nat.
  pose proof (round_nearest_even_iter (Zpos p) (Pos.to_nat np)
                ltac:(lia) ltac:(lia)) as Hr.
  cbv zeta in Hr. rewrite positive_nat_Z in Hr.
  set (mrs := Nat.iter _ _ _) in *.
  set (mr := round_nearest_even _ _) in *.
  destruct Hr as [Hval Hq].
  pose proof (digits_bounds p) as Hp. rewrite Hd in Hp.
  assert (H2n : 0 < 2 ^ Zpos np) by (apply Z.pow_pos_nonneg; lia).
  replace (53 + Zpos np - 1) with (52 + Zpos np) in Hp by lia.
  rewrite !Z.pow_add_r in Hp by lia.
  assert (Hq' : 2 ^ 52 ≤ Zpos p / 2 ^ Zpos np < 2 ^ 53).
  { split.
    - apply Z.div_le_lower_bound; lia.
    - apply Z.div_lt_upper_bound; lia. }
  assert (Hmr : 2 ^ 52 ≤ mr ≤ 2 ^ 53) by lia.
  destruct mr as [|pm|pm] eqn:Emr; [lia| |lia].
  destruct (Z_lt_le_dec (Zpos pm) (2 ^ 53)) as [Hlt|Hge].
  - assert (Hdm : Zpos (digits2_pos pm) = 53) by (apply digits_unique; lia).
    cbn [Zdigits2]. rewrite Hdm, fexp_normal by lia.
    replace (53 + (e + Zpos np) - 53 - (e + Zpos np)) with 0 by lia.
    cbn [shr shr_m].
    destruct (Z.leb_spec (e + Zpos np) (1024 - 53)); [|lia].
    exists pm, 0. rewrite !Z.add_0_r. split; [lia|]. split; [done|]. lia.
  - assert (Epm : Zpos pm = 2 ^ 53) by lia.
    assert (Hdm : Zpos (digits2_pos pm) = 54).
    { apply digits_unique. rewrite Epm. change (54 - 1) with 53.
      split; [lia|]. apply Z.pow_lt_mono_r; lia. }
    cbn [Zdigits2]. rewrite Hdm, fexp_normal by lia.
    replace (54 + (e + Zpos np) - 53 - (e + Zpos np)) with 1 by lia.
    cbn [shr SpecFloat.iter_pos].
    injection Epm as ->. cbn [shr_1 shr_m].
    destruct (Z.leb_spec (e + Zpos np + 1) (1024 - 53)); [|lia].
    eexists _, 1. split; [lia|]. split; [done|].
    rewrite Z.pow_add_r by lia. change (2 ^ 1) with 2.
    change (Z.pos 9007199254740992) with (2 ^ 53) in *. lia.
Qed.

Lemma iter_xO_pow2 (p k : positive) : Zpos (Pos.iter xO p k) = Zpos p * 2 ^ Zpos k.
Proof.
  change (Pos.iter xO p k) with (shift_pos k p).
  rewrite shift_pos_correct, Zpower_pos_nat, Zpower_nat_Z, positive_nat_Z. lia.
Qed.

(** [float(n)] is exact for [0 < n < 2^53]: the mantissa is [n] shifted to
    53 bits. *)
Lemma of_int_exact (n : positive) :
  let d := Zpos (digits2_pos n) in
  d ≤ 53 →
  ∃ m : positive,
    Float.of_int (Zpos n) = Ok (S754_finite false m (d - 53))
    ∧ Zpos m = Zpos n * 2 ^ (53 - d)
    ∧ Zpos (digits2_pos m) = 53.
Proof.
  intros d Hd. unfold Float.of_int, binary_normalize, binary_round.
  change Float.prec with 53. change Float.emax with 1024.
  fold d. rewrite Z.add_0_r, fexp_normal by lia.
  assert (Hm : ∃ m : positive,
             shl_align n 0 (d - 53) = (m, d - 53)
             ∧ Zpos m = Zpos n * 2 ^ (53 - d)).
  { unfold shl_align. rewrite Z.sub_0_r.
    destruct (d - 53) as [|k|k] eqn:Ek; [|lia|].
    - exists n. replace (53 - d) with 0 by lia. split; [done|]. lia.
    - exists (Pos.iter xO n k). split; [done|].
      rewrite iter_xO_pow2. do 2 f_equal. lia. }
  destruct Hm as (m & -> & Hm). exists m.
  assert (Hdm : Zpos (digits2_pos m) = 53).
  { apply digits_unique. rewrite Hm.
    pose proof (digits_bounds n) as Hn. fold d in Hn.
    assert (0 < d) by (unfold d; lia).
    assert (E1 : 2 ^ 53 = 2 ^ d * 2 ^ (53 - d)).
    { rewrite <- Z.pow_add_r by lia. f_equal. lia. }
    assert (E2 : 2 ^ (53 - 1) = 2 ^ (d - 1) * 2 ^ (53 - d)).
    { rewrite <- Z.pow_add_r by lia. f_equal. lia. }
    rewrite E1, E2.
    assert (0 < 2 ^ (53 - d)) by (apply Z.pow_pos_nonneg; lia).
    nia. }
  rewrite binary_round_aux_exact by lia. done.
Qed.

Lemma round_half_even_nearest (m e t : Z) :
  e < 0 →
  (2 * t - 1) * 2 ^ (- e) < 2 * m < (2 * t + 1) * 2 ^ (- e) →
  Float.round_half_even m e = t.
Proof.
  intros He Hb. destruct e as [|p|p]; [lia|lia|].
  unfold Float.round_half_even.
  change (- Z.neg p) with (Zpos p) in Hb.
  assert (Hd : 0 < 2 ^ Zpos p) by (apply Z.pow_pos_nonneg; lia).
  pose proof (Z.div_mod m (2 ^ Zpos p) ltac:(lia)) as Hdm.
  pose proof (Z.mod_pos_bound m (2 ^ Zpos p) Hd) as Hr.
  set (D := 2 ^ Zpos p) in *. set (q := m / D) in *. set (r := m mod D) in *.
  destruct (Z.compare_spec (2 * r) D); try destruct (Z.even q); nia.
Qed.

(** On amounts below 2^50 the float computation of the 8% is exact: it
    yields the integer nearest to [2 n / 25], which is never halfway. *)
Lemma int_round_mul_0_08_exact (n : Z) :
  0 ≤ n < 2 ^ 50 → int_round_mul_0_08 n = Ok ((2 * n + 12) / 25).
Proof.
  intros [Hn0 Hn]. destruct n as [|s|s]; [done| |lia].
  pose proof (digits_bounds s) as Hs.
  set (d := Zpos (digits2_pos s)) in *.
  assert (Hd : 0 < d ≤ 50).
  { split; [unfold d; lia|].
    assert (d - 1 < 50); [|lia]. apply (Z.pow_lt_mono_r_iff 2); lia. }
  destruct (of_int_exact s ltac:(fold d; lia)) as (m & Hof & Hm & Hdm).
  fold d in Hof, Hm.
  unfold int_round_mul_0_08. rewrite Hof.
  unfold Float.mul, Float.lit_0_08, SFmul. cbn [xorb].
  change Float.prec with 53. change Float.emax with 1024.
  set (C := 5764607523034235%positive).
  set (K := 2 ^ (53 - d)) in *.
  assert (HK : 8 ≤ K).
  { unfold K. change 8 with (2 ^ 3). apply Z.pow_le_mono_r; lia. }
  pose proof (digits_bounds m) as HX. rewrite Hdm in HX.
  change (2 ^ (53 - 1)) with 4503599627370496 in HX.
  change (2 ^ 53) with 9007199254740992 in HX.
  (* the product has 105 or 106 bits *)
  pose proof (digits_bounds (m * C)) as HP.
  set (dP := Zpos (digits2_pos (m * C))) in *.
  rewrite Pos2Z.inj_mul in HP.
  assert (HdP : dP = 53 + 52 ∨ dP = 53 + 53).
  { assert (104 < dP).
    { apply (Z.pow_lt_mono_r_iff 2); [lia|unfold dP; lia|].
      eapply Z.le_lt_trans; [|apply HP].
      change (2 ^ 104) with (4503599627370496 * 4503599627370496).
      unfold C. nia. }
    assert (dP - 1 < 106).
    { apply (Z.pow_lt_mono_r_iff 2); [lia|lia|].
      eapply Z.le_lt_trans; [apply HP|].
      change (2 ^ 106) with (9007199254740992 * 9007199254740992).
      unfold C. nia. }
    lia. }
  assert (Hround : ∃ (np : positive) (m' : positive) (j : Z),
             (np = 52 ∨ np = 53)%positive ∧ 0 ≤ j ≤ 1
             ∧ binary_round_aux 53 1024 false (Zpos (m * C)) (d - 53 + -56)
                 loc_Exact
               = S754_finite false m' (d - 53 + -56 + Zpos np + j)
             ∧ 2 * Zpos (m * C) - 2 ^ Zpos np
               ≤ 2 * (Zpos m' * 2 ^ (Zpos np + j))
               ≤ 2 * Zpos (m * C) + 2 ^ Zpos np).
  { destruct HdP as [HdP|HdP].
    - destruct (binary_round_aux_round (m * C) 52 (d - 53 + -56))
        as (m' & j & ? & ? & ?); [done|lia|lia|].
      exists 52%positive, m', j. auto.
    - destruct (binary_round_aux_round (m * C) 53 (d - 53 + -56))
        as (m' & j & ? & ? & ?); [done|lia|lia|].
      exists 53%positive, m', j. auto. }
  destruct Hround as (np & m' & j & Hnp & Hj & -> & Hval).
  rewrite Pos2Z.inj_mul in Hval.
  unfold Float.round. cbn [cond_Zopp]. f_equal.
  set (t := (2 * Zpos s + 12) / 25).
  set (E := d - 53 + -56 + Zpos np + j).
  apply round_half_even_nearest; [unfold E; lia|].
  set (W := 2 ^ (Zpos np + j)) in *.
  assert (HW : 0 < W) by (apply Z.pow_pos_nonneg; lia).
  assert (HDW : 2 ^ (- E) * W = 72057594037927936 * K).
  { unfold W, K, E. rewrite <- Z.pow_add_r by lia.
    change 72057594037927936 with (2 ^ 56). rewrite <- Z.pow_add_r by lia.
    f_equal. lia. }
  assert (Hnp' : 2 ^ Zpos np ≤ 9007199254740992).
  { change 9007199254740992 with (2 ^ 53). apply Z.pow_le_mono_r; lia. }
  assert (0 < 2 ^ Zpos np) by (apply Z.pow_pos_nonneg; lia).
  assert (Ht : 25 * t ≤ 2 * Zpos s + 12 ≤ 25 * t + 24).
  { unfold t. pose proof (Z.div_mod (2 * Zpos s + 12) 25 ltac:(lia)).
    pose proof (Z.mod_pos_bound (2 * Zpos s + 12) 25 ltac:(lia)). lia. }
  assert (HY : 25 * (t * K) ≤ 2 * Zpos m + 12 * K ≤ 25 * (t * K) + 24 * K).
  { rewrite Hm. nia. }
  set (X := Zpos m) in *. set (Y := t * K) in *. set (D := 2 ^ (- E)) in *.
  assert (HD : 0 < D) by (apply Z.pow_pos_nonneg; unfold E; lia).
  assert (A1 : (2 * Y - K) * 72057594037927936 + 2 ^ Zpos np < 2 * (X * Zpos C))
    by (unfold C; lia).
  assert (A2 : 2 * (X * Zpos C) + 2 ^ Zpos np < (2 * Y + K) * 72057594037927936)
    by (unfold C; lia).
  assert (B1 : (2 * t - 1) * D * W < 2 * Zpos m' * W).
  { replace ((2 * t - 1) * D * W) with ((2 * t - 1) * (D * W)) by ring.
    rewrite HDW. unfold Y in A1. lia. }
  assert (B2 : 2 * Zpos m' * W < (2 * t + 1) * D * W).
  { replace ((2 * t + 1) * D * W) with ((2 * t + 1) * (D * W)) by ring.
    rewrite HDW. unfold Y in A2. lia. }
  split; apply (Z.mul_lt_mono_pos_r W); assumption.
Qed.

(** ** Recalculation of the totals *)

Lemma fold_left_add_acc (xs : list Z) (a : Z) :
  fold_left Z.add xs a = a + fold_left Z.add xs 0.
Proof.
  revert a. induction xs as [|x xs IH]; intros a; simpl; [lia|].
  rewrite (IH (a + x)), (IH (0 + x)). lia.
Qed.

Lemma py_sum_lines (items : list OrderItem.t) :
  py_sum (map line_total items) = sum_lines items.
Proof.
  unfold py_sum. induction items as [|i items IH]; simpl; [done|].
  rewrite fold_left_add_acc, IH. unfold line_total. lia.
Qed.

(** The two outcomes of [recalculate_totals]. *)
Lemma recalculate_totals_run (o : Order.t) (w : World.t) :
  recalculate_totals (o, w) =
  let subtotal := sum_lines (order_lines (World.db w) o) in
  match int_round_mul_0_08 subtotal with
  | Ok tax =>
      (Ok tt,
       (Order.set_total_cents (subtotal + tax + Order.delivery_fee_cents o)
          (Order.set_tax_cents tax (Order.set_subtotal_cents subtotal o)), w))
  | Raise e => (Raise e, (Order.set_subtotal_cents subtotal o, w))
  end.
Proof.
  unfold recalculate_totals, items_all. unfold_ops. cbn.
  rewrite ?py_sum_lines.
  fold (order_lines (World.db w) o).
  destruct (int_round_mul_0_08 _); reflexivity.
Qed.

Lemma recalculate_totals_Ok (o o' : Order.t) (w w' : World.t) :
  recalculate_totals (o, w) = (Ok tt, (o', w')) →
  w' = w
  ∧ totals_consistent (World.db w) o'
  ∧ int_round_mul_0_08 (Order.subtotal_cents o') = Ok (Order.tax_cents o')
  ∧ order_lines (World.db w) o' = order_lines (World.db w) o
  ∧ Order.id o' = Order.id o
  ∧ Order.order_number o' = Order.order_number o
  ∧ Order.delivery_fee_cents o' = Order.delivery_fee_cents o.
Proof.
  rewrite recalculate_totals_run. cbv zeta.
  destruct (int_round_mul_0_08 _) as [tax|e] eqn:Etax; [|discriminate].
  intros [= <- <-]. unfold totals_consistent, order_lines. cbn. done.
Qed.

Lemma recalculate_totals_returns (o : Order.t) (w : World.t) :
  0 ≤ sum_lines (order_lines (World.db w) o) < 2 ^ 50 →
  ∃ o', recalculate_totals (o, w) = (Ok tt, (o', w))
        ∧ Order.tax_cents o'
          = (2 * sum_lines (order_lines (World.db w) o) + 12) / 25.
Proof.
  intros Hs. rewrite recalculate_totals_run. cbv zeta.
  rewrite int_round_mul_0_08_exact by done. eexists. split; [done|]. done.
Qed.

(** C8. [recalculate_totals] is idempotent: a second call in succession
    (no line item changed in between) returns what the first returned and
    leaves the order, hence its subtotal, tax and total, and the store as
    the first call left them. *)
Theorem recalculate_totals_idempotent (o : Order.t) (w : World.t) :
  let '(r1, s1) := recalculate_totals (o, w) in
  recalculate_totals s1 = (r1, s1).
Proof.
  rewrite recalculate_totals_run. cbv zeta.
  destruct (int_round_mul_0_08 _) as [tax|e] eqn:Etax;
    rewrite recalculate_totals_run; cbv zeta; unfold order_lines; cbn;
    fold (order_lines (World.db w) o); rewrite Etax; destruct o; reflexivity.
Qed.

(** C10. [recalculate_totals] writes only the subtotal, tax and total of
    the order: the store (so the set of line items) and every other field
    of the order, the delivery fee, status, order number, special
    instructions and eta among them, are as before the call, whether it
    returns or raises. *)
Theorem recalculate_totals_frame (o : Order.t) (w : World.t) :
  let '(_, (o', w')) := recalculate_totals (o, w) in
  w' = w
  ∧ order_lines (World.db w') o' = order_lines (World.db w) o
  ∧ Order.delivery_fee_cents o' = Order.delivery_fee_cents o
  ∧ Order.status o' = Order.status o
  ∧ Order.order_number o' = Order.order_number o
  ∧ Order.special_instructions o' = Order.special_instructions o
  ∧ Order.eta o' = Order.eta o
  ∧ Order.id o' = Order.id o
  ∧ Order.customer o' = Order.customer o
  ∧ Order.created_at o' = Order.created_at o
  ∧ Order.updated_at o' = Order.updated_at o.
Proof.
  rewrite recalculate_totals_run. cbv zeta.
  destruct (int_round_mul_0_08 _); unfold order_lines; cbn; done.
Qed.

(** The literal [0.08] is the quotient of 8 by 100, correctly rounded. *)
Lemma lit_0_08_nearest :
  Float.div (S754_finite false 4503599627370496 (-49))
    (S754_finite false 7036874417766400 (-46)) = Float.lit_0_08
  ∧ Float.of_int 8 = Ok (S754_finite false 4503599627370496 (-49))
  ∧ Float.of_int 100 = Ok (S754_finite false 7036874417766400 (-46)).
Proof. by vm_compute. Qed.

Lemma int_round_mul_0_08_Ok (n t : Z) :
  int_round_mul_0_08 n = Ok t →
  ∃ x : Float.t,
    Float.of_int n = Ok x ∧ Float.round (Float.mul x Float.lit_0_08) = Ok t.
Proof.
  unfold int_round_mul_0_08. destruct (Float.of_int n) as [x|e]; [eauto|done].
Qed.

(** C2. [recalculate_totals] sets [tax_cents] to [round(subtotal * 0.08)],
    computed on binary64 floats and converted to an integer: the subtotal
    is converted to a float, multiplied by the float [0.08], and rounded to
    an integer. For subtotals below 2^50 cents the call returns and the
    result is the integer nearest to 8% of the subtotal (a halfway case
    cannot occur). In particular a single line of 3 units at 1200 cents
    with a delivery fee of 200 gives subtotal 3600, tax 288, total 4088. *)
Theorem recalculate_totals_tax_rule :
  (∀ (o o' : Order.t) (w w' : World.t),
     recalculate_totals (o, w) = (Ok tt, (o', w')) →
     ∃ x : Float.t,
       Float.of_int (Order.subtotal_cents o') = Ok x
       ∧ Float.round (Float.mul x Float.lit_0_08) = Ok (Order.tax_cents o'))
  ∧ (∀ (o : Order.t) (w : World.t),
       let subtotal := sum_lines (order_lines (World.db w) o) in
       0 ≤ subtotal < 2 ^ 50 →
       ∃ o', recalculate_totals (o, w) = (Ok tt, (o', w))
             ∧ Order.subtotal_cents o' = subtotal
             ∧ Order.tax_cents o' = (2 * subtotal + 12) / 25
             ∧ 2 * Z.abs (100 * Order.tax_cents o' - 8 * subtotal) < 100)
  ∧ (∀ (o : Order.t) (w : World.t) (i : OrderItem.t),
       order_lines (World.db w) o = [i] →
       OrderItem.unit_price_cents i = 1200 →
       OrderItem.quantity i = 3 →
       Order.delivery_fee_cents o = 200 →
       ∃ o', recalculate_totals (o, w) = (Ok tt, (o', w))
             ∧ Order.subtotal_cents o' = 3600
             ∧ Order.tax_cents o' = 288
             ∧ Order.total_cents o' = 4088).
Proof.
  split_and!.
  - intros o o' w w' Hrun.
    destruct (recalculate_totals_Ok _ _ _ _ Hrun) as (_ & _ & Hf & _).
    by apply int_round_mul_0_08_Ok.
  - intros o w subtotal Hs.
    destruct (recalculate_totals_returns o w Hs) as (o' & Hrun & Htax).
    exists o'. split; [done|].
    destruct (recalculate_totals_Ok _ _ _ _ Hrun)
      as (_ & [_ Hsub] & _ & Hlines & _).
    rewrite Hlines in Hsub. fold subtotal in Htax, Hsub.
    split_and!; [done|done|].
    rewrite Htax.
    pose proof (Z.div_mod (2 * subtotal + 12) 25 ltac:(lia)).
    pose proof (Z.mod_pos_bound (2 * subtotal + 12) 25 ltac:(lia)). lia.
  - intros o w i Hlines Hprice Hqty Hfee.
    rewrite recalculate_totals_run, Hlines. cbn [sum_lines].
    rewrite Hprice, Hqty, Hfee. cbv zeta.
    change (int_round_mul_0_08 (3 * 1200 + 0)) with (@Ok Z 288).
    eexists. split; [done|]. done.
Qed.

Lemma recalculate_totals_tax_rule_witness :
  ∃ o', recalculate_totals (sample_order, placed_world 0 [])
        = (Ok tt, (o', placed_world 0 []))
        ∧ Order.subtotal_cents o' = 3600
        ∧ Order.tax_cents o' = 288
        ∧ Order.total_cents o' = 4088
        ∧ Float.of_int (Order.subtotal_cents o')
          = Ok (S754_finite false 7916483719987200 (-41)).
Proof.
  destruct recalculate_totals_tax_rule as (Hfloat & Hgen & Hex).
  destruct (Hgen sample_order (placed_world 0 [])) as (o1 & Hrun1 & _).
  { vm_compute. split; [discriminate|reflexivity]. }
  destruct (Hex sample_order (placed_world 0 [])
              (OrderItem.mk 1 1004 1005 1 1 3 1200))
    as (o' & Hrun & Hsub & Htax & Htot); [reflexivity..|].
  destruct (Hfloat _ _ _ _ Hrun) as (x & Hx & _).
  exists o'. split_and!; [exact Hrun|exact Hsub|exact Htax|exact Htot|].
  rewrite Hsub. vm_compute. reflexivity.
Defined.

(** C7. A transition to the status the order already has is a no-op:
    [update] returns the order as it is and leaves the store as it is, so no
    OrderStatusEvent is appended and [updated_at] is not touched; the same
    holds for the request as a whole. *)
Theorem update_same_status_noop :
  (∀ (instance : Order.t) (w : World.t),
     UpdateOrderStatusSerializer.update instance (Order.status instance) w
     = (Ok instance, w))
  ∧ (∀ (order_number : string) (o : Order.t) (w : World.t),
       Order_objects.get_object_or_404 order_number w = (Ok o, w) →
       Order.status o ∈ Order.Status.values →
       OrderStatusUpdateView.patch order_number (Some (Order.status o)) w
       = (Ok o, w)).
Proof.
  split.
  - intros instance w. unfold UpdateOrderStatusSerializer.update.
    rewrite bool_decide_eq_true_2 by done. done.
  - intros order_number o w Hget Hin. unfold OrderStatusUpdateView.patch.
    rewrite bind_run, Hget, bind_run.
    unfold UpdateOrderStatusSerializer.is_valid,
      UpdateOrderStatusSerializer.run_validation, lift_result.
    rewrite bool_decide_eq_true_2 by done.
    unfold UpdateOrderStatusSerializer.update.
    rewrite bool_decide_eq_true_2 by done. done.
Qed.

Lemma update_same_status_noop_witness :
  OrderStatusUpdateView.patch "AAAAAAAAAA" (Some "PENDING") (placed_world 0 [])
  = (Ok sample_order, placed_world 0 []).
Proof.
  apply (proj2 update_same_status_noop "AAAAAAAAAA" sample_order
           (placed_world 0 [])).
  - reflexivity.
  - apply (bool_decide_unpack _). vm_compute. exact I.
Defined.

(** ** What a computation can change *)

Lemma keeps_ret {A B} (f : World.t → B) (a : A) : keeps f (mret a).
Proof. intros w r w' [= <- <-]. done. Qed.

Lemma keeps_raise {A B} (f : World.t → B) (e : exn) : keeps f (@raise _ A e).
Proof. intros w r w' [= <- <-]. done. Qed.

Lemma keeps_bind {A A' B} (f : World.t → B) (m : M World.t A)
    (k : A → M World.t A') :
  keeps f m → (∀ a, keeps f (k a)) → keeps f (m ≫= k).
Proof.
  intros Hm Hk w r w'. rewrite bind_run.
  destruct (m w) as [[a|e] w1] eqn:Em.
  - intros Hka. rewrite (Hk _ _ _ _ Hka). eauto.
  - intros [= <- <-]. eauto.
Qed.

Lemma keeps_for_each {A B} (f : World.t → B) (xs : list A)
    (body : A → M World.t unit) :
  (∀ x, keeps f (body x)) → keeps f (for_each xs body).
Proof.
  intros Hbody. induction xs as [|x xs IH]; cbn [for_each].
  - apply keeps_ret.
  - apply keeps_bind; [apply Hbody | intros _; apply IH].
Qed.

Lemma keeps_transaction_atomic {A B} (f : World.t → B) (body : M World.t A) :
  (∀ w w1, f w1 = f w → f (World.set_db (World.db w) w1) = f w) →
  keeps f body → keeps f (transaction_atomic body).
Proof.
  intros Hf Hbody w r w'. unfold transaction_atomic.
  destruct (body w) as [[a|e] w1] eqn:Eb; intros [= <- <-]; eauto.
Qed.

Lemma keeps_timezone_now {B} (f : World.t → B) :
  (∀ v w, f (World.set_clock v w) = f w) → keeps f timezone_now.
Proof. intros Hf w r w' [= <- <-]. apply Hf. Qed.

Lemma keeps_execute {B} (f : World.t → B) :
  (∀ v w, f (World.set_faults v w) = f w) → keeps f execute.
Proof.
  intros Hf w r w' H. unfold execute in H.
  repeat case_match; simplify_eq; first [apply Hf | done].
Qed.

Lemma keeps_query {A B} (f : World.t → B) (g : DB.t → A) : keeps f (query g).
Proof. intros w r w' [= <- <-]. done. Qed.

Lemma keeps_write {B} (f : World.t → B) (g : DB.t → DB.t) :
  (∀ w, f (World.set_db (g (World.db w)) w) = f w) → keeps f (write g).
Proof. intros Hg w r w' [= <- <-]. apply Hg. Qed.

Lemma keeps_lift_result {A B} (f : World.t → B) (r : result A) :
  keeps f (lift_result r).
Proof. intros w r' w' [= <- <-]. done. Qed.

Lemma keeps_call_recalculate_totals {B} (f : World.t → B) (o : Order.t) :
  keeps f (call o recalculate_totals).
Proof.
  intros w r w'. unfold call. rewrite recalculate_totals_run. cbv zeta.
  destruct (int_round_mul_0_08 _); intros [= <- <-]; done.
Qed.

Lemma keeps_random_chars {B} (f : World.t → B) (n : nat) :
  (∀ v w, f (World.set_rng_pos v w) = f w) → keeps f (random_chars n).
Proof.
  intros Hf. induction n as [|n IH]; cbn [random_chars]; [apply keeps_ret|].
  apply keeps_bind; [intros w r w' [= <- <-]; apply Hf|intros c].
  apply keeps_bind; [done|intros cs; apply keeps_ret].
Qed.

(** Splits a goal [keeps f m] along the structure of [m]. *)
Ltac keeps_tac :=
  repeat first
    [ apply keeps_ret | apply keeps_raise | apply keeps_query
    | apply keeps_lift_result | apply keeps_call_recalculate_totals
    | apply keeps_timezone_now; intros ??; reflexivity
    | apply keeps_execute; intros ??; reflexivity
    | apply keeps_random_chars; intros ??; reflexivity
    | apply keeps_write; intros ?; reflexivity
    | apply keeps_transaction_atomic;
      [intros ?? ?; first [reflexivity | assumption]|]
    | apply keeps_bind; [|intros ?]
    | apply keeps_for_each; intros ?
    | match goal with
      | |- keeps _ (match ?x with _ => _ end) => destruct x
      end ].

Ltac unfold_orm :=
  unfold get_random_string, Customer_objects.get_or_create,
    Customer_objects.create, Customer_save, Order_objects.create,
    Order_objects.get_object_or_404, Order_save, Order_save_status,
    OrderItem_objects.create, Payment_objects.create,
    OrderStatusEvent_objects.create.

(** The upsert of the customer touches the customer table only, and draws
    no random character. *)
Lemma create_customer_keeps_aggregates (cd : gmap string string) :
  keeps (λ w, aggregate_rows (World.db w))
    (PlaceOrderSerializer.create_customer cd).
Proof. unfold PlaceOrderSerializer.create_customer. unfold_orm. keeps_tac. Qed.

Lemma create_customer_keeps_rng (cd : gmap string string) :
  keeps (λ w, (World.rng w, World.rng_pos w))
    (PlaceOrderSerializer.create_customer cd).
Proof. unfold PlaceOrderSerializer.create_customer. unfold_orm. keeps_tac. Qed.

(** The transaction touches no customer. *)
Lemma create_aggregate_keeps_customers c si fee items :
  keeps (λ w, DB.customers (World.db w))
    (PlaceOrderSerializer.create_aggregate c si fee items).
Proof. unfold PlaceOrderSerializer.create_aggregate. unfold_orm. keeps_tac. Qed.

(** ** Order placement, step by step *)

Lemma post_run (data : PlaceOrderSerializer.Data.t) (w : World.t) :
  PlaceOrderView.post data w
  = match PlaceOrderSerializer.run_validation (World.db w) data with
    | Ok validated_data => PlaceOrderSerializer.create validated_data w
    | Raise e => (Raise e, w)
    end.
Proof.
  unfold PlaceOrderView.post, PlaceOrderSerializer.is_valid. unfold_ops. cbn.
  by destruct (PlaceOrderSerializer.run_validation _ _).
Qed.

Lemma create_run (vd : PlaceOrderSerializer.Validated.t) (w : World.t) :
  PlaceOrderSerializer.create vd w
  = match PlaceOrderSerializer.create_customer
            (PlaceOrderSerializer.Validated.customer vd) w with
    | (Ok customer, w1) =>
        transaction_atomic
          (PlaceOrderSerializer.create_aggregate customer
             (default "" (PlaceOrderSerializer.Validated.special_instructions vd))
             (PlaceOrderSerializer.Validated.delivery_fee_cents vd)
             (PlaceOrderSerializer.Validated.items vd)) w1
    | (Raise e, w1) => (Raise e, w1)
    end.
Proof.
  unfold PlaceOrderSerializer.create, PlaceOrderSerializer.create_customer,
    PlaceOrderSerializer.create_aggregate.
  rewrite bind_run.
  rewrite (bind_run _ _ w).
  destruct (PlaceOrderSerializer.Validated.customer vd !! "email")
    as [email|]; [|reflexivity].
  cbn [mret M_ret].
  rewrite bind_run.
  rewrite (bind_run _ _ w).
  destruct (Customer_objects.get_or_create _ _ _ _ w) as [[[c b]|e] w1];
    [|reflexivity].
  destruct (dict_truthy _ _ && _); cbv iota beta.
  all: destruct (dict_in "phone" _ && _); cbv iota beta.
  all: destruct (dict_in "address" _ && _); cbv iota beta.
  all: rewrite bind_run.
  all: match goal with
       | |- context [Customer_save ?c ?w] =>
           destruct (Customer_save c w) as [[c2|e] w2]
       | _ => idtac
       end.
  all: cbv beta iota.
  all: reflexivity.
Qed.

Lemma run_validation_Raise d data e :
  PlaceOrderSerializer.run_validation d data = Raise e →
  ∃ fields, e = ValidationError fields.
Proof.
  unfold PlaceOrderSerializer.run_validation.
  repeat case_match; intros [= <-]; eauto.
Qed.

Lemma save_row_elem {A} (pk : A → Z) (r : A) (rows : list A) :
  r ∈ save_row pk r rows.
Proof.
  unfold save_row. case_bool_decide as Hin.
  - apply list_elem_of_fmap in Hin as (x & Hx & Hin).
    apply list_elem_of_fmap. exists x. split; [|done].
    by rewrite bool_decide_eq_true_2.
  - apply elem_of_app. right. by apply list_elem_of_singleton.
Qed.

Lemma Order_create_Ok num c si fee w o w' :
  Order_objects.create num c si fee w = (Ok o, w') →
  (num ∉ map Order.order_number (DB.orders (World.db w)))
  ∧ Order.order_number o = num
  ∧ Order.delivery_fee_cents o = fee
  ∧ Order.status o = Order.Status.PENDING
  ∧ World.db w' = DB.set_orders (DB.orders (World.db w) ++ [o]) (World.db w).
Proof.
  unfold Order_objects.create. intros H. run_cases H.
  all: done.
Qed.

Lemma Order_create_Raise num c si fee w e w' :
  Order_objects.create num c si fee w = (Raise e, w') →
  World.db w' = World.db w
  ∧ (e = OperationalError
     ∨ e = IntegrityError
       ∧ num ∈ map Order.order_number (DB.orders (World.db w))).
Proof.
  unfold Order_objects.create. intros H. run_cases H.
  all: split; [done|].
  all: first [by left | by right].
Qed.

Lemma call_recalculate_totals_Ok o w o' u w' :
  call o recalculate_totals w = (Ok (o', u), w') →
  w' = w ∧ totals_consistent (World.db w) o'
  ∧ Order.id o' = Order.id o
  ∧ Order.order_number o' = Order.order_number o
  ∧ Order.delivery_fee_cents o' = Order.delivery_fee_cents o.
Proof.
  unfold call. destruct (recalculate_totals (o, w)) as [r [o1 w1]] eqn:E.
  destruct r as [[]|e]; [|discriminate]. intros [= <- <- <-].
  destruct (recalculate_totals_Ok _ _ _ _ E) as (-> & ? & ? & ? & ? & ? & ?).
  done.
Qed.

Lemma Order_save_Ok o w o' w' :
  Order_save o w = (Ok o', w') →
  (∃ t, o' = Order.set_updated_at t o)
  ∧ World.db w'
    = DB.set_orders (save_row Order.id o' (DB.orders (World.db w)))
        (World.db w).
Proof.
  unfold Order_save. intros H. run_cases H. all: eauto.
Qed.

Lemma Payment_create_Ok o m a c s w p w' :
  Payment_objects.create o m a c s w = (Ok p, w') →
  World.db w' = DB.set_payments (DB.payments (World.db w) ++ [p]) (World.db w).
Proof.
  unfold Payment_objects.create. intros H. run_cases H. all: done.
Qed.

Lemma Event_create_Ok o f t w ev w' :
  OrderStatusEvent_objects.create o f t w = (Ok ev, w') →
  World.db w' = DB.set_events (DB.events (World.db w) ++ [ev]) (World.db w)
  ∧ OrderStatusEvent.from_status ev = f
  ∧ OrderStatusEvent.to_status ev = t
  ∧ OrderStatusEvent.order ev = Order.id o.
Proof.
  unfold OrderStatusEvent_objects.create. intros H. run_cases H. all: done.
Qed.

Lemma totals_consistent_ext d d' o o' :
  DB.order_items d' = DB.order_items d →
  Order.id o' = Order.id o →
  Order.subtotal_cents o' = Order.subtotal_cents o →
  Order.tax_cents o' = Order.tax_cents o →
  Order.delivery_fee_cents o' = Order.delivery_fee_cents o →
  Order.total_cents o' = Order.total_cents o →
  totals_consistent d o → totals_consistent d' o'.
Proof.
  unfold totals_consistent, order_lines.
  intros -> -> -> -> -> ->. done.
Qed.

(** What a committed placement has done. *)
Lemma create_aggregate_Ok c si fee items w o w' :
  PlaceOrderSerializer.create_aggregate c si fee items w = (Ok o, w') →
  o ∈ DB.orders (World.db w')
  ∧ totals_consistent (World.db w') o
  ∧ (Order.order_number o ∉ map Order.order_number (DB.orders (World.db w)))
  ∧ (∃ token w1, get_random_string 10 w = (Ok token, w1)
                 ∧ Order.order_number o = py_upper token)
  ∧ Order.delivery_fee_cents o = fee.
Proof.
  unfold PlaceOrderSerializer.create_aggregate. intros H.
  apply bind_Ok_inv in H as (token & w1 & Htoken & H).
  apply bind_Ok_inv in H as (o0 & w2 & Hcreate & H).
  apply bind_Ok_inv in H as ([] & w3 & Hloop & H).
  apply bind_Ok_inv in H as ([o1 u] & w4 & Hrecalc & H).
  apply bind_Ok_inv in H as (o2 & w5 & Hsave & H).
  apply bind_Ok_inv in H as (p & w6 & Hpay & H).
  apply bind_Ok_inv in H as (ev & w7 & Hev & H).
  injection H as <- <-.
  assert (Hdb1 : World.db w1 = World.db w).
  { unfold get_random_string in Htoken.
    apply bind_Ok_inv in Htoken as (cs & w0 & Hcs & [= <- <-]).
    by apply (keeps_random_chars World.db 10 ltac:(done)) in Hcs. }
  apply Order_create_Ok in Hcreate as (Hfresh & Hnum & Hfee & _ & _).
  apply call_recalculate_totals_Ok in Hrecalc
    as (-> & Htot & Hid & Hnum1 & Hfee1).
  apply Order_save_Ok in Hsave as ([t ->] & Hdb5).
  apply Payment_create_Ok in Hpay as Hdb6.
  apply Event_create_Ok in Hev as (Hdb7 & _).
  rewrite Hdb7, Hdb6, Hdb5. cbn. split_and!.
  - apply save_row_elem.
  - eapply totals_consistent_ext; [..|exact Htot]; done.
  - rewrite Hnum1, Hnum, <- Hdb1. done.
  - exists token, w1. by rewrite Hnum1, Hnum.
  - by rewrite Hfee1.
Qed.

Lemma transaction_atomic_Ok {A} (body : M World.t A) w a w' :
  transaction_atomic body w = (Ok a, w') → body w = (Ok a, w').
Proof.
  unfold transaction_atomic. destruct (body w) as [[a'|e] w1]; by intros [= <- <-].
Qed.

Lemma transaction_atomic_Raise {A} (body : M World.t A) w e w' :
  transaction_atomic body w = (Raise e, w') → World.db w' = World.db w.
Proof.
  unfold transaction_atomic. destruct (body w) as [[a'|e'] w1]; by intros [= <- <-].
Qed.

(** A placement that returns has validated its input, upserted the
    customer and committed the transaction. *)
Lemma post_Ok data w o w' :
  PlaceOrderView.post data w = (Ok o, w') →
  ∃ vd c w1,
    PlaceOrderSerializer.run_validation (World.db w) data = Ok vd
    ∧ PlaceOrderSerializer.create_customer
        (PlaceOrderSerializer.Validated.customer vd) w = (Ok c, w1)
    ∧ PlaceOrderSerializer.create_aggregate c
        (default "" (PlaceOrderSerializer.Validated.special_instructions vd))
        (PlaceOrderSerializer.Validated.delivery_fee_cents vd)
        (PlaceOrderSerializer.Validated.items vd) w1 = (Ok o, w').
Proof.
  rewrite post_run.
  destruct (PlaceOrderSerializer.run_validation _ _) as [vd|e] eqn:Ev; [|done].
  rewrite create_run.
  destruct (PlaceOrderSerializer.create_customer _ _) as [[c|e] w1] eqn:Ec;
    [|done].
  intros H%transaction_atomic_Ok. eauto 10.
Qed.

(** ** Placement and transitions *)

(** C1. After [recalculate_totals] returns, and for the order returned
    (and stored) by a placement, the total is subtotal + tax + delivery
    fee and the subtotal is the sum of quantity times unit price over the
    line items of the order. [recalculate_totals] returns whenever that
    sum is below 2^50 cents. *)
Theorem totals_consistent_after_recalculation_and_placement (w : World.t) :
  (∀ o o' w',
     recalculate_totals (o, w) = (Ok tt, (o', w')) →
     totals_consistent (World.db w') o')
  ∧ (∀ o,
       0 ≤ sum_lines (order_lines (World.db w) o) < 2 ^ 50 →
       ∃ o', recalculate_totals (o, w) = (Ok tt, (o', w)))
  ∧ (∀ data o w',
       PlaceOrderView.post data w = (Ok o, w') →
       o ∈ DB.orders (World.db w') ∧ totals_consistent (World.db w') o).
Proof.
  split_and!.
  - intros o o' w' H. by destruct (recalculate_totals_Ok _ _ _ _ H) as (-> & ? & _).
  - intros o Hs. destruct (recalculate_totals_returns o w Hs) as (o' & ? & _).
    eauto.
  - intros data o w' H. apply post_Ok in H as (vd & c & w1 & _ & _ & H).
    by apply create_aggregate_Ok in H as (? & ? & _).
Qed.

Lemma totals_consistent_after_recalculation_and_placement_witness :
  (∃ o', recalculate_totals (sample_order, placed_world 0 []) = (Ok tt, (o', placed_world 0 []))
         ∧ totals_consistent (World.db (placed_world 0 [])) o')
  ∧ (∃ o w', PlaceOrderView.post sample_request sample_world = (Ok o, w')
             ∧ o ∈ DB.orders (World.db w')
             ∧ totals_consistent (World.db w') o).
Proof.
  split.
  - destruct (proj1 (proj2 (totals_consistent_after_recalculation_and_placement
                              (placed_world 0 []))) sample_order) as [o' Ho'].
    { vm_compute. split; [discriminate|reflexivity]. }
    exists o'. split; [exact Ho'|].
    exact (proj1 (totals_consistent_after_recalculation_and_placement
                    (placed_world 0 [])) _ _ _ Ho').
  - eexists _, _. split; [vm_compute; reflexivity|].
    apply (proj2 (proj2 (totals_consistent_after_recalculation_and_placement
                           sample_world)) sample_request).
    vm_compute. reflexivity.
Defined.

(** C3, as stated, fails: a placement that fails inside the transaction
    (here on the second line for the same menu item) has already created
    the customer, and that row stays. *)
Lemma failed_placement_keeps_customer :
  fst (PlaceOrderView.post repeated_item_request sample_world)
  = Raise IntegrityError
  ∧ DB.customers (World.db sample_world) = []
  ∧ DB.customers
      (World.db (snd (PlaceOrderView.post repeated_item_request sample_world)))
    = [Customer.mk 1 1000 1001 true "ann@example.org" "Ann Lee" "" ""].
Proof. vm_compute. done. Qed.

(** C3, amended. A placement that fails leaves no Order, OrderItem,
    Payment or OrderStatusEvent row: these tables are as before the call.
    A call refused by validation leaves the whole world as it was; a call
    that fails later may have created or updated the customer, whose
    upsert runs before the transaction. *)
Theorem failed_placement_leaves_no_aggregate_row data w e w' :
  PlaceOrderView.post data w = (Raise e, w') →
  DB.orders (World.db w') = DB.orders (World.db w)
  ∧ DB.order_items (World.db w') = DB.order_items (World.db w)
  ∧ DB.payments (World.db w') = DB.payments (World.db w)
  ∧ DB.events (World.db w') = DB.events (World.db w)
  ∧ (∀ e', PlaceOrderSerializer.run_validation (World.db w) data = Raise e' →
           w' = w).
Proof.
  rewrite post_run. intros H.
  assert (Hrows : aggregate_rows (World.db w') = aggregate_rows (World.db w)
                  ∧ (∀ e', PlaceOrderSerializer.run_validation (World.db w) data
                           = Raise e' → w' = w)).
  { destruct (PlaceOrderSerializer.run_validation _ _) as [vd|e0] eqn:Ev.
    - split; [|done]. rewrite create_run in H.
      destruct (PlaceOrderSerializer.create_customer _ _) as [[c|e1] w1] eqn:Ec.
      + apply transaction_atomic_Raise in H. rewrite H.
        by apply create_customer_keeps_aggregates in Ec.
      + injection H as <- <-. by apply create_customer_keeps_aggregates in Ec.
    - injection H as <- <-. done. }
  destruct Hrows as [[= ? ? ? ? ?] ?]. done.
Qed.

Lemma failed_placement_leaves_no_aggregate_row_witness :
  DB.orders
    (World.db (snd (PlaceOrderView.post repeated_item_request sample_world)))
  = []
  ∧ DB.order_items
      (World.db (snd (PlaceOrderView.post repeated_item_request sample_world)))
    = [].
Proof.
  destruct (failed_placement_leaves_no_aggregate_row repeated_item_request
              sample_world IntegrityError
              (snd (PlaceOrderView.post repeated_item_request sample_world)))
    as (H1 & H2 & _).
  { vm_compute. reflexivity. }
  split; [exact H1 | exact H2].
Defined.

(** An empty list of lines is never what validation objects to. *)
Lemma empty_items_pass_validation d data fields :
  PlaceOrderSerializer.Data.items data = Some [] →
  PlaceOrderSerializer.run_validation d data = Raise (ValidationError fields) →
  "items" ∉ fields.
Proof.
  intros Hitems.
  unfold PlaceOrderSerializer.run_validation. rewrite Hitems.
  change (PlaceOrderSerializer.field_items d (Some []))
    with (Some ([] : list OrderItemCreateSerializer.Value.t)).
  destruct (PlaceOrderSerializer.field_customer _);
    destruct (PlaceOrderSerializer.field_delivery_fee_cents _);
    intros [= <-]; apply (bool_decide_unpack _); vm_compute; exact I.
Qed.

(** C6 against the code: with a valid customer, a request whose list of
    lines is empty passes validation and the placement goes through: it
    stores an order without line items, whose total is the delivery fee,
    with its payment and its first event. *)
Theorem empty_order_is_placed :
  ∃ o w',
    PlaceOrderSerializer.Data.items empty_request = Some []
    ∧ PlaceOrderView.post empty_request sample_world = (Ok o, w')
    ∧ DB.orders (World.db w') = [o]
    ∧ order_lines (World.db w') o = []
    ∧ Order.total_cents o = 200
    ∧ length (DB.payments (World.db w')) = 1%nat
    ∧ length (DB.events (World.db w')) = 1%nat.
Proof. eexists _, _. vm_compute. done. Qed.

(** C4 against the code: the status is written by one statement and the
    event by another, with no transaction around them. When the database
    refuses the second statement, the transition fails with the new status
    stored and no event appended. *)
Theorem failed_transition_keeps_new_status :
  let w := placed_world 0 [false; true] in
  let '(r, w') := OrderStatusUpdateView.patch "AAAAAAAAAA" (Some "CONFIRMED") w in
  r = Raise OperationalError
  ∧ Order.status <$> DB.orders (World.db w) = ["PENDING"]
  ∧ Order.status <$> DB.orders (World.db w') = ["CONFIRMED"]
  ∧ DB.events (World.db w') = DB.events (World.db w).
Proof. vm_compute. done. Qed.

(** ** The customer upsert on an existing email *)

Lemma NoDup_fmap_eq {A B} (f : A → B) (l : list A) (x y : A) :
  NoDup (map f l) → x ∈ l → y ∈ l → f x = f y → x = y.
Proof.
  induction l as [|a l IH]; [by intros _ ?%elem_of_nil|].
  cbn [map]. intros [Ha Hl]%NoDup_cons [->|Hx]%elem_of_cons [->|Hy]%elem_of_cons Hf.
  - done.
  - destruct Ha. rewrite Hf. by apply (list_elem_of_fmap_2 f).
  - destruct Ha. rewrite <- Hf. by apply (list_elem_of_fmap_2 f).
  - by apply IH.
Qed.

Lemma filter_unique_email (rows : list Customer.t) (c : Customer.t) :
  NoDup (map Customer.email rows) → c ∈ rows →
  filter (λ x, Customer.email x = Customer.email c) rows = [c].
Proof.
  intros Hnd Hc.
  induction rows as [|x rows IH]; [by apply elem_of_nil in Hc|].
  cbn [map] in Hnd. apply NoDup_cons in Hnd as [Hx Hnd].
  apply elem_of_cons in Hc as [->|Hc].
  - rewrite filter_cons_True by done. f_equal.
    clear IH. induction rows as [|y rows IH]; [done|].
    cbn [map] in Hx, Hnd. apply not_elem_of_cons in Hx as [Hxy Hx].
    apply NoDup_cons in Hnd as [_ Hnd].
    rewrite filter_cons_False by congruence. by apply IH.
  - rewrite filter_cons_False; [by apply IH|].
    intros Heq. destruct Hx. rewrite Heq. by apply (list_elem_of_fmap_2 Customer.email).
Qed.

Lemma get_or_create_existing (c : Customer.t) (n p a : string) (w : World.t) :
  customers_keyed (World.db w) → c ∈ DB.customers (World.db w) →
  Customer_objects.get_or_create (Customer.email c) n p a w = (Ok (c, false), w).
Proof.
  intros [_ Hemail] Hc. unfold Customer_objects.get_or_create.
  rewrite bind_run. cbn [query gets].
  by rewrite filter_unique_email.
Qed.

(** Saving a row over the one with its key. *)
Lemma save_row_customer (rows : list Customer.t) (c c' : Customer.t) :
  NoDup (map Customer.id rows) → c ∈ rows →
  Customer.id c' = Customer.id c → Customer.email c' = Customer.email c →
  let rows' := save_row Customer.id c' rows in
  c' ∈ rows'
  ∧ map Customer.email rows' = map Customer.email rows
  ∧ (∀ x, x ∈ rows → Customer.id x ≠ Customer.id c → x ∈ rows').
Proof.
  intros Hnd Hc Hid Hemail rows'. split; [apply save_row_elem|].
  unfold rows', save_row. rewrite bool_decide_eq_true_2
    by (rewrite Hid; by apply (list_elem_of_fmap_2 Customer.id)).
  split.
  - rewrite map_map. apply map_ext_in. intros x Hx%list_elem_of_In.
    case_bool_decide as Hxc; [|done].
    rewrite Hemail. f_equal. symmetry.
    apply (NoDup_fmap_eq Customer.id rows); [done..|congruence].
  - intros x Hx Hne. apply list_elem_of_fmap. exists x. split; [|done].
    rewrite bool_decide_eq_false_2; [done|congruence].
Qed.

Lemma dict_truthy_Some (d : gmap string string) (k : string) :
  dict_truthy d k = true → ∃ v, d !! k = Some v ∧ v ≠ "" ∧ dict_get d k "" = v.
Proof.
  unfold dict_truthy, dict_get. destruct (d !! k) as [v|]; [|done].
  intros H%bool_decide_eq_true. eauto.
Qed.

Lemma dict_in_Some (d : gmap string string) (k : string) :
  dict_in k d = true → ∃ v, d !! k = Some v ∧ dict_get d k "" = v.
Proof.
  unfold dict_in, dict_get. intros [v Hv]%bool_decide_eq_true.
  rewrite Hv. eauto.
Qed.

Lemma dict_truthy_false (d : gmap string string) (k v : string) :
  dict_truthy d k = false → d !! k = Some v → v = "".
Proof.
  unfold dict_truthy. intros H Hv. rewrite Hv in H.
  apply bool_decide_eq_false in H. by destruct (decide (v = "")).
Qed.

Lemma dict_in_false (d : gmap string string) (k v : string) :
  dict_in k d = false → d !! k = Some v → False.
Proof.
  unfold dict_in. intros H%bool_decide_eq_false Hv. apply H. eauto.
Qed.

(** What validation hands to [create] as the customer: the caller's
    values, trimmed, none of them blank. *)
Lemma run_validation_customer d data vd :
  PlaceOrderSerializer.run_validation d data = Ok vd →
  ∃ raw, PlaceOrderSerializer.Data.customer data = Some raw
         ∧ PlaceOrderSerializer.Validated.customer vd = py_strip <$> raw
         ∧ (∀ k v, PlaceOrderSerializer.Validated.customer vd !! k = Some v →
                   v ≠ "").
Proof.
  unfold PlaceOrderSerializer.run_validation.
  destruct (PlaceOrderSerializer.field_customer _) as [cd|] eqn:Ecd;
    [|by repeat case_match].
  destruct (PlaceOrderSerializer.field_items _ _);
    destruct (PlaceOrderSerializer.field_delivery_fee_cents _); intros [= <-].
  cbn [PlaceOrderSerializer.Validated.customer].
  unfold PlaceOrderSerializer.field_customer in Ecd.
  destruct (PlaceOrderSerializer.Data.customer data) as [raw|]; [|done].
  exists raw. split; [done|].
  case_bool_decide; [done|]. case_bool_decide as Hblank; [|done].
  unfold PlaceOrderSerializer.validate_customer in Ecd.
  case_match; simplify_eq. split; [done|].
  intros k v Hv. by apply (Hblank k v).
Qed.

Lemma create_customer_run (cd : gmap string string) (w : World.t) :
  PlaceOrderSerializer.create_customer cd w
  = match cd !! "email" with
    | None => (Raise KeyError, w)
    | Some email =>
        match Customer_objects.get_or_create email (dict_get cd "full_name" "")
                (dict_get cd "phone" "") (dict_get cd "address" "") w with
        | (Ok (c, _), w1) =>
            if merge_updated cd c then Customer_save (merge_customer cd c) w1
            else (Ok (merge_customer cd c), w1)
        | (Raise e, w1) => (Raise e, w1)
        end
    end.
Proof.
  unfold PlaceOrderSerializer.create_customer, merge_updated, merge_customer.
  rewrite bind_run.
  destruct (cd !! "email") as [email|]; [|reflexivity].
  cbn [mret M_ret]. rewrite bind_run.
  destruct (Customer_objects.get_or_create _ _ _ _ w) as [[[c b]|e] w1];
    [|reflexivity].
  destruct c as [i ca ua act em fn ph ad].
  cbn [Customer.full_name Customer.phone Customer.default_address
       Customer.set_full_name Customer.set_phone Customer.set_default_address
       Customer.id Customer.created_at Customer.updated_at Customer.is_active
       Customer.email].
  destruct (dict_truthy cd "full_name" && _);
    destruct (dict_in "phone" cd && _);
    destruct (dict_in "address" cd && _); reflexivity.
Qed.

(** One conditional assignment: the value in hand afterwards is the
    supplied one when there is one, and differs from the stored one only
    then. *)
Lemma assign_when_truthy (cd : gmap string string) (k old : string) :
  (∀ v, cd !! k = Some v → v ≠ "") →
  let b := dict_truthy cd k && bool_decide (old ≠ dict_get cd k "") in
  let new := if b then dict_get cd k "" else old in
  (b = false → new = old)
  ∧ (new ≠ old → cd !! k = Some new)
  ∧ (∀ v, cd !! k = Some v → new = v).
Proof.
  intros Hblank. cbv zeta.
  destruct (dict_truthy cd k) eqn:E.
  - apply dict_truthy_Some in E as (v & Hv & _ & ->).
    case_bool_decide as Hd; cbn [andb]; split_and!; try done; try congruence.
    all: intros v' Hv'; apply dec_stable in Hd; congruence.
  - cbn [andb]. split_and!; try done.
    intros v Hv. by destruct (Hblank _ Hv (dict_truthy_false _ _ _ E Hv)).
Qed.

Lemma assign_when_present (cd : gmap string string) (k old : string) :
  let b := dict_in k cd && bool_decide (old ≠ dict_get cd k "") in
  let new := if b then dict_get cd k "" else old in
  (b = false → new = old)
  ∧ (new ≠ old → cd !! k = Some new)
  ∧ (∀ v, cd !! k = Some v → new = v).
Proof.
  cbv zeta. destruct (dict_in k cd) eqn:E.
  - apply dict_in_Some in E as (v & Hv & ->).
    case_bool_decide as Hd; cbn [andb]; split_and!; try done; try congruence.
    all: intros v' Hv'; apply dec_stable in Hd; congruence.
  - cbn [andb]. split_and!; try done.
    intros v Hv. by destruct (dict_in_false _ _ _ E Hv).
Qed.

Lemma merge_customer_fields (cd : gmap string string) (c : Customer.t) :
  (∀ k v, cd !! k = Some v → v ≠ "") →
  let c' := merge_customer cd c in
  Customer.id c' = Customer.id c
  ∧ Customer.email c' = Customer.email c
  ∧ (merge_updated cd c = false → c' = c)
  ∧ (Customer.full_name c' ≠ Customer.full_name c →
     cd !! "full_name" = Some (Customer.full_name c'))
  ∧ (Customer.phone c' ≠ Customer.phone c →
     cd !! "phone" = Some (Customer.phone c'))
  ∧ (Customer.default_address c' ≠ Customer.default_address c →
     cd !! "address" = Some (Customer.default_address c'))
  ∧ (∀ v, cd !! "full_name" = Some v → Customer.full_name c' = v)
  ∧ (∀ v, cd !! "phone" = Some v → Customer.phone c' = v)
  ∧ (∀ v, cd !! "address" = Some v → Customer.default_address c' = v).
Proof.
  intros Hblank.
  destruct c as [i ca ua act em fn ph ad].
  pose proof (assign_when_truthy cd "full_name" fn (Hblank _)) as H1.
  pose proof (assign_when_present cd "phone" ph) as H2.
  pose proof (assign_when_present cd "address" ad) as H3.
  cbv zeta in H1, H2, H3. unfold merge_customer, merge_updated.
  cbn [Customer.full_name Customer.phone Customer.default_address
       Customer.set_full_name Customer.set_phone Customer.set_default_address
       Customer.id Customer.created_at Customer.updated_at Customer.is_active
       Customer.email].
  destruct (dict_truthy cd "full_name" && _);
    cbn [Customer.full_name Customer.phone Customer.default_address
         Customer.set_full_name Customer.set_phone Customer.set_default_address
         Customer.id Customer.created_at Customer.updated_at Customer.is_active
         Customer.email];
    destruct (dict_in "phone" cd && _);
    cbn [Customer.full_name Customer.phone Customer.default_address
         Customer.set_full_name Customer.set_phone Customer.set_default_address
         Customer.id Customer.created_at Customer.updated_at Customer.is_active
         Customer.email];
    destruct (dict_in "address" cd && _);
    cbn [Customer.full_name Customer.phone Customer.default_address
         Customer.set_full_name Customer.set_phone Customer.set_default_address
         Customer.id Customer.created_at Customer.updated_at Customer.is_active
         Customer.email orb];
    destruct H1 as (H1a & H1b & H1c), H2 as (H2a & H2b & H2c),
      H3 as (H3a & H3b & H3c);
    split_and!; done.
Qed.

Lemma Customer_save_run cm w r w1 :
  Customer_save cm w = (r, w1) →
  (∃ e, r = Raise e) ∧ World.db w1 = World.db w
  ∨ ∃ t, r = Ok (Customer.set_updated_at t cm)
         ∧ World.db w1
           = DB.set_customers
               (save_row Customer.id (Customer.set_updated_at t cm)
                  (DB.customers (World.db w))) (World.db w).
Proof.
  unfold Customer_save. intros H. run_cases H.
  all: first [left; split; [eauto|done] | right; eauto].
Qed.

(** The upsert on the email of a stored customer. *)
Lemma create_customer_existing cd c w r w1 :
  customers_keyed (World.db w) →
  c ∈ DB.customers (World.db w) →
  cd !! "email" = Some (Customer.email c) →
  (∀ k v, cd !! k = Some v → v ≠ "") →
  PlaceOrderSerializer.create_customer cd w = (r, w1) →
  map Customer.email (DB.customers (World.db w1))
  = map Customer.email (DB.customers (World.db w))
  ∧ ∃ c',
      c' ∈ DB.customers (World.db w1)
      ∧ Customer.id c' = Customer.id c
      ∧ Customer.email c' = Customer.email c
      ∧ (∀ x, x ∈ DB.customers (World.db w) →
              Customer.id x ≠ Customer.id c → x ∈ DB.customers (World.db w1))
      ∧ (Customer.full_name c' ≠ Customer.full_name c →
         cd !! "full_name" = Some (Customer.full_name c'))
      ∧ (Customer.phone c' ≠ Customer.phone c →
         cd !! "phone" = Some (Customer.phone c'))
      ∧ (Customer.default_address c' ≠ Customer.default_address c →
         cd !! "address" = Some (Customer.default_address c'))
      ∧ (∀ c1, r = Ok c1 →
           (∀ v, cd !! "full_name" = Some v → Customer.full_name c' = v)
           ∧ (∀ v, cd !! "phone" = Some v → Customer.phone c' = v)
           ∧ (∀ v, cd !! "address" = Some v → Customer.default_address c' = v)).
Proof.
  intros Hkeyed Hc Hemail Hblank. rewrite create_customer_run, Hemail.
  rewrite get_or_create_existing by done.
  destruct (merge_customer_fields cd c Hblank)
    as (Hid & Hem & Hsame & Hn & Hp & Ha & Hn' & Hp' & Ha').
  assert (Hstay : ∀ e : exn,
            ∃ c', c' ∈ DB.customers (World.db w)
              ∧ Customer.id c' = Customer.id c
              ∧ Customer.email c' = Customer.email c
              ∧ (∀ x, x ∈ DB.customers (World.db w) →
                      Customer.id x ≠ Customer.id c →
                      x ∈ DB.customers (World.db w))
              ∧ (Customer.full_name c' ≠ Customer.full_name c →
                 cd !! "full_name" = Some (Customer.full_name c'))
              ∧ (Customer.phone c' ≠ Customer.phone c →
                 cd !! "phone" = Some (Customer.phone c'))
              ∧ (Customer.default_address c' ≠ Customer.default_address c →
                 cd !! "address" = Some (Customer.default_address c'))
              ∧ (∀ c1, @Raise Customer.t e = Ok c1 →
                   (∀ v, cd !! "full_name" = Some v → Customer.full_name c' = v)
                   ∧ (∀ v, cd !! "phone" = Some v → Customer.phone c' = v)
                   ∧ (∀ v, cd !! "address" = Some v →
                           Customer.default_address c' = v))).
  { intros e. exists c. split_and!; done. }
  destruct (merge_updated cd c) eqn:Eupd.
  - intros [[[e ->] Hdb]|(t & -> & Hdb)]%Customer_save_run.
    + rewrite Hdb. split; [done|]. apply Hstay.
    + rewrite Hdb. cbn [DB.customers DB.set_customers].
      destruct Hkeyed as [Hids _].
      destruct (save_row_customer (DB.customers (World.db w)) c
                  (Customer.set_updated_at t (merge_customer cd c))
                  Hids Hc Hid Hem) as (Hin & Hemails & Hothers).
      split; [done|].
      exists (Customer.set_updated_at t (merge_customer cd c)).
      split_and!; done.
  - intros [= <- <-]. split; [done|]. rewrite Hsame by done.
    exists c. split_and!; try done.
    intros _ _. rewrite Hsame in Hn', Hp', Ha' by done. done.
Qed.

(** C9. When the (trimmed) email of the request is that of a stored
    customer, a placement, however it ends, creates no customer row: the
    emails of the table are the same, in the same places, and every other
    customer is untouched. The row keeps its key and email, and each of
    its full name, phone and address differs from what was stored only
    when the caller supplied a value for it, which is then non-empty,
    differs from the stored one and is what the row now holds. When the
    placement returns, every supplied value is the stored one. The values
    in question are the caller's, trimmed. *)
Theorem existing_customer_upsert data vd c w r w' :
  customers_keyed (World.db w) →
  PlaceOrderSerializer.run_validation (World.db w) data = Ok vd →
  c ∈ DB.customers (World.db w) →
  PlaceOrderSerializer.Validated.customer vd !! "email"
  = Some (Customer.email c) →
  PlaceOrderView.post data w = (r, w') →
  let supplied := PlaceOrderSerializer.Validated.customer vd in
  (∃ raw, PlaceOrderSerializer.Data.customer data = Some raw
          ∧ supplied = py_strip <$> raw)
  ∧ (∀ k v, supplied !! k = Some v → v ≠ "")
  ∧ map Customer.email (DB.customers (World.db w'))
    = map Customer.email (DB.customers (World.db w))
  ∧ ∃ c',
      c' ∈ DB.customers (World.db w')
      ∧ Customer.id c' = Customer.id c
      ∧ Customer.email c' = Customer.email c
      ∧ (∀ x, x ∈ DB.customers (World.db w) →
              Customer.id x ≠ Customer.id c → x ∈ DB.customers (World.db w'))
      ∧ (Customer.full_name c' ≠ Customer.full_name c →
         supplied !! "full_name" = Some (Customer.full_name c'))
      ∧ (Customer.phone c' ≠ Customer.phone c →
         supplied !! "phone" = Some (Customer.phone c'))
      ∧ (Customer.default_address c' ≠ Customer.default_address c →
         supplied !! "address" = Some (Customer.default_address c'))
      ∧ (∀ o, r = Ok o →
           (∀ v, supplied !! "full_name" = Some v → Customer.full_name c' = v)
           ∧ (∀ v, supplied !! "phone" = Some v → Customer.phone c' = v)
           ∧ (∀ v, supplied !! "address" = Some v →
                   Customer.default_address c' = v)).
Proof.
  intros Hkeyed Hvalid Hc Hemail Hpost supplied.
  destruct (run_validation_customer _ _ _ Hvalid) as (raw & Hraw & Hstrip & Hblank).
  split; [eauto|]. split; [done|].
  rewrite post_run, Hvalid, create_run in Hpost. fold supplied in Hpost.
  destruct (PlaceOrderSerializer.create_customer supplied w) as [r1 w1] eqn:Ec.
  destruct (create_customer_existing _ _ _ _ _ Hkeyed Hc Hemail Hblank Ec)
    as (Hemails & c' & Hin & Hid & Hem & Hothers & Hn & Hp & Ha & Hok).
  assert (Hcust : DB.customers (World.db w') = DB.customers (World.db w1)
                  ∧ (∀ o, r = Ok o → ∃ c1, r1 = Ok c1)).
  { destruct r1 as [c1|e].
    - split; [|eauto].
      eapply (keeps_transaction_atomic (λ w, DB.customers (World.db w)));
        [| |exact Hpost].
      + intros ?? ?. reflexivity.
      + apply create_aggregate_keeps_customers.
    - injection Hpost as <- <-. split; [done|]. intros o [=]. }
  destruct Hcust as [Hcust Hr]. rewrite Hcust.
  split; [done|]. exists c'. split_and!; try done.
  intros o Ho. destruct (Hr o Ho) as [c1 Hc1]. by eapply Hok.
Qed.

(** ** Order numbers *)

Lemma string_of_chars_length (cs : list ascii) :
  String.length (string_of_chars cs) = length cs.
Proof. induction cs; cbn; congruence. Qed.

Lemma py_upper_length (s : string) : String.length (py_upper s) = String.length s.
Proof. induction s; cbn; congruence. Qed.

Lemma chars_of_py_upper (cs : list ascii) :
  chars_of_string (py_upper (string_of_chars cs)) = map ascii_upper cs.
Proof. induction cs; cbn; congruence. Qed.

Lemma upper_of_random_char (c : ascii) :
  In c (chars_of_string RANDOM_STRING_CHARS) →
  is_upper_alnum (ascii_upper c) = true.
Proof.
  assert (H : forallb (λ c, is_upper_alnum (ascii_upper c))
                (chars_of_string RANDOM_STRING_CHARS) = true) by reflexivity.
  rewrite forallb_forall in H. apply H.
Qed.

Lemma random_chars_run (n : nat) (w : World.t) :
  ∃ cs, random_chars n w
        = (Ok cs, World.set_rng_pos (World.rng_pos w + n) w)
        ∧ length cs = n
        ∧ Forall (λ c, In c (chars_of_string RANDOM_STRING_CHARS)) cs.
Proof.
  revert w. induction n as [|n IH]; intros w.
  - exists []. cbn. rewrite Nat.add_0_r. by destruct w.
  - cbn [random_chars]. rewrite bind_run. unfold secrets_choice at 1.
    set (c := nth _ _ _).
    destruct (IH (World.set_rng_pos (S (World.rng_pos w)) w))
      as (cs & Hrun & Hlen & Hall).
    rewrite bind_run, Hrun. exists (c :: cs). split_and!.
    + cbn [mret M_ret]. f_equal. unfold World.set_rng_pos. cbn [World.db World.clock World.rng World.rng_pos World.faults]. f_equal. lia.
    + cbn. by rewrite Hlen.
    + constructor; [|done]. apply nth_In. apply Nat.mod_upper_bound. done.
Qed.

Lemma get_random_string_run (w : World.t) :
  get_random_string 10 w
  = (Ok (next_token w), World.set_rng_pos (World.rng_pos w + 10) w)
  ∧ String.length (py_upper (next_token w)) = 10%nat
  ∧ Forall (λ c, is_upper_alnum c = true)
      (chars_of_string (py_upper (next_token w))).
Proof.
  unfold next_token, get_random_string. rewrite bind_run.
  destruct (random_chars_run 10 w) as (cs & -> & Hlen & Hall).
  cbn [mret M_ret]. split_and!.
  - done.
  - by rewrite py_upper_length, string_of_chars_length.
  - rewrite chars_of_py_upper. apply Forall_forall. intros c Hc.
    apply list_elem_of_In, in_map_iff in Hc as (c0 & <- & Hc0).
    apply upper_of_random_char. rewrite Forall_forall in Hall.
    by apply Hall, list_elem_of_In.
Qed.

Lemma random_chars_rng (n : nat) (w w1 : World.t) :
  World.rng w1 = World.rng w → World.rng_pos w1 = World.rng_pos w →
  fst (random_chars n w1) = fst (random_chars n w).
Proof.
  revert w w1. induction n as [|n IH]; intros w w1 Hrng Hpos; [done|].
  cbn [random_chars]. rewrite (bind_run _ _ w), (bind_run _ _ w1).
  unfold secrets_choice. cbv beta iota zeta. rewrite Hrng, Hpos.
  rewrite (bind_run _ _ (World.set_rng_pos _ w)),
    (bind_run _ _ (World.set_rng_pos _ w1)).
  specialize (IH (World.set_rng_pos (S (World.rng_pos w)) w)
                (World.set_rng_pos (S (World.rng_pos w)) w1) Hrng eq_refl).
  destruct (random_chars n (World.set_rng_pos _ w1)) as [[cs1|e1] w1'];
    destruct (random_chars n (World.set_rng_pos _ w)) as [[cs|e] w'];
    cbn in IH |- *; congruence.
Qed.

Lemma next_token_rng (w w1 : World.t) :
  World.rng w1 = World.rng w → World.rng_pos w1 = World.rng_pos w →
  next_token w1 = next_token w.
Proof.
  intros Hrng Hpos. unfold next_token, get_random_string. rewrite !bind_run.
  pose proof (random_chars_rng 10 w w1 Hrng Hpos) as H.
  destruct (random_chars 10 w1) as [[cs1|e1] w1'];
    destruct (random_chars 10 w) as [[cs|e] w']; cbn in H |- *; congruence.
Qed.

(** A committed placement has drawn one token. *)
Lemma create_aggregate_rng_pos c si fee items w o w' :
  PlaceOrderSerializer.create_aggregate c si fee items w = (Ok o, w') →
  World.rng_pos w' = (World.rng_pos w + 10)%nat.
Proof.
  unfold PlaceOrderSerializer.create_aggregate. intros H.
  apply bind_Ok_inv in H as (token & w1 & Htoken & H).
  match type of H with
  | ?m w1 = _ =>
      assert (Hk : keeps World.rng_pos m) by (unfold_orm; keeps_tac)
  end.
  apply Hk in H. rewrite H.
  destruct (get_random_string_run w) as (Hrun & _).
  rewrite Hrun in Htoken. by injection Htoken as _ <-.
Qed.

(** The number of a committed order is the upper-cased token. *)
Lemma create_aggregate_number c si fee items w o w' :
  PlaceOrderSerializer.create_aggregate c si fee items w = (Ok o, w') →
  Order.order_number o = py_upper (next_token w).
Proof.
  intros H.
  destruct (get_random_string_run w) as (Hrun & _).
  destruct (create_aggregate_Ok _ _ _ _ _ _ _ H)
    as (_ & _ & _ & (token & w1 & Htoken & Hnum) & _).
  rewrite Hnum. f_equal. congruence.
Qed.

(** The INSERT of an order whose number is taken, when the database
    accepts the statement: the unique constraint refuses it. *)
Lemma Order_create_collides num c si fee w :
  accepts 1 w →
  num ∈ map Order.order_number (DB.orders (World.db w)) →
  ∃ w', Order_objects.create num c si fee w = (Raise IntegrityError, w')
        ∧ World.rng_pos w' = World.rng_pos w.
Proof.
  intros Hacc Htaken. unfold Order_objects.create, accepts in *.
  destruct w as [d ck rg p fs]. cbn [World.faults World.db] in Hacc, Htaken.
  destruct fs as [|[] fs].
  - unfold_ops. cbn. rewrite bool_decide_eq_true_2 by done. by eexists.
  - exfalso. apply Hacc. cbn. by left.
  - unfold_ops. cbn. rewrite bool_decide_eq_true_2 by done. by eexists.
Qed.

Lemma create_aggregate_collides c si fee items w :
  accepts 1 w →
  py_upper (next_token w) ∈ map Order.order_number (DB.orders (World.db w)) →
  ∃ w', PlaceOrderSerializer.create_aggregate c si fee items w
        = (Raise IntegrityError, w')
        ∧ World.rng_pos w' = (World.rng_pos w + 10)%nat.
Proof.
  intros Hacc Htaken.
  destruct (get_random_string_run w) as (Htoken & _).
  destruct (Order_create_collides (py_upper (next_token w)) c si fee
              (World.set_rng_pos (World.rng_pos w + 10) w) Hacc Htaken)
    as (w' & Hcreate & Hpos).
  exists w'. split; [|exact Hpos].
  unfold PlaceOrderSerializer.create_aggregate.
  rewrite (bind_run _ _ w), Htoken. cbv beta iota.
  rewrite (bind_run _ _ (World.set_rng_pos (World.rng_pos w + 10) w)), Hcreate.
  reflexivity.
Qed.

(** A placement that fails leaves the order table as it was. *)
Lemma post_Raise_orders data w e w' :
  PlaceOrderView.post data w = (Raise e, w') →
  DB.orders (World.db w') = DB.orders (World.db w).
Proof.
  rewrite post_run.
  destruct (PlaceOrderSerializer.run_validation _ _) as [vd|e0];
    [|by intros [= <- <-]].
  rewrite create_run.
  destruct (PlaceOrderSerializer.create_customer _ _) as [[c|e1] w1] eqn:Ec.
  - intros H%transaction_atomic_Raise. rewrite H.
    by apply create_customer_keeps_aggregates in Ec as [= _ ? _ _ _].
  - intros [= <- <-].
    by apply create_customer_keeps_aggregates in Ec as [= _ ? _ _ _].
Qed.

(** C5, as stated, fails: the code does not retry. In a store that holds
    order AAAAAAAAAA, with random choices that spell that number first and
    BBBBBBBBBB next, the placement draws one token, fails at once with the
    integrity error of the unique constraint and creates no order; the
    second token, which is free, is never drawn. *)
Lemma collision_is_not_retried :
  let w := placed_world 0 [] in
  let '(r, w') := PlaceOrderView.post sample_request w in
  Order.order_number <$> DB.orders (World.db w) = ["AAAAAAAAAA"]
  ∧ py_upper (next_token w) = "AAAAAAAAAA"
  ∧ r = Raise IntegrityError
  ∧ DB.orders (World.db w') = DB.orders (World.db w)
  ∧ World.rng_pos w' = 10%nat
  ∧ py_upper (next_token w') = "BBBBBBBBBB".
Proof. vm_compute. done. Qed.

(** C5, amended. A placement draws one random token of ten characters and
    takes its upper case as the order number, ten upper-case letters or
    digits. Nothing is looked up or retried: the unique constraint on
    [order_number] decides, so a placement that returns has a number no
    stored order had and has stored its order, and a placement whose token
    collides fails and leaves the orders as they were. Hence two
    placements in sequence that both return give distinct numbers. On a
    collision, a placement that gets as far as the INSERT of the order
    (the request is valid, the customer is upserted, the database accepts
    the statement) fails at once with the integrity error of the unique
    constraint, having drawn one token and no more. *)
Theorem order_number_is_drawn_once_and_unique :
  (∀ data w o w',
     PlaceOrderView.post data w = (Ok o, w') →
     Order.order_number o = py_upper (next_token w)
     ∧ String.length (Order.order_number o) = 10%nat
     ∧ Forall (λ c, is_upper_alnum c = true)
         (chars_of_string (Order.order_number o))
     ∧ (Order.order_number o
        ∉ map Order.order_number (DB.orders (World.db w)))
     ∧ o ∈ DB.orders (World.db w')
     ∧ World.rng_pos w' = (World.rng_pos w + 10)%nat)
  ∧ (∀ data w r w',
       PlaceOrderView.post data w = (r, w') →
       py_upper (next_token w)
       ∈ map Order.order_number (DB.orders (World.db w)) →
       (∃ e, r = Raise e) ∧ DB.orders (World.db w') = DB.orders (World.db w))
  ∧ (∀ data1 data2 w o1 w1 o2 w2,
       PlaceOrderView.post data1 w = (Ok o1, w1) →
       PlaceOrderView.post data2 w1 = (Ok o2, w2) →
       Order.order_number o1 ≠ Order.order_number o2)
  ∧ (∀ data w vd c w1,
       PlaceOrderSerializer.run_validation (World.db w) data = Ok vd →
       PlaceOrderSerializer.create_customer
         (PlaceOrderSerializer.Validated.customer vd) w = (Ok c, w1) →
       accepts 1 w1 →
       py_upper (next_token w)
       ∈ map Order.order_number (DB.orders (World.db w)) →
       ∃ w', PlaceOrderView.post data w = (Raise IntegrityError, w')
             ∧ World.rng_pos w' = (World.rng_pos w + 10)%nat
             ∧ DB.orders (World.db w') = DB.orders (World.db w)).
Proof.
  assert (Hplaced : ∀ data w o w',
            PlaceOrderView.post data w = (Ok o, w') →
            Order.order_number o = py_upper (next_token w)
            ∧ String.length (Order.order_number o) = 10%nat
            ∧ Forall (λ c, is_upper_alnum c = true)
                (chars_of_string (Order.order_number o))
            ∧ (Order.order_number o
               ∉ map Order.order_number (DB.orders (World.db w)))
            ∧ o ∈ DB.orders (World.db w')
            ∧ World.rng_pos w' = (World.rng_pos w + 10)%nat).
  { intros data w o w' H.
    apply post_Ok in H as (vd & c & w1 & _ & Hcust & Hagg).
    pose proof (create_customer_keeps_rng _ _ _ _ Hcust) as [= Hrng Hpos].
    pose proof (create_customer_keeps_aggregates _ _ _ _ Hcust) as [= _ Horders _ _ _].
    pose proof (create_aggregate_number _ _ _ _ _ _ _ Hagg) as Hnum.
    pose proof (create_aggregate_rng_pos _ _ _ _ _ _ _ Hagg) as Hdrawn.
    destruct (create_aggregate_Ok _ _ _ _ _ _ _ Hagg)
      as (Hin & _ & Hfresh & _ & _).
    rewrite (next_token_rng w w1) in Hnum by done.
    destruct (get_random_string_run w) as (_ & Hlen & Hchars).
    rewrite Hnum. split_and!; try done.
    - by rewrite <- Hnum, <- Horders.
    - by rewrite Hdrawn, Hpos. }
  split_and!.
  - exact Hplaced.
  - intros data w r w' Hpost Hcollide. destruct r as [o|e].
    + destruct (Hplaced _ _ _ _ Hpost) as (Hnum & _ & _ & Hfresh & _).
      by rewrite Hnum in Hfresh.
    + split; [eauto|]. by apply post_Raise_orders in Hpost.
  - intros data1 data2 w o1 w1 o2 w2 H1 H2 Heq.
    destruct (Hplaced _ _ _ _ H1) as (_ & _ & _ & _ & Hin1 & _).
    destruct (Hplaced _ _ _ _ H2) as (_ & _ & _ & Hfresh2 & _).
    apply Hfresh2. rewrite <- Heq.
    by apply (list_elem_of_fmap_2 Order.order_number).
  - intros data w vd c w1 Hvd Hcust Hacc Htaken.
    pose proof (create_customer_keeps_rng _ _ _ _ Hcust) as [= Hrng Hpos].
    pose proof (create_customer_keeps_aggregates _ _ _ _ Hcust)
      as [= _ Horders _ _ _].
    destruct (create_aggregate_collides c
                (default "" (PlaceOrderSerializer.Validated.special_instructions
                               vd))
                (PlaceOrderSerializer.Validated.delivery_fee_cents vd)
                (PlaceOrderSerializer.Validated.items vd) w1 Hacc)
      as (w2 & Hagg & Hdrawn).
    { by rewrite (next_token_rng w w1), Horders. }
    exists (World.set_db (World.db w1) w2).
    rewrite post_run, Hvd, create_run, Hcust.
    unfold transaction_atomic. rewrite Hagg. split; [done|].
    split; [|done]. cbn. by rewrite Hdrawn, Hpos.
Qed.

Lemma order_number_is_drawn_once_and_unique_witness :
  ∃ o1 w1 o2 w2,
    PlaceOrderView.post sample_request sample_world = (Ok o1, w1)
    ∧ PlaceOrderView.post update_request w1 = (Ok o2, w2)
    ∧ Order.order_number o1 = "AAAAAAAAAA"
    ∧ Order.order_number o1 ≠ Order.order_number o2
    ∧ (∃ e, fst (PlaceOrderView.post sample_request (placed_world 0 []))
            = Raise e)
    ∧ (∃ w', PlaceOrderView.post sample_request (placed_world 0 [])
             = (Raise IntegrityError, w')
             ∧ World.rng_pos w' = 10%nat).
Proof.
  destruct order_number_is_drawn_once_and_unique
    as (Hplaced & Hcollide & Hseq & Hintegrity).
  let r1 := eval vm_compute in (PlaceOrderView.post sample_request sample_world) in
  lazymatch r1 with
  | (Ok ?o1, ?w1) =>
      let r2 := eval vm_compute in (PlaceOrderView.post update_request w1) in
      lazymatch r2 with
      | (Ok ?o2, ?w2) =>
          assert (H1 : PlaceOrderView.post sample_request sample_world
                       = (Ok o1, w1)) by (vm_compute; reflexivity);
          assert (H2 : PlaceOrderView.post update_request w1 = (Ok o2, w2))
            by (vm_compute; reflexivity);
          exists o1, w1, o2, w2
      end
  end.
  split; [exact H1|]. split; [exact H2|]. split_and!.
  - destruct (Hplaced _ _ _ _ H1) as (-> & _). vm_compute. reflexivity.
  - exact (Hseq _ _ _ _ _ _ _ H1 H2).
  - destruct (Hcollide sample_request (placed_world 0 [])
                (fst (PlaceOrderView.post sample_request (placed_world 0 [])))
                (snd (PlaceOrderView.post sample_request (placed_world 0 []))))
      as [He _].
    + vm_compute. reflexivity.
    + apply (bool_decide_unpack _). vm_compute. exact I.
    + exact He.
  - let v := eval vm_compute in
               (PlaceOrderSerializer.run_validation
                  (World.db (placed_world 0 [])) sample_request) in
    lazymatch v with
    | Ok ?vd =>
        let u := eval vm_compute in
                   (PlaceOrderSerializer.create_customer
                      (PlaceOrderSerializer.Validated.customer vd)
                      (placed_world 0 [])) in
        lazymatch u with
        | (Ok ?c, ?w1) =>
            destruct (Hintegrity sample_request (placed_world 0 []) vd c w1)
              as (w' & Hrun & Hpos & _);
            [vm_compute; reflexivity
            |vm_compute; reflexivity
            |unfold accepts; apply (bool_decide_unpack _); vm_compute; exact I
            |apply (bool_decide_unpack _); vm_compute; exact I
            |exists w'; split; [exact Hrun|exact Hpos]]
        end
    end.
Defined.

Lemma existing_customer_upsert_witness :
  let w := placed_world 10 [] in
  let w' := snd (PlaceOrderView.post update_request w) in
  map Customer.email (DB.customers (World.db w')) = ["ann@example.org"]
  ∧ ∃ c', c' ∈ DB.customers (World.db w')
          ∧ (Customer.full_name c' ≠ "Ann Lee" →
             Customer.full_name c' = "Ann B. Lee").
Proof.
  intros w w'.
  set (vd := match PlaceOrderSerializer.run_validation (World.db w)
                     update_request with
             | Ok vd => vd
             | Raise _ => PlaceOrderSerializer.Validated.mk ∅ [] None 0
             end).
  destruct (existing_customer_upsert update_request vd
              (Customer.mk 1 1000 1001 true "ann@example.org" "Ann Lee" "" "")
              w (fst (PlaceOrderView.post update_request w)) w')
    as (_ & _ & Hemails & c' & Hin & _ & _ & _ & Hname & _).
  - split; apply (bool_decide_unpack _); vm_compute; exact I.
  - vm_compute. reflexivity.
  - constructor.
  - vm_compute. reflexivity.
  - vm_compute. reflexivity.
  - split; [exact Hemails|]. exists c'. split; [exact Hin|].
    intros Hne. specialize (Hname Hne). vm_compute in Hname.
    by injection Hname.
Defined.


(** ** Status transitions *)

Lemma get_object_or_404_run (number : string) (w : World.t) :
  Order_objects.get_object_or_404 number w
  = match filter (λ o, Order.order_number o = number)
            (DB.orders (World.db w)) with
    | [o] => (Ok o, w)
    | [] => (Raise Http404, w)
    | _ => (Raise MultipleObjectsReturned, w)
    end.
Proof.
  unfold Order_objects.get_object_or_404. rewrite bind_run. cbn [query gets].
  by repeat case_match.
Qed.





(** X2. A transition that cannot start writes nothing: an unknown order number
    gives 404, and a missing or unknown status on a stored order gives a
    validation error on [status]; the world is as before in both cases. *)
Theorem transition_refused_leaves_world number data w :
  (filter (λ x, Order.order_number x = number) (DB.orders (World.db w)) = [] →
   OrderStatusUpdateView.patch number data w = (Raise Http404, w))
  ∧ (∀ o,
       filter (λ x, Order.order_number x = number) (DB.orders (World.db w))
       = [o] →
       (∀ s, data = Some s → s ∉ Order.Status.values) →
       OrderStatusUpdateView.patch number data w
       = (Raise (ValidationError ["status"]), w)).
Proof.
  split.
  - intros Hnone. unfold OrderStatusUpdateView.patch.
    by rewrite bind_run, get_object_or_404_run, Hnone.
  - intros o Hone Hbad. unfold OrderStatusUpdateView.patch.
    rewrite bind_run, get_object_or_404_run, Hone, bind_run.
    unfold UpdateOrderStatusSerializer.is_valid,
      UpdateOrderStatusSerializer.run_validation, lift_result.
    destruct data as [s|]; [|done].
    by rewrite bool_decide_eq_false_2 by by apply Hbad.
Qed.

Lemma transition_refused_leaves_world_witness :
  OrderStatusUpdateView.patch "ZZZZZZZZZZ" (Some "CONFIRMED") (placed_world 0 [])
  = (Raise Http404, placed_world 0 [])
  ∧ OrderStatusUpdateView.patch "AAAAAAAAAA" (Some "DELIVERED")
      (placed_world 0 [])
    = (Raise (ValidationError ["status"]), placed_world 0 []).
Proof.
  split.
  - apply (proj1 (transition_refused_leaves_world "ZZZZZZZZZZ"
                    (Some "CONFIRMED") (placed_world 0 []))).
    vm_compute. reflexivity.
  - apply (proj2 (transition_refused_leaves_world "AAAAAAAAAA"
                    (Some "DELIVERED") (placed_world 0 [])) sample_order).
    + vm_compute. reflexivity.
    + intros s [= <-]. apply (bool_decide_unpack _). vm_compute. exact I.
Defined.

(** What a status update can have touched, however it ends. *)
Lemma patch_footprint number data w r w' :
  OrderStatusUpdateView.patch number data w = (r, w') →
  DB.customers (World.db w') = DB.customers (World.db w)
  ∧ DB.menu_items (World.db w') = DB.menu_items (World.db w)
  ∧ DB.order_items (World.db w') = DB.order_items (World.db w)
  ∧ DB.payments (World.db w') = DB.payments (World.db w)
  ∧ (∃ (b : Order.t → bool) (s : string) (t : Z),
       DB.orders (World.db w')
       = map (λ x, if b x then Order.set_updated_at t (Order.set_status s x)
                   else x) (DB.orders (World.db w)))
  ∧ (DB.events (World.db w') = DB.events (World.db w)
     ∨ ∃ ev, DB.events (World.db w') = (DB.events (World.db w) ++ [ev])%list
             ∧ OrderStatusEvent.order ev
               ∈ map Order.id (DB.orders (World.db w))).
Proof.
  unfold OrderStatusUpdateView.patch. rewrite bind_run, get_object_or_404_run.
  assert (Hnothing : ∀ (r0 : result Order.t),
            (r0, w) = (r, w') →
            DB.customers (World.db w') = DB.customers (World.db w)
            ∧ DB.menu_items (World.db w') = DB.menu_items (World.db w)
            ∧ DB.order_items (World.db w') = DB.order_items (World.db w)
            ∧ DB.payments (World.db w') = DB.payments (World.db w)
            ∧ (∃ (b : Order.t → bool) (s : string) (t : Z),
                 DB.orders (World.db w')
                 = map (λ x, if b x
                             then Order.set_updated_at t (Order.set_status s x)
                             else x) (DB.orders (World.db w)))
            ∧ (DB.events (World.db w') = DB.events (World.db w)
               ∨ ∃ ev, DB.events (World.db w')
                       = (DB.events (World.db w) ++ [ev])%list
                       ∧ OrderStatusEvent.order ev
                         ∈ map Order.id (DB.orders (World.db w)))).
  { intros r0 [= <- <-]. split_and!; try done; [|by left].
    exists (λ _, false), "", 0. by rewrite map_id. }
  destruct (filter _ _) as [|o [|??]] eqn:Ef; [apply Hnothing| |apply Hnothing].
  assert (Hin : Order.id o ∈ map Order.id (DB.orders (World.db w))).
  { assert (Ho : o ∈ filter (λ x, Order.order_number x = number)
                         (DB.orders (World.db w))) by (rewrite Ef; by left).
    apply list_elem_of_filter in Ho as [_ Ho].
    by apply (list_elem_of_fmap_2 Order.id). }
  rewrite bind_run.
  unfold UpdateOrderStatusSerializer.is_valid, lift_result.
  destruct (UpdateOrderStatusSerializer.run_validation data) as [new|e];
    [|apply Hnothing].
  unfold UpdateOrderStatusSerializer.update.
  case_bool_decide; [apply Hnothing|].
  unfold mark_status. case_bool_decide; [|apply Hnothing].
  clear Hnothing.
  unfold Order_save_status, OrderStatusEvent_objects.create.
  destruct w as [d c rg p fs]. cbn [World.db] in *.
  intros Hrun. unfold_ops. cbn in Hrun.
  repeat case_match; simplify_eq/=; split_and!; try done; eauto.
  all: try by (exists (λ _, false), "", 0; rewrite map_id).
  all: by eexists (λ x, bool_decide (Order.id x = Order.id o)), _, _.
Qed.

Lemma Forall2_map_status (rows : list Order.t) (b : Order.t → bool)
    (s : string) (t : Z) :
  Forall2 (λ x x', x' = x
                   ∨ ∃ s t, x' = Order.set_updated_at t (Order.set_status s x))
    rows (map (λ x, if b x then Order.set_updated_at t (Order.set_status s x)
                    else x) rows).
Proof.
  induction rows as [|x rows IH]; cbn [map]; constructor; [|done].
  destruct (b x); eauto.
Qed.

(** X3. However a status update ends, and whatever the database refuses, it
    touches nothing but the status and the stamp of order rows, and it
    appends at most one event: customers, menu, line items and payments are
    as before, the order rows keep their place and every other field, and
    the old events are all still there, in front. *)
Theorem transition_footprint number data w r w' :
  OrderStatusUpdateView.patch number data w = (r, w') →
  DB.customers (World.db w') = DB.customers (World.db w)
  ∧ DB.menu_items (World.db w') = DB.menu_items (World.db w)
  ∧ DB.order_items (World.db w') = DB.order_items (World.db w)
  ∧ DB.payments (World.db w') = DB.payments (World.db w)
  ∧ Forall2 (λ x x', x' = x
                     ∨ ∃ s t, x' = Order.set_updated_at t (Order.set_status s x))
      (DB.orders (World.db w)) (DB.orders (World.db w'))
  ∧ (DB.events (World.db w') = DB.events (World.db w)
     ∨ ∃ ev, DB.events (World.db w') = (DB.events (World.db w) ++ [ev])%list).
Proof.
  intros H. apply patch_footprint in H
    as (Hc & Hm & Hi & Hp & (b & s & t & Ho) & He).
  split_and!; try done.
  - rewrite Ho. apply Forall2_map_status.
  - destruct He as [He|(ev & He & _)]; [by left|right; by exists ev].
Qed.

Lemma transition_footprint_witness :
  let w := placed_world 0 [false; true] in
  let w' := snd (OrderStatusUpdateView.patch "AAAAAAAAAA" (Some "CONFIRMED") w)
  in
  DB.payments (World.db w') = DB.payments (World.db w)
  ∧ DB.order_items (World.db w') = DB.order_items (World.db w)
  ∧ length (DB.orders (World.db w')) = length (DB.orders (World.db w)).
Proof.
  cbv zeta.
  destruct (transition_footprint "AAAAAAAAAA" (Some "CONFIRMED")
              (placed_world 0 [false; true])
              (fst (OrderStatusUpdateView.patch "AAAAAAAAAA" (Some "CONFIRMED")
                      (placed_world 0 [false; true])))
              (snd (OrderStatusUpdateView.patch "AAAAAAAAAA" (Some "CONFIRMED")
                      (placed_world 0 [false; true]))))
    as (_ & _ & Hi & Hp & Ho & _).
  - by destruct (OrderStatusUpdateView.patch _ _ _).
  - split_and!; [exact Hp|exact Hi|]. symmetry. exact (Forall2_length _ _ _ Ho).
Defined.

(** ** The rows of a placement *)

Lemma fold_right_max_ge (ids : list Z) (x : Z) :
  x ∈ ids → x ≤ fold_right Z.max 0 ids.
Proof.
  induction ids as [|y ids IH]; [by intros ?%elem_of_nil|].
  intros [->|Hx]%elem_of_cons; cbn; [lia|]. specialize (IH Hx). lia.
Qed.

Lemma next_id_fresh (ids : list Z) : next_id ids ∉ ids.
Proof. intros H%fold_right_max_ge. unfold next_id in H. lia. Qed.

Lemma save_row_last {A} (pk : A → Z) (r r' : A) (rows : list A) :
  pk r ∉ map pk rows → pk r' = pk r →
  save_row pk r' (rows ++ [r]) = (rows ++ [r'])%list.
Proof.
  intros Hfresh Hpk. unfold save_row.
  rewrite bool_decide_eq_true_2.
  2:{ rewrite map_app. apply elem_of_app. right. cbn. rewrite Hpk. by left. }
  rewrite map_app. cbn. rewrite bool_decide_eq_true_2 by done. f_equal.
  rewrite <- (map_id rows) at 2. apply map_ext_in. intros x Hx%list_elem_of_In.
  rewrite bool_decide_eq_false_2; [done|].
  intros Heq. apply Hfresh. rewrite <- Hpk, <- Heq.
  by apply (list_elem_of_fmap_2 pk).
Qed.

Lemma get_random_string_db (n : nat) (w : World.t) (s : string) (w' : World.t) :
  get_random_string n w = (Ok s, w') → World.db w' = World.db w.
Proof.
  unfold get_random_string. intros H.
  apply bind_Ok_inv in H as (cs & w0 & Hcs & [= <- <-]).
  by apply (keeps_random_chars World.db n ltac:(done)) in Hcs.
Qed.

Lemma Order_create_row num c si fee w o w' :
  Order_objects.create num c si fee w = (Ok o, w') →
  o = Order.mk (next_id (map Order.id (DB.orders (World.db w))))
        (World.clock w) (World.clock w + 1) num (Customer.id c)
        Order.Status.PENDING si 0 0 fee 0 None.
Proof.
  unfold Order_objects.create. intros H. run_cases H. all: done.
Qed.

Lemma OrderItem_create_Ok o m q u w i w' :
  OrderItem_objects.create o m q u w = (Ok i, w') →
  ((Order.id o, MenuItem.id m) ∉ map line_key (DB.order_items (World.db w)))
  ∧ OrderItem.order i = Order.id o
  ∧ OrderItem.menu_item i = MenuItem.id m
  ∧ OrderItem.quantity i = q
  ∧ OrderItem.unit_price_cents i = u
  ∧ World.db w'
    = DB.set_order_items (DB.order_items (World.db w) ++ [i]) (World.db w).
Proof.
  unfold OrderItem_objects.create. intros H. run_cases H. all: done.
Qed.

Lemma Payment_create_row o m a c s w p w' :
  Payment_objects.create o m a c s w = (Ok p, w') →
  Payment.order p = Order.id o ∧ Payment.method p = m
  ∧ Payment.amount_cents p = a ∧ Payment.currency p = c
  ∧ Payment.status p = s.
Proof.
  unfold Payment_objects.create. intros H. run_cases H. all: done.
Qed.

Lemma stores_line_order o items lines j :
  Forall2 (stores_line o) items lines → j ∈ lines →
  OrderItem.order j = Order.id o.
Proof.
  induction 1 as [|item i items lines [Ho _] _ IH]; [by intros ?%elem_of_nil|].
  by intros [->|Hin]%elem_of_cons; [|apply IH].
Qed.

Lemma for_each_lines_Ok o items w w' :
  for_each items (λ item,
    OrderItem_objects.create o
      (OrderItemCreateSerializer.Value.menu_item item)
      (OrderItemCreateSerializer.Value.quantity item)
      (OrderItemCreateSerializer.Value.unit_price_cents item);;
    mret tt) w = (Ok tt, w') →
  ∃ lines,
    World.db w'
    = DB.set_order_items (DB.order_items (World.db w) ++ lines) (World.db w)
    ∧ Forall2 (stores_line o) items lines
    ∧ NoDup (map OrderItem.menu_item lines)
    ∧ (∀ i, i ∈ lines →
         line_key i ∉ map line_key (DB.order_items (World.db w))).
Proof.
  revert w. induction items as [|item items IH]; intros w.
  - intros [= <-]. exists []. split_and!.
    + rewrite app_nil_r. by destruct (World.db w).
    + constructor.
    + constructor.
    + by intros i ?%elem_of_nil.
  - cbn [for_each]. intros H.
    apply bind_Ok_inv in H as ([] & w1 & Hbody & H).
    apply bind_Ok_inv in Hbody as (i & w0 & Hi & [= <-]).
    apply OrderItem_create_Ok in Hi as (Hfresh & Ho & Hm & Hq & Hu & Hdb).
    destruct (IH _ H) as (lines & Hdb' & Hall & Hnodup & Hkeys).
    exists (i :: lines). rewrite Hdb', Hdb. cbn. split_and!.
    + by rewrite <- app_assoc.
    + by constructor.
    + constructor; [|done]. intros Hin.
      apply list_elem_of_fmap in Hin as (j & Hj & Hin).
      apply (Hkeys j Hin). rewrite Hdb. cbn. rewrite map_app.
      apply elem_of_app. right. cbn. apply list_elem_of_singleton.
      unfold line_key. rewrite (stores_line_order _ _ _ _ Hall Hin).
      by rewrite <- Hj, Ho.
    + intros j [->|Hin]%elem_of_cons.
      * unfold line_key. by rewrite Ho, Hm.
      * intros Hk. apply (Hkeys j Hin). rewrite Hdb. cbn. rewrite map_app.
        apply elem_of_app. by left.
Qed.

Lemma call_recalculate_totals_fields o w o' u w' :
  call o recalculate_totals w = (Ok (o', u), w') →
  Order.status o' = Order.status o
  ∧ Order.customer o' = Order.customer o
  ∧ Order.special_instructions o' = Order.special_instructions o
  ∧ Order.subtotal_cents o' = sum_lines (order_lines (World.db w) o)
  ∧ int_round_mul_0_08 (Order.subtotal_cents o') = Ok (Order.tax_cents o')
  ∧ Order.total_cents o'
    = Order.subtotal_cents o' + Order.tax_cents o'
      + Order.delivery_fee_cents o'.
Proof.
  unfold call. rewrite recalculate_totals_run. cbv zeta.
  destruct (int_round_mul_0_08 _) as [tax|e] eqn:Etax; [|discriminate].
  intros [= <- <- <-]. by destruct o.
Qed.

(** The rows that the body of the transaction adds when it commits. *)
Lemma create_aggregate_contents c si fee items w o w' :
  PlaceOrderSerializer.create_aggregate c si fee items w = (Ok o, w') →
  ∃ lines p ev,
    World.db w'
    = DB.mk (DB.customers (World.db w)) (DB.menu_items (World.db w))
        (DB.orders (World.db w) ++ [o])%list
        (DB.order_items (World.db w) ++ lines)%list
        (DB.payments (World.db w) ++ [p])%list
        (DB.events (World.db w) ++ [ev])%list
    ∧ Forall2 (stores_line o) items lines
    ∧ NoDup (map OrderItem.menu_item lines)
    ∧ Order.id o = next_id (map Order.id (DB.orders (World.db w)))
    ∧ Order.customer o = Customer.id c
    ∧ Order.status o = Order.Status.PENDING
    ∧ Order.special_instructions o = si
    ∧ Order.delivery_fee_cents o = fee
    ∧ (Order.order_number o
       ∉ map Order.order_number (DB.orders (World.db w)))
    ∧ Order.subtotal_cents o
      = sum_lines (filter (λ i, OrderItem.order i = Order.id o)
                     (DB.order_items (World.db w) ++ lines)%list)
    ∧ Payment.order p = Order.id o
    ∧ Payment.method p = Payment.Method.CARD
    ∧ Payment.amount_cents p = Order.total_cents o
    ∧ Payment.currency p = "USD"
    ∧ Payment.status p = Payment.Status.INITIATED
    ∧ OrderStatusEvent.order ev = Order.id o
    ∧ OrderStatusEvent.from_status ev = Order.Status.PENDING
    ∧ OrderStatusEvent.to_status ev = Order.Status.PENDING
    ∧ int_round_mul_0_08 (Order.subtotal_cents o) = Ok (Order.tax_cents o)
    ∧ Order.total_cents o
      = Order.subtotal_cents o + Order.tax_cents o
        + Order.delivery_fee_cents o.
Proof.
  unfold PlaceOrderSerializer.create_aggregate. intros H.
  apply bind_Ok_inv in H as (token & w1 & Htoken & H).
  apply bind_Ok_inv in H as (o0 & w2 & Hcreate & H).
  apply bind_Ok_inv in H as ([] & w3 & Hloop & H).
  apply bind_Ok_inv in H as ([o1 u] & w4 & Hrecalc & H).
  apply bind_Ok_inv in H as (o2 & w5 & Hsave & H).
  apply bind_Ok_inv in H as (p & w6 & Hpay & H).
  apply bind_Ok_inv in H as (ev & w7 & Hev & H).
  injection H as <- <-.
  apply get_random_string_db in Htoken as Hdb1.
  pose proof (Order_create_row _ _ _ _ _ _ _ Hcreate) as Hrow.
  rewrite Hdb1 in Hrow.
  apply Order_create_Ok in Hcreate as (Hfresh & Hnum & Hfee & _ & Hdb2).
  rewrite Hdb1 in Hfresh, Hdb2.
  apply for_each_lines_Ok in Hloop as (lines & Hdb3 & Hlines & Hnodup & _).
  pose proof (call_recalculate_totals_fields _ _ _ _ _ Hrecalc)
    as (Hst & Hcust & Hsi & Hsub & Htax & Htotal).
  apply call_recalculate_totals_Ok in Hrecalc
    as (-> & _ & Hid & Hnum1 & Hfee1).
  apply Order_save_Ok in Hsave as ([t ->] & Hdb5).
  pose proof (Payment_create_row _ _ _ _ _ _ _ _ Hpay)
    as (Hpo & Hpm & Hpa & Hpc & Hps).
  apply Payment_create_Ok in Hpay as Hdb6.
  apply Event_create_Ok in Hev as (Hdb7 & Hfrom & Hto & Hevo).
  assert (Hid0 : Order.id o0
                 = next_id (map Order.id (DB.orders (World.db w)))).
  { by rewrite Hrow. }
  exists lines, p, ev.
  rewrite Hdb7, Hdb6, Hdb5, Hdb3, Hdb2. cbn.
  rewrite (save_row_last Order.id o0).
  2:{ rewrite Hid0. apply next_id_fresh. }
  2:{ done. }
  unfold order_lines in Hsub. rewrite Hdb3, Hdb2 in Hsub. cbn in Hsub.
  cbn in Hpo, Hevo. rewrite Hid in *.
  split_and!; try done.
  - clear -Hlines Hid. induction Hlines as [|???? [? ?]]; constructor; [|done].
    split; [|done]. cbn. congruence.
  - by rewrite Hcust, Hrow.
  - by rewrite Hst, Hrow.
  - by rewrite Hsi, Hrow.
  - by rewrite Hfee1.
  - by rewrite Hnum1, Hnum.
Qed.

Lemma to_internal_value_Some d x y :
  OrderItemCreateSerializer.to_internal_value d x = Some y →
  OrderItemCreateSerializer.field_menu_item d
    (OrderItemCreateSerializer.Data.menu_item_id x)
  = Some (OrderItemCreateSerializer.Value.menu_item y)
  ∧ OrderItemCreateSerializer.Value.quantity y
    = OrderItemCreateSerializer.Data.quantity x
  ∧ OrderItemCreateSerializer.Value.unit_price_cents y
    = MenuItem.price_cents (OrderItemCreateSerializer.Value.menu_item y)
  ∧ 1 ≤ OrderItemCreateSerializer.Data.quantity x ≤ 100.
Proof.
  unfold OrderItemCreateSerializer.to_internal_value,
    OrderItemCreateSerializer.field_quantity.
  destruct (OrderItemCreateSerializer.field_menu_item _ _) as [m|]; [|done].
  case_bool_decide; [|done]. by intros [= <-].
Qed.

Lemma field_menu_item_Some d pk m :
  OrderItemCreateSerializer.field_menu_item d pk = Some m →
  m ∈ DB.menu_items d ∧ MenuItem.id m = pk
  ∧ MenuItem.is_active m = true ∧ MenuItem.is_available m = true.
Proof.
  unfold OrderItemCreateSerializer.field_menu_item.
  intros H%head_Some_elem_of%list_elem_of_filter. tauto.
Qed.

Lemma run_validation_Ok d data vd :
  PlaceOrderSerializer.run_validation d data = Ok vd →
  (∃ l, PlaceOrderSerializer.Data.items data = Some l
        ∧ Forall2 (λ x y, OrderItemCreateSerializer.to_internal_value d x
                          = Some y)
            l (PlaceOrderSerializer.Validated.items vd))
  ∧ PlaceOrderSerializer.Validated.special_instructions vd
    = py_strip <$> PlaceOrderSerializer.Data.special_instructions data
  ∧ PlaceOrderSerializer.Validated.delivery_fee_cents vd
    = default 0 (PlaceOrderSerializer.Data.delivery_fee_cents data)
  ∧ 0 ≤ PlaceOrderSerializer.Validated.delivery_fee_cents vd
  ∧ is_Some (PlaceOrderSerializer.Validated.customer vd !! "email")
  ∧ is_Some (PlaceOrderSerializer.Validated.customer vd !! "full_name").
Proof.
  unfold PlaceOrderSerializer.run_validation.
  destruct (PlaceOrderSerializer.field_customer _) as [c|] eqn:Ec.
  2:{ by repeat case_match. }
  destruct (PlaceOrderSerializer.field_items _ _) as [i|] eqn:Ei.
  2:{ by repeat case_match. }
  destruct (PlaceOrderSerializer.field_delivery_fee_cents _) as [f|] eqn:Ef;
    [|done].
  intros [= <-]. cbn. split_and!.
  - unfold PlaceOrderSerializer.field_items in Ei.
    destruct (PlaceOrderSerializer.Data.items data) as [l|]; [|done].
    exists l. split; [done|]. by apply mapM_Some.
  - done.
  - unfold PlaceOrderSerializer.field_delivery_fee_cents in Ef.
    destruct (PlaceOrderSerializer.Data.delivery_fee_cents data) as [n|];
      [|by injection Ef as <-].
    case_bool_decide; [|done]. by injection Ef as <-.
  - unfold PlaceOrderSerializer.field_delivery_fee_cents in Ef.
    destruct (PlaceOrderSerializer.Data.delivery_fee_cents data) as [n|];
      [|by injection Ef as <-].
    case_bool_decide; [|done]. by injection Ef as <-.
  - unfold PlaceOrderSerializer.field_customer in Ec.
    destruct (PlaceOrderSerializer.Data.customer data) as [raw|]; [|done].
    repeat case_match; try done.
    unfold PlaceOrderSerializer.validate_customer in Ec.
    destruct (dict_truthy _ "email") eqn:Et; [|done].
    apply dict_truthy_Some in Et as (v & Hv & _).
    destruct (negb _ || negb _); [done|]. injection Ec as <-. eauto.
  - unfold PlaceOrderSerializer.field_customer in Ec.
    destruct (PlaceOrderSerializer.Data.customer data) as [raw|]; [|done].
    repeat case_match; try done.
    unfold PlaceOrderSerializer.validate_customer in Ec.
    destruct (dict_truthy _ "full_name") eqn:Et;
      [|by rewrite orb_true_r in Ec].
    apply dict_truthy_Some in Et as (v & Hv & _).
    destruct (negb _ || negb _); [done|]. injection Ec as <-. eauto.
Qed.

Lemma merge_customer_email cd c :
  Customer.email (merge_customer cd c) = Customer.email c.
Proof. unfold merge_customer. by repeat case_match. Qed.

Lemma merge_customer_id cd c :
  Customer.id (merge_customer cd c) = Customer.id c.
Proof. unfold merge_customer. by repeat case_match. Qed.

Lemma get_or_create_Ok email n p a w c b w1 :
  Customer_objects.get_or_create email n p a w = (Ok (c, b), w1) →
  c ∈ DB.customers (World.db w1) ∧ Customer.email c = email.
Proof.
  unfold Customer_objects.get_or_create. rewrite bind_run. cbn [query gets].
  destruct (filter _ _) as [|c0 [|??]] eqn:Ef; [| |done].
  - unfold Customer_objects.create. intros H. run_cases H.
    all: split; [|done].
    all: apply elem_of_app; right; by left.
  - intros [= <- <- <-].
    assert (Hin : c0 ∈ filter (λ c, Customer.email c = email)
                         (DB.customers (World.db w))).
    { rewrite Ef. by left. }
    apply list_elem_of_filter in Hin. tauto.
Qed.

(** The customer that [create] goes on with is stored, under the email of
    the request. *)
Lemma create_customer_Ok cd w c w1 :
  PlaceOrderSerializer.create_customer cd w = (Ok c, w1) →
  c ∈ DB.customers (World.db w1) ∧ cd !! "email" = Some (Customer.email c).
Proof.
  rewrite create_customer_run.
  destruct (cd !! "email") as [email|]; [|done].
  destruct (Customer_objects.get_or_create _ _ _ _ _) as [[[c0 b]|e] w0] eqn:Eg;
    [|done].
  apply get_or_create_Ok in Eg as [Hin <-].
  destruct (merge_updated cd c0) eqn:Eu.
  - intros H. apply Customer_save_run in H as [[[e [=]] _]|(t & [= ->] & ->)].
    split; [cbn; apply save_row_elem|].
    cbn [Customer.email Customer.set_updated_at].
    by rewrite merge_customer_email.
  - intros [= <- <-]. rewrite merge_customer_email. split; [|done].
    unfold merge_updated in Eu.
    apply orb_false_elim in Eu as [Eu Ha].
    apply orb_false_elim in Eu as [Hn Hp].
    unfold merge_customer. cbv zeta. rewrite Hn. cbv iota.
    rewrite Hp. cbv iota. by rewrite Ha.
Qed.

(** A placement that returns: its validated data, its customer, and the
    rows it has added. *)
Lemma post_contents data w o w' :
  PlaceOrderView.post data w = (Ok o, w') →
  ∃ vd c w1 lines p ev,
    PlaceOrderSerializer.run_validation (World.db w) data = Ok vd
    ∧ PlaceOrderSerializer.create_customer
        (PlaceOrderSerializer.Validated.customer vd) w = (Ok c, w1)
    ∧ World.db w'
      = DB.mk (DB.customers (World.db w1)) (DB.menu_items (World.db w))
          (DB.orders (World.db w) ++ [o])%list
          (DB.order_items (World.db w) ++ lines)%list
          (DB.payments (World.db w) ++ [p])%list
          (DB.events (World.db w) ++ [ev])%list
    ∧ Forall2 (stores_line o) (PlaceOrderSerializer.Validated.items vd) lines
    ∧ NoDup (map OrderItem.menu_item lines)
    ∧ Order.id o = next_id (map Order.id (DB.orders (World.db w)))
    ∧ Order.customer o = Customer.id c
    ∧ Order.status o = Order.Status.PENDING
    ∧ Order.special_instructions o
      = default "" (PlaceOrderSerializer.Validated.special_instructions vd)
    ∧ Order.delivery_fee_cents o
      = PlaceOrderSerializer.Validated.delivery_fee_cents vd
    ∧ (Order.order_number o
       ∉ map Order.order_number (DB.orders (World.db w)))
    ∧ Order.subtotal_cents o
      = sum_lines (filter (λ i, OrderItem.order i = Order.id o)
                     (DB.order_items (World.db w) ++ lines)%list)
    ∧ Payment.order p = Order.id o
    ∧ Payment.method p = Payment.Method.CARD
    ∧ Payment.amount_cents p = Order.total_cents o
    ∧ Payment.currency p = "USD"
    ∧ Payment.status p = Payment.Status.INITIATED
    ∧ OrderStatusEvent.order ev = Order.id o
    ∧ OrderStatusEvent.from_status ev = Order.Status.PENDING
    ∧ OrderStatusEvent.to_status ev = Order.Status.PENDING
    ∧ int_round_mul_0_08 (Order.subtotal_cents o) = Ok (Order.tax_cents o)
    ∧ Order.total_cents o
      = Order.subtotal_cents o + Order.tax_cents o
        + Order.delivery_fee_cents o.
Proof.
  intros H. apply post_Ok in H as (vd & c & w1 & Hvd & Hc & H).
  apply create_aggregate_contents in H as (lines & p & ev & Hdb & H).
  apply create_customer_keeps_aggregates in Hc as Hagg.
  injection Hagg as Hm Ho Hi Hp He.
  rewrite Hm, Ho, Hi, Hp, He in Hdb. rewrite Ho, Hi in H.
  exists vd, c, w1, lines, p, ev.
  split; [done|]. split; [done|]. split; [done|]. exact H.
Qed.

Lemma stores_line_snapshot d o l items lines :
  Forall2 (λ x y, OrderItemCreateSerializer.to_internal_value d x = Some y)
    l items →
  Forall2 (stores_line o) items lines →
  Forall2 (line_snapshot d o) l lines
  ∧ map OrderItem.menu_item lines
    = map OrderItemCreateSerializer.Data.menu_item_id l
  ∧ sum_lines lines = py_sum (map (quoted_cents d) l).
Proof.
  intros Hv. revert lines.
  induction Hv as [|x y l items Hxy _ IH]; intros lines Hs.
  - apply Forall2_nil_inv_l in Hs as ->. by split_and!; [constructor|..].
  - apply Forall2_cons_inv_l in Hs as (i & lines' & (Ho & Hm & Hq & Hu) & Hs & ->).
    destruct (IH _ Hs) as (IH1 & IH2 & IH3).
    apply to_internal_value_Some in Hxy as (Hf & Hq' & Hu' & Hrange).
    pose proof (field_menu_item_Some _ _ _ Hf) as (Hin & Hid & Hact & Hav).
    split_and!.
    + constructor; [|done]. unfold line_snapshot.
      split_and!; [done|congruence|congruence|lia|lia|].
      exists (OrderItemCreateSerializer.Value.menu_item y).
      split_and!; [done|done|done|done|congruence].
    + cbn. by rewrite IH2, Hm, Hid.
    + cbn [map sum_lines]. unfold py_sum in *. cbn [fold_left].
      rewrite fold_left_add_acc, <- IH3. unfold quoted_cents. rewrite Hf.
      rewrite Hq, Hu, Hq', Hu'. lia.
Qed.

(** ** What a placement stores *)

(** X4. A placement that returns has added exactly one order, the one it
    returns, one payment and one event, and has left the menu alone. The
    order is PENDING, carries the delivery fee of the request (0 when it
    gives none) and its instructions, trimmed (empty when it gives none),
    and belongs to a stored customer with the email of the request,
    trimmed. The payment is for the order and its total, by card, in USD,
    INITIATED; the event is for the order, from PENDING to PENDING. *)
Theorem placement_stores_one_order data w o w' :
  PlaceOrderView.post data w = (Ok o, w') →
  ∃ (c : Customer.t) (p : Payment.t) (ev : OrderStatusEvent.t),
    DB.menu_items (World.db w') = DB.menu_items (World.db w)
    ∧ DB.orders (World.db w') = (DB.orders (World.db w) ++ [o])%list
    ∧ DB.payments (World.db w') = (DB.payments (World.db w) ++ [p])%list
    ∧ DB.events (World.db w') = (DB.events (World.db w) ++ [ev])%list
    ∧ Order.status o = Order.Status.PENDING
    ∧ Order.delivery_fee_cents o
      = default 0 (PlaceOrderSerializer.Data.delivery_fee_cents data)
    ∧ Order.special_instructions o
      = default "" (py_strip
                      <$> PlaceOrderSerializer.Data.special_instructions data)
    ∧ c ∈ DB.customers (World.db w')
    ∧ Order.customer o = Customer.id c
    ∧ (∃ raw email,
         PlaceOrderSerializer.Data.customer data = Some raw
         ∧ raw !! "email" = Some email
         ∧ Customer.email c = py_strip email)
    ∧ Payment.order p = Order.id o
    ∧ Payment.method p = Payment.Method.CARD
    ∧ Payment.amount_cents p = Order.total_cents o
    ∧ Payment.currency p = "USD"
    ∧ Payment.status p = Payment.Status.INITIATED
    ∧ OrderStatusEvent.order ev = Order.id o
    ∧ OrderStatusEvent.from_status ev = Order.Status.PENDING
    ∧ OrderStatusEvent.to_status ev = Order.Status.PENDING.
Proof.
  intros H.
  apply post_contents in H
    as (vd & c & w1 & lines & p & ev & Hvd & Hc & Hdb & _ & _ & _ & Hcust
        & Hst & Hsi & Hfee & _ & _ & Hp).
  pose proof (run_validation_Ok _ _ _ Hvd) as (_ & Hsi' & Hfee' & _).
  apply run_validation_customer in Hvd as (raw & Hraw & Hsup & _).
  apply create_customer_Ok in Hc as (Hin & Hemail).
  exists c, p, ev. rewrite Hdb. cbn.
  split_and!; try done; try tauto.
  - by rewrite Hfee.
  - by rewrite Hsi, Hsi'.
  - rewrite Hsup, lookup_fmap in Hemail.
    destruct (raw !! "email") as [email|] eqn:E; [|done].
    injection Hemail as Hemail. by exists raw, email.
Qed.

Lemma placement_stores_one_order_witness :
  ∃ o w' c p ev,
    PlaceOrderView.post sample_request sample_world = (Ok o, w')
    ∧ DB.orders (World.db w') = [o]
    ∧ DB.payments (World.db w') = [p]
    ∧ DB.events (World.db w') = [ev]
    ∧ c ∈ DB.customers (World.db w')
    ∧ Order.customer o = Customer.id c
    ∧ Payment.amount_cents p = Order.total_cents o.
Proof.
  let r := eval vm_compute in (PlaceOrderView.post sample_request sample_world)
  in lazymatch r with
     | (Ok ?o, ?w') =>
         assert (Hrun : PlaceOrderView.post sample_request sample_world
                        = (Ok o, w')) by (vm_compute; reflexivity);
         destruct (placement_stores_one_order _ _ _ _ Hrun)
           as (c & p & ev & _ & Ho & Hp & He & _ & _ & _ & Hc & Hoc & _ & _
               & _ & Ha & _);
         exists o, w', c, p, ev
     end.
  split_and!; [vm_compute; reflexivity|exact Ho|exact Hp|exact He|exact Hc
              |exact Hoc|exact Ha].
Defined.

(** X5. The line items of a placement that returns are those of the request,
    in its order and appended to the table: each has the menu item and the
    quantity of its line, a quantity from 1 to 100, and as unit price the
    price that this menu item, active and available, had when the request
    was validated. No menu item is on two lines. *)
Theorem placement_lines_snapshot_prices data w o w' :
  PlaceOrderView.post data w = (Ok o, w') →
  ∃ l lines,
    PlaceOrderSerializer.Data.items data = Some l
    ∧ DB.order_items (World.db w')
      = (DB.order_items (World.db w) ++ lines)%list
    ∧ Forall2 (line_snapshot (World.db w) o) l lines
    ∧ NoDup (map OrderItemCreateSerializer.Data.menu_item_id l).
Proof.
  intros H.
  apply post_contents in H
    as (vd & c & w1 & lines & p & ev & Hvd & _ & Hdb & Hlines & Hnodup & _).
  apply run_validation_Ok in Hvd as ((l & Hl & Hv) & _).
  destruct (stores_line_snapshot _ _ _ _ _ Hv Hlines) as (Hsnap & Hids & _).
  exists l, lines. rewrite Hdb, <- Hids. by split_and!.
Qed.

Lemma placement_lines_snapshot_prices_witness :
  ∃ o w' i,
    PlaceOrderView.post sample_request sample_world = (Ok o, w')
    ∧ DB.order_items (World.db w') = [i]
    ∧ line_snapshot (World.db sample_world) o (line 1 3) i.
Proof.
  let r := eval vm_compute in (PlaceOrderView.post sample_request sample_world)
  in lazymatch r with
     | (Ok ?o, ?w') =>
         assert (Hrun : PlaceOrderView.post sample_request sample_world
                        = (Ok o, w')) by (vm_compute; reflexivity);
         destruct (placement_lines_snapshot_prices _ _ _ _ Hrun)
           as (l & lines & Hl & Hdb & Hsnap & _);
         exists o, w'
     end.
  injection Hl as <-.
  apply Forall2_cons_inv_l in Hsnap as (i & lines' & Hi & Hnil & ->).
  apply Forall2_nil_inv_l in Hnil as ->.
  exists i. split_and!; [vm_compute; reflexivity|exact Hdb|exact Hi].
Defined.

Lemma filter_none {A} (P : A → Prop) `{∀ x, Decision (P x)} (l : list A) :
  (∀ x, x ∈ l → ¬ P x) → filter P l = [].
Proof.
  induction l as [|x l IH]; [done|]. intros Hl.
  rewrite filter_cons_False by (apply Hl; by left).
  apply IH. intros y Hy. apply Hl. by right.
Qed.

Lemma filter_all {A} (P : A → Prop) `{∀ x, Decision (P x)} (l : list A) :
  (∀ x, x ∈ l → P x) → filter P l = l.
Proof.
  induction l as [|x l IH]; [done|]. intros Hl.
  rewrite filter_cons_True by (apply Hl; by left).
  f_equal. apply IH. intros y Hy. apply Hl. by right.
Qed.

Lemma filter_fresh_order (o : Order.t) (rows : list Order.t) :
  Order.order_number o ∉ map Order.order_number rows →
  filter (λ x, Order.order_number x = Order.order_number o) (rows ++ [o])%list
  = [o].
Proof.
  intros Hfresh. rewrite filter_app.
  rewrite filter_none; [by rewrite filter_cons_True|].
  intros x Hx Heq. apply Hfresh. rewrite <- Heq.
  by apply (list_elem_of_fmap_2 Order.order_number).
Qed.

(** X6. The order that a placement returns is the one found under its number
    from then on: the lookup by order number, which the detail, status and
    events views start with, returns it. *)
Theorem placed_order_is_found data w o w' :
  PlaceOrderView.post data w = (Ok o, w') →
  Order_objects.get_object_or_404 (Order.order_number o) w' = (Ok o, w').
Proof.
  intros H.
  apply post_contents in H
    as (vd & c & w1 & lines & p & ev & _ & _ & Hdb & _ & _ & _ & _ & _ & _
        & _ & Hfresh & _).
  rewrite get_object_or_404_run, Hdb. cbn [DB.orders].
  by rewrite filter_fresh_order.
Qed.

Lemma placed_order_is_found_witness :
  ∃ o w',
    PlaceOrderView.post sample_request sample_world = (Ok o, w')
    ∧ Order_objects.get_object_or_404 "AAAAAAAAAA" w' = (Ok o, w').
Proof.
  let r := eval vm_compute in (PlaceOrderView.post sample_request sample_world)
  in lazymatch r with
     | (Ok ?o, ?w') =>
         assert (Hrun : PlaceOrderView.post sample_request sample_world
                        = (Ok o, w')) by (vm_compute; reflexivity);
         exists o, w'; split; [exact Hrun|];
         exact (placed_order_is_found _ _ _ _ Hrun)
     end.
Defined.

Lemma filter_new_lines (o : Order.t) (rows : list Order.t)
    (old lines : list OrderItem.t) items :
  Order.id o = next_id (map Order.id rows) →
  (∀ i, i ∈ old → OrderItem.order i ∈ map Order.id rows) →
  Forall2 (stores_line o) items lines →
  filter (λ i, OrderItem.order i = Order.id o) (old ++ lines)%list = lines.
Proof.
  intros Hid Hold Hlines. rewrite filter_app.
  rewrite filter_none.
  2:{ intros i Hi Heq. apply Hold in Hi.
      rewrite Heq, Hid in Hi. by apply next_id_fresh in Hi. }
  cbn [app]. apply filter_all. intros i Hi.
  by apply (stores_line_order _ _ _ _ Hlines).
Qed.

(** X7. In a store whose line items all belong to stored orders, the order
    that a placement returns is charged what its request costs at the
    prices of the menu when the call was made: the subtotal is the sum
    over the lines of the request of quantity times menu price, the tax is
    [int(round(subtotal * 0.08))], the total adds the delivery fee of the
    request, and the line items of the order are exactly the new ones. *)
Theorem placement_charges_menu_prices data w o w' :
  (∀ i, i ∈ DB.order_items (World.db w) →
        OrderItem.order i ∈ map Order.id (DB.orders (World.db w))) →
  PlaceOrderView.post data w = (Ok o, w') →
  ∃ l,
    PlaceOrderSerializer.Data.items data = Some l
    ∧ Order.subtotal_cents o = py_sum (map (quoted_cents (World.db w)) l)
    ∧ int_round_mul_0_08 (Order.subtotal_cents o) = Ok (Order.tax_cents o)
    ∧ Order.total_cents o
      = Order.subtotal_cents o + Order.tax_cents o
        + default 0 (PlaceOrderSerializer.Data.delivery_fee_cents data)
    ∧ DB.order_items (World.db w')
      = (DB.order_items (World.db w) ++ order_lines (World.db w') o)%list.
Proof.
  intros Hrefs H.
  apply post_contents in H
    as (vd & c & w1 & lines & p & ev & Hvd & _ & Hdb & Hlines & _ & Hid & _
        & _ & _ & Hfee & _ & Hsub & _ & _ & _ & _ & _ & _ & _ & _ & Htax
        & Htotal).
  apply run_validation_Ok in Hvd as ((l & Hl & Hv) & _ & Hfee' & _).
  destruct (stores_line_snapshot _ _ _ _ _ Hv Hlines) as (_ & _ & Hsum).
  rewrite (filter_new_lines _ _ _ _ _ Hid Hrefs Hlines) in Hsub.
  exists l. unfold order_lines. rewrite Hdb. cbn [DB.order_items].
  rewrite (filter_new_lines _ _ _ _ _ Hid Hrefs Hlines).
  split_and!; [done|congruence|done|congruence|done].
Qed.

Lemma placement_charges_menu_prices_witness :
  ∃ o w',
    PlaceOrderView.post sample_request sample_world = (Ok o, w')
    ∧ Order.subtotal_cents o = 3 * 1200
    ∧ Order.total_cents o = Order.subtotal_cents o + Order.tax_cents o + 200.
Proof.
  let r := eval vm_compute in (PlaceOrderView.post sample_request sample_world)
  in lazymatch r with
     | (Ok ?o, ?w') =>
         assert (Hrun : PlaceOrderView.post sample_request sample_world
                        = (Ok o, w')) by (vm_compute; reflexivity);
         pose proof (placement_charges_menu_prices sample_request sample_world
                       o w') as H
     end.
  destruct H as (l & Hl & Hsub & _ & Htotal & _).
  { intros i Hi. change (i ∈ @nil OrderItem.t) in Hi.
    destruct (proj1 (elem_of_nil i) Hi). }
  { exact Hrun. }
  injection Hl as <-.
  eexists _, _. split_and!; [exact Hrun| |exact Htotal].
  etrans; [exact Hsub|]. vm_compute. reflexivity.
Defined.

(** ** What validation accepts *)

Lemma field_customer_acceptable v :
  is_Some (PlaceOrderSerializer.field_customer v) ↔ customer_acceptable v.
Proof.
  unfold PlaceOrderSerializer.field_customer, customer_acceptable.
  destruct v as [raw|].
  2:{ split; [by intros [? ?]|by intros (? & ? & _)]. }
  assert (Hblank : map_Forall (λ _ s, s ≠ "") (py_strip <$> raw)
                   ↔ ∀ k s, raw !! k = Some s → py_strip s ≠ "").
  { rewrite map_Forall_fmap. done. }
  split.
  - case_bool_decide as Hempty; [by intros [? ?]|].
    case_bool_decide as Hall; [|by intros [? ?]].
    unfold PlaceOrderSerializer.validate_customer.
    destruct (dict_truthy _ "email") eqn:Ee; [|by intros [? ?]].
    destruct (dict_truthy _ "full_name") eqn:En; [|by intros [? ?]].
    intros _. exists raw. split; [done|]. split; [by apply Hblank|].
    apply dict_truthy_Some in Ee as (v & Hv & _).
    apply dict_truthy_Some in En as (v' & Hv' & _).
    rewrite lookup_fmap in Hv, Hv'.
    split.
    + destruct (raw !! "email"); [eauto|done].
    + destruct (raw !! "full_name"); [eauto|done].
  - intros (raw' & [= <-] & Hall & [e He] & [n Hn]).
    rewrite bool_decide_eq_false_2.
    2:{ intros ->. by rewrite lookup_empty in He. }
    rewrite bool_decide_eq_true_2 by by apply Hblank.
    unfold PlaceOrderSerializer.validate_customer, dict_truthy.
    rewrite !lookup_fmap, He, Hn. cbn.
    rewrite !bool_decide_eq_true_2; [by eexists|by eapply Hall..].
Qed.

Lemma to_internal_value_acceptable d x :
  is_Some (OrderItemCreateSerializer.to_internal_value d x)
  ↔ line_acceptable d x.
Proof.
  unfold line_acceptable. split.
  - intros [y Hy]. apply to_internal_value_Some in Hy as (Hf & _ & _ & Hq).
    apply field_menu_item_Some in Hf as (? & ? & ? & ?). eauto 10.
  - intros (Hq & m & Hin & Hid & Hact & Hav).
    unfold OrderItemCreateSerializer.to_internal_value,
      OrderItemCreateSerializer.field_quantity,
      OrderItemCreateSerializer.field_menu_item.
    rewrite bool_decide_eq_true_2 by done.
    destruct (filter _ _) as [|m' ?] eqn:Ef; [|by eexists].
    exfalso. eapply (filter_nil_not_elem_of _ _ m Ef); [|done]. done.
Qed.

Lemma field_items_acceptable d v :
  is_Some (PlaceOrderSerializer.field_items d v) ↔ items_acceptable d v.
Proof.
  unfold PlaceOrderSerializer.field_items, items_acceptable.
  destruct v as [l|].
  2:{ split; [by intros [? ?]|by intros (? & ? & _)]. }
  rewrite mapM_is_Some. split.
  - intros H. exists l. split; [done|].
    eapply Forall_impl; [exact H|]. intros x Hx.
    by apply to_internal_value_acceptable.
  - intros (l' & [= <-] & H). eapply Forall_impl; [exact H|]. intros x Hx.
    by apply to_internal_value_acceptable.
Qed.

Lemma field_fee_acceptable v :
  is_Some (PlaceOrderSerializer.field_delivery_fee_cents v)
  ↔ fee_acceptable v.
Proof.
  unfold PlaceOrderSerializer.field_delivery_fee_cents, fee_acceptable.
  destruct v as [n|].
  - case_bool_decide; split.
    + by intros _ ? [= <-].
    + by eexists.
    + by intros [? ?].
    + intros Hn. exfalso. by specialize (Hn n eq_refl).
  - split; [by intros _ ? ?|by eexists].
Qed.

Lemma error_of_elem {A} (name k : string) (v : option A) :
  k ∈ PlaceOrderSerializer.error_of name v ↔ k = name ∧ ¬ is_Some v.
Proof.
  destruct v as [a|]; cbn.
  - split; [by intros ?%elem_of_nil|]. intros [_ []]. by eexists.
  - rewrite list_elem_of_singleton. split; [|tauto].
    intros ->. split; [done|]. by intros [? ?].
Qed.

(** X8. Validation accepts a request exactly when its customer, its lines and
    its delivery fee are acceptable, and the placement then goes on with
    the validated data. Otherwise the call raises a validation error that
    names the fields that are not acceptable, these and no others, and the
    world is as before. *)
Theorem validation_names_the_invalid_fields data w :
  let ok_customer :=
    customer_acceptable (PlaceOrderSerializer.Data.customer data) in
  let ok_items :=
    items_acceptable (World.db w) (PlaceOrderSerializer.Data.items data) in
  let ok_fee :=
    fee_acceptable (PlaceOrderSerializer.Data.delivery_fee_cents data) in
  (ok_customer ∧ ok_items ∧ ok_fee →
   ∃ vd, PlaceOrderSerializer.run_validation (World.db w) data = Ok vd
         ∧ PlaceOrderView.post data w = PlaceOrderSerializer.create vd w)
  ∧ (¬ (ok_customer ∧ ok_items ∧ ok_fee) →
     ∃ fields,
       PlaceOrderView.post data w = (Raise (ValidationError fields), w)
       ∧ fields ≠ []
       ∧ ("customer" ∈ fields ↔ ¬ ok_customer)
       ∧ ("items" ∈ fields ↔ ¬ ok_items)
       ∧ ("delivery_fee_cents" ∈ fields ↔ ¬ ok_fee)
       ∧ (∀ k, k ∈ fields →
               k ∈ ["customer"; "items"; "delivery_fee_cents"])).
Proof.
  cbv zeta. rewrite post_run.
  rewrite <- field_customer_acceptable, <- field_items_acceptable,
    <- field_fee_acceptable.
  unfold PlaceOrderSerializer.run_validation.
  set (fc := PlaceOrderSerializer.field_customer _).
  set (fi := PlaceOrderSerializer.field_items _ _).
  set (ff := PlaceOrderSerializer.field_delivery_fee_cents _).
  split.
  - intros ([c ->] & [i ->] & [f ->]). by eexists.
  - intros Hn.
    exists (PlaceOrderSerializer.error_of "customer" fc
            ++ PlaceOrderSerializer.error_of "items" fi
            ++ PlaceOrderSerializer.error_of "delivery_fee_cents" ff)%list.
    split_and!.
    + destruct fc, fi, ff; try reflexivity. exfalso. apply Hn. by split_and!.
    + destruct fc, fi, ff; try discriminate. exfalso. apply Hn. by split_and!.
    + rewrite <- field_customer_acceptable.
      rewrite !elem_of_app, !error_of_elem. split.
      * intros [[_ ?]|[[? _]|[? _]]]; [done|discriminate..].
      * intros ?. by left.
    + rewrite <- field_items_acceptable.
      rewrite !elem_of_app, !error_of_elem. split.
      * intros [[? _]|[[_ ?]|[? _]]]; [discriminate|done|discriminate].
      * intros ?. right. by left.
    + rewrite <- field_fee_acceptable.
      rewrite !elem_of_app, !error_of_elem. split.
      * intros [[? _]|[[? _]|[_ ?]]]; [discriminate..|done].
      * intros ?. right. by right.
    + intros k. rewrite !elem_of_app, !error_of_elem.
      intros [[-> _]|[[-> _]|[-> _]]].
      * by left.
      * right. by left.
      * right. right. by left.
Qed.

Lemma validation_names_the_invalid_fields_witness :
  ∃ fields,
    PlaceOrderView.post
      (PlaceOrderSerializer.Data.mk (Some sample_customer) (Some [line 1 0])
         None None) sample_world
    = (Raise (ValidationError fields), sample_world)
    ∧ ("items" ∈ fields).
Proof.
  destruct (proj2 (validation_names_the_invalid_fields
                     (PlaceOrderSerializer.Data.mk (Some sample_customer)
                        (Some [line 1 0]) None None) sample_world))
    as (fields & Hrun & _ & _ & Hitems & _).
  - intros (_ & (l & [= <-] & Hl) & _).
    apply Forall_cons_1 in Hl as [[Hq _] _]. cbn in Hq. lia.
  - exists fields. split; [exact Hrun|]. apply Hitems.
    intros (l & [= <-] & Hl).
    apply Forall_cons_1 in Hl as [[Hq _] _]. cbn in Hq. lia.
Defined.

(** ** The customer of a placement *)

Lemma merge_updated_same cd (c : Customer.t) :
  (∀ v, cd !! "full_name" = Some v → v = Customer.full_name c) →
  (∀ v, cd !! "phone" = Some v → v = Customer.phone c) →
  (∀ v, cd !! "address" = Some v → v = Customer.default_address c) →
  merge_updated cd c = false ∧ merge_customer cd c = c.
Proof.
  intros Hn Hp Ha.
  assert (E1 : dict_truthy cd "full_name"
               && bool_decide (Customer.full_name c
                               ≠ dict_get cd "full_name" "") = false).
  { destruct (dict_truthy cd "full_name") eqn:E; [|done].
    apply dict_truthy_Some in E as (v & Hv & _ & ->).
    rewrite bool_decide_eq_false_2; [done|]. intros H. apply H.
    symmetry. by apply Hn. }
  assert (E2 : dict_in "phone" cd
               && bool_decide (Customer.phone c ≠ dict_get cd "phone" "")
               = false).
  { destruct (dict_in "phone" cd) eqn:E; [|done].
    apply dict_in_Some in E as (v & Hv & ->).
    rewrite bool_decide_eq_false_2; [done|]. intros H. apply H.
    symmetry. by apply Hp. }
  assert (E3 : dict_in "address" cd
               && bool_decide (Customer.default_address c
                               ≠ dict_get cd "address" "") = false).
  { destruct (dict_in "address" cd) eqn:E; [|done].
    apply dict_in_Some in E as (v & Hv & ->).
    rewrite bool_decide_eq_false_2; [done|]. intros H. apply H.
    symmetry. by apply Ha. }
  unfold merge_updated, merge_customer. cbv zeta.
  rewrite E1. cbv iota. rewrite E2. cbv iota. by rewrite E3.
Qed.

Lemma dict_get_Some (cd : gmap string string) (k v : string) :
  cd !! k = Some v → v = dict_get cd k "".
Proof. unfold dict_get. by intros ->. Qed.

(** The upsert on an email that no stored customer has. *)
Lemma create_customer_fresh cd email w c w1 :
  cd !! "email" = Some email →
  email ∉ map Customer.email (DB.customers (World.db w)) →
  PlaceOrderSerializer.create_customer cd w = (Ok c, w1) →
  c = Customer.mk (next_id (map Customer.id (DB.customers (World.db w))))
        (World.clock w) (World.clock w + 1) true email
        (dict_get cd "full_name" "") (dict_get cd "phone" "")
        (dict_get cd "address" "")
  ∧ World.db w1
    = DB.set_customers (DB.customers (World.db w) ++ [c]) (World.db w).
Proof.
  intros Hemail Hfresh. rewrite create_customer_run, Hemail.
  unfold Customer_objects.get_or_create. rewrite bind_run. cbn [query gets].
  rewrite filter_none.
  2:{ intros x Hx Heq. apply Hfresh. rewrite <- Heq.
      by apply (list_elem_of_fmap_2 Customer.email). }
  rewrite bind_run.
  destruct (Customer_objects.create _ _ _ _ w) as [[c0|e] w0] eqn:Ec; [|done].
  cbn [mret M_ret].
  assert (Hc0 : c0 = Customer.mk
                       (next_id (map Customer.id (DB.customers (World.db w))))
                       (World.clock w) (World.clock w + 1) true email
                       (dict_get cd "full_name" "") (dict_get cd "phone" "")
                       (dict_get cd "address" "")
                ∧ World.db w0
                  = DB.set_customers (DB.customers (World.db w) ++ [c0])
                      (World.db w)).
  { revert Ec. unfold Customer_objects.create. intros H. run_cases H.
    all: done. }
  destruct Hc0 as [Hc0 Hdb].
  destruct (merge_updated_same cd c0) as [-> ->].
  - intros v Hv. rewrite Hc0. by apply dict_get_Some.
  - intros v Hv. rewrite Hc0. by apply dict_get_Some.
  - intros v Hv. rewrite Hc0. by apply dict_get_Some.
  - intros [= <- <-]. by rewrite <- Hc0.
Qed.

(** X9. A placement that returns for an email that no stored customer has
    has added one customer and nothing else to the customer table: a new
    key, active, with the email, full name, phone and address of the
    request, trimmed (phone and address empty when the request has none);
    the order belongs to this customer. *)
Theorem new_customer_is_created data vd w o w' :
  PlaceOrderSerializer.run_validation (World.db w) data = Ok vd →
  (∀ email,
     PlaceOrderSerializer.Validated.customer vd !! "email" = Some email →
     email ∉ map Customer.email (DB.customers (World.db w))) →
  PlaceOrderView.post data w = (Ok o, w') →
  let supplied := PlaceOrderSerializer.Validated.customer vd in
  ∃ c,
    DB.customers (World.db w') = (DB.customers (World.db w) ++ [c])%list
    ∧ Order.customer o = Customer.id c
    ∧ (Customer.id c ∉ map Customer.id (DB.customers (World.db w)))
    ∧ Customer.is_active c = true
    ∧ supplied !! "email" = Some (Customer.email c)
    ∧ supplied !! "full_name" = Some (Customer.full_name c)
    ∧ Customer.phone c = default "" (supplied !! "phone")
    ∧ Customer.default_address c = default "" (supplied !! "address")
    ∧ (∃ raw, PlaceOrderSerializer.Data.customer data = Some raw
              ∧ supplied = py_strip <$> raw).
Proof.
  intros Hvd Hfresh H. cbv zeta.
  apply post_contents in H
    as (vd' & c & w1 & lines & p & ev & Hvd' & Hc & Hdb & _ & _ & _ & Hcust
        & _).
  rewrite Hvd in Hvd'. injection Hvd' as <-.
  pose proof (run_validation_Ok _ _ _ Hvd) as (_ & _ & _ & _ & [e He] & [n Hn]).
  apply run_validation_customer in Hvd as (raw & Hraw & Hsup & _).
  destruct (create_customer_fresh _ _ _ _ _ He (Hfresh _ He) Hc) as [Hrow Hdb1].
  exists c. rewrite Hdb, Hdb1. cbn [DB.customers DB.set_customers].
  split_and!; try done.
  - rewrite Hrow. cbn [Customer.id]. apply next_id_fresh.
  - by rewrite Hrow.
  - by rewrite Hrow.
  - rewrite Hrow. cbn [Customer.full_name]. unfold dict_get. by rewrite Hn.
  - by rewrite Hrow.
  - by rewrite Hrow.
  - by exists raw.
Qed.

Lemma new_customer_is_created_witness :
  ∃ o w' c,
    PlaceOrderView.post sample_request sample_world = (Ok o, w')
    ∧ DB.customers (World.db w') = [c]
    ∧ Order.customer o = Customer.id c
    ∧ sample_customer !! "email" = Some (Customer.email c).
Proof.
  let r := eval vm_compute in (PlaceOrderView.post sample_request sample_world)
  in let v := eval vm_compute in
       (PlaceOrderSerializer.run_validation (World.db sample_world)
          sample_request)
  in lazymatch r with
     | (Ok ?o, ?w') =>
         lazymatch v with
         | Ok ?vd =>
             assert (Hrun : PlaceOrderView.post sample_request sample_world
                            = (Ok o, w')) by (vm_compute; reflexivity);
             assert (Hvd : PlaceOrderSerializer.run_validation
                             (World.db sample_world) sample_request = Ok vd)
               by (vm_compute; reflexivity);
             pose proof (new_customer_is_created sample_request vd
                           sample_world o w' Hvd) as H
         end
     end.
  destruct H as (c & Hc & Ho & _ & _ & He & _).
  { intros email _ Hin. change (email ∈ @nil string) in Hin.
    destruct (proj1 (elem_of_nil email) Hin). }
  { exact Hrun. }
  eexists _, _, c. split_and!; [exact Hrun|exact Hc|exact Ho|].
  etrans; [|exact He]. vm_compute. reflexivity.
Defined.

Lemma create_customer_same cd c w :
  customers_keyed (World.db w) →
  c ∈ DB.customers (World.db w) →
  cd !! "email" = Some (Customer.email c) →
  (∀ v, cd !! "full_name" = Some v → v = Customer.full_name c) →
  (∀ v, cd !! "phone" = Some v → v = Customer.phone c) →
  (∀ v, cd !! "address" = Some v → v = Customer.default_address c) →
  PlaceOrderSerializer.create_customer cd w = (Ok c, w).
Proof.
  intros Hkeyed Hin Hemail Hn Hp Ha.
  destruct (merge_updated_same _ c Hn Hp Ha) as [Hu Hm].
  rewrite create_customer_run, Hemail.
  rewrite get_or_create_existing by done.
  by rewrite Hu, Hm.
Qed.

(** X10. A placement for a stored customer whose request repeats the stored
    full name, and the stored phone and address where it gives them,
    does not write to the customer table at all, whether it returns or
    fails; when it returns, the order belongs to that customer. *)
Theorem known_customer_is_not_rewritten data vd c w r w' :
  customers_keyed (World.db w) →
  PlaceOrderSerializer.run_validation (World.db w) data = Ok vd →
  c ∈ DB.customers (World.db w) →
  let supplied := PlaceOrderSerializer.Validated.customer vd in
  supplied !! "email" = Some (Customer.email c) →
  (∀ v, supplied !! "full_name" = Some v → v = Customer.full_name c) →
  (∀ v, supplied !! "phone" = Some v → v = Customer.phone c) →
  (∀ v, supplied !! "address" = Some v → v = Customer.default_address c) →
  PlaceOrderView.post data w = (r, w') →
  DB.customers (World.db w') = DB.customers (World.db w)
  ∧ (∀ o, r = Ok o → Order.customer o = Customer.id c).
Proof.
  intros Hkeyed Hvd Hin supplied Hemail Hn Hp Ha Hpost.
  pose proof (create_customer_same _ _ _ Hkeyed Hin Hemail Hn Hp Ha) as Hc.
  rewrite post_run, Hvd, create_run in Hpost. fold supplied in Hpost.
  rewrite Hc in Hpost. split.
  - eapply (keeps_transaction_atomic (λ w, DB.customers (World.db w)));
      [| |exact Hpost].
    + intros ?? ?. reflexivity.
    + apply create_aggregate_keeps_customers.
  - intros o ->. apply transaction_atomic_Ok in Hpost.
    by apply create_aggregate_contents in Hpost
      as (? & ? & ? & _ & _ & _ & _ & ? & _).
Qed.

Lemma known_customer_is_not_rewritten_witness :
  let w := placed_world 10 [] in
  let w' := snd (PlaceOrderView.post sample_request w) in
  DB.customers (World.db w') = DB.customers (World.db w).
Proof.
  cbv zeta.
  let v := eval vm_compute in
       (PlaceOrderSerializer.run_validation (World.db (placed_world 10 []))
          sample_request)
  in lazymatch v with
     | Ok ?vd =>
         assert (Hvd : PlaceOrderSerializer.run_validation
                         (World.db (placed_world 10 [])) sample_request
                       = Ok vd) by (vm_compute; reflexivity);
         pose proof (known_customer_is_not_rewritten sample_request vd
                       (Customer.mk 1 1000 1001 true "ann@example.org"
                          "Ann Lee" "" "")
                       (placed_world 10 [])
                       (fst (PlaceOrderView.post sample_request
                               (placed_world 10 [])))
                       (snd (PlaceOrderView.post sample_request
                               (placed_world 10 [])))) as H
     end.
  apply H; clear H.
  - split; apply (bool_decide_unpack _); vm_compute; exact I.
  - exact Hvd.
  - constructor.
  - vm_compute. reflexivity.
  - intros v Hv. vm_compute in Hv. by injection Hv as <-.
  - intros v Hv. vm_compute in Hv. discriminate.
  - intros v Hv. vm_compute in Hv. discriminate.
  - by destruct (PlaceOrderView.post _ _).
Defined.

(** ** What the views can raise *)

Lemma raises_ret {A} es (a : A) : raises_only es (mret a).
Proof. by intros w e w' [=]. Qed.

Lemma raises_raise {A} es (e : exn) : e ∈ es → raises_only es (@raise _ A e).
Proof. by intros He w e' w' [= <- <-]. Qed.

Lemma raises_bind {A B} es (m : M World.t A) (k : A → M World.t B) :
  raises_only es m → (∀ a, raises_only es (k a)) → raises_only es (m ≫= k).
Proof.
  intros Hm Hk w e w' H.
  apply bind_Raise_inv in H as [H|(a & w1 & _ & H)]; [by eapply Hm|by eapply Hk].
Qed.

Lemma raises_for_each {A} es (xs : list A) (body : A → M World.t unit) :
  (∀ x, raises_only es (body x)) → raises_only es (for_each xs body).
Proof.
  intros Hbody. induction xs as [|x xs IH]; [apply raises_ret|].
  apply raises_bind; [apply Hbody|]. by intros _.
Qed.

Lemma raises_transaction_atomic {A} es (body : M World.t A) :
  raises_only es body → raises_only es (transaction_atomic body).
Proof.
  intros Hb w e w'. unfold transaction_atomic.
  destruct (body w) as [[a|e'] w1] eqn:E; [done|].
  intros [= <- <-]. by eapply Hb.
Qed.

Lemma raises_timezone_now es : raises_only es timezone_now.
Proof. by intros w e w' [=]. Qed.

Lemma raises_query {A} es (g : DB.t → A) : raises_only es (query g).
Proof. by intros w e w' [=]. Qed.

Lemma raises_write es (g : DB.t → DB.t) : raises_only es (write g).
Proof. by intros w e w' [=]. Qed.

Lemma raises_execute es : OperationalError ∈ es → raises_only es execute.
Proof.
  intros He w e w'. unfold execute.
  destruct (World.faults w) as [|[] ?]; [done| |done]. by intros [= <- <-].
Qed.

Lemma raises_random_chars es (n : nat) : raises_only es (random_chars n).
Proof.
  intros w e w'. destruct (random_chars_run n w) as (cs & -> & _). done.
Qed.

Lemma int_round_mul_0_08_Raise (n : Z) (e : exn) :
  int_round_mul_0_08 n = Raise e → e = OverflowError ∨ e = ValueError.
Proof.
  unfold int_round_mul_0_08, Float.of_int, Float.round.
  repeat case_match; intros [= <-]; simplify_eq; auto.
Qed.

Lemma raises_call_recalculate_totals es (o : Order.t) :
  OverflowError ∈ es → ValueError ∈ es →
  raises_only es (call o recalculate_totals).
Proof.
  intros H1 H2 w e w'. unfold call. rewrite recalculate_totals_run. cbv zeta.
  destruct (int_round_mul_0_08 _) as [t|e'] eqn:E; [done|].
  intros [= <- <-]. by apply int_round_mul_0_08_Raise in E as [->| ->].
Qed.

Ltac raises_tac :=
  repeat first
    [ apply raises_ret | apply raises_query | apply raises_write
    | apply raises_timezone_now | apply raises_random_chars
    | apply raises_raise; solve [repeat constructor]
    | apply raises_execute; solve [repeat constructor]
    | apply raises_call_recalculate_totals; solve [repeat constructor]
    | apply raises_transaction_atomic
    | apply raises_bind; [|intros ?]
    | apply raises_for_each; intros ?
    | match goal with
      | |- raises_only _ (match ?x with _ => _ end) => destruct x
      end ].

Lemma create_aggregate_raises c si fee items :
  raises_only [IntegrityError; OperationalError; OverflowError; ValueError]
    (PlaceOrderSerializer.create_aggregate c si fee items).
Proof. unfold PlaceOrderSerializer.create_aggregate. unfold_orm. raises_tac. Qed.

Lemma get_or_create_raises email n p a :
  raises_only [MultipleObjectsReturned; IntegrityError; OperationalError]
    (Customer_objects.get_or_create email n p a).
Proof. unfold_orm. raises_tac. Qed.

Lemma Customer_save_raises c :
  raises_only [MultipleObjectsReturned; IntegrityError; OperationalError]
    (Customer_save c).
Proof. unfold_orm. raises_tac. Qed.

(** X11. A placement raises nothing but a validation error, which leaves the
    world as it was, the error of a lookup that finds several customers
    under one email, the integrity and operational errors of the
    database, and the errors of the float arithmetic of the tax. In
    particular the lookup of the email in the validated customer never
    fails. *)
Theorem placement_raises_only data w e w' :
  PlaceOrderView.post data w = (Raise e, w') →
  (∃ fields, e = ValidationError fields ∧ w' = w)
  ∨ e ∈ [MultipleObjectsReturned; IntegrityError; OperationalError;
         OverflowError; ValueError].
Proof.
  rewrite post_run.
  destruct (PlaceOrderSerializer.run_validation _ _) as [vd|e0] eqn:Ev.
  2:{ intros [= <- <-]. left.
      apply run_validation_Raise in Ev as [fields ->]. eauto. }
  intros H. right. rewrite create_run in H.
  apply run_validation_Ok in Ev as (_ & _ & _ & _ & [email Hemail] & _).
  destruct (PlaceOrderSerializer.create_customer _ _) as [[c|e1] w1] eqn:Ec.
  - apply (raises_transaction_atomic _ _ (create_aggregate_raises _ _ _ _))
      in H.
    clear -H. rewrite !elem_of_cons in *. tauto.
  - injection H as <- <-. rewrite create_customer_run, Hemail in Ec.
    destruct (Customer_objects.get_or_create _ _ _ _ _)
      as [[[c0 b]|e2] w2] eqn:Eg.
    + destruct (merge_updated _ _); [|done].
      apply Customer_save_raises in Ec. rewrite !elem_of_cons in *. tauto.
    + injection Ec as <- <-. apply get_or_create_raises in Eg.
      rewrite !elem_of_cons in *. tauto.
Qed.

Lemma placement_raises_only_witness :
  (∃ fields,
     fst (PlaceOrderView.post repeated_item_request sample_world)
     = Raise (ValidationError fields)
     ∧ snd (PlaceOrderView.post repeated_item_request sample_world)
       = sample_world)
  ∨ fst (PlaceOrderView.post repeated_item_request sample_world)
    ∈ map Raise [MultipleObjectsReturned; IntegrityError; OperationalError;
                 OverflowError; ValueError].
Proof.
  let r := eval vm_compute in
             (PlaceOrderView.post repeated_item_request sample_world)
  in lazymatch r with
     | (Raise ?e, ?w') =>
         assert (Hrun : PlaceOrderView.post repeated_item_request sample_world
                        = (Raise e, w')) by (vm_compute; reflexivity);
         destruct (placement_raises_only _ _ _ _ Hrun)
           as [(fields & He & Hw)|Hin]
     end.
  - left. exists fields. rewrite Hrun. cbn [fst snd]. split; [by f_equal|exact Hw].
  - right. rewrite Hrun. cbn [fst]. by apply (list_elem_of_fmap_2 Raise).
Defined.

(** X12. A status update raises nothing but 404 for an unknown number, the
    error of a lookup that finds several orders under one number, a
    validation error on [status], and the operational error of the
    database. The guard of [mark_status] never fires, since the status has
    been validated, and the update of the order always reaches its row. *)
Theorem transition_raises_only number data w e w' :
  OrderStatusUpdateView.patch number data w = (Raise e, w') →
  e ∈ [Http404; MultipleObjectsReturned; ValidationError ["status"];
       OperationalError].
Proof.
  unfold OrderStatusUpdateView.patch. rewrite bind_run, get_object_or_404_run.
  destruct (filter _ _) as [|o [|??]] eqn:Ef.
  1:{ intros [= <- <-]. repeat constructor. }
  2:{ intros [= <- <-]. repeat constructor. }
  assert (Hin : Order.id o ∈ map Order.id (DB.orders (World.db w))).
  { assert (Ho : o ∈ filter (λ x, Order.order_number x = number)
                         (DB.orders (World.db w))) by (rewrite Ef; by left).
    apply list_elem_of_filter in Ho as [_ Ho].
    by apply (list_elem_of_fmap_2 Order.id). }
  rewrite bind_run.
  unfold UpdateOrderStatusSerializer.is_valid,
    UpdateOrderStatusSerializer.run_validation, lift_result.
  destruct data as [s|]; [|intros [= <- <-]; repeat constructor].
  case_bool_decide as Hs; [|intros [= <- <-]; repeat constructor].
  unfold UpdateOrderStatusSerializer.update.
  case_bool_decide; [done|].
  unfold mark_status. rewrite bool_decide_eq_true_2 by done.
  unfold Order_save_status, OrderStatusEvent_objects.create.
  destruct w as [d c rg p fs]. cbn [World.db] in Hin.
  assert (Hb : bool_decide (Order.id o ∈ map Order.id (DB.orders d)) = true)
    by by apply bool_decide_eq_true_2.
  destruct fs as [|[] fs]; unfold_ops; cbn; rewrite ?Hb; cbn.
  all: intros Hrun; repeat case_match; simplify_eq/=; repeat constructor.
Qed.

Lemma transition_raises_only_witness :
  fst (OrderStatusUpdateView.patch "AAAAAAAAAA" (Some "CONFIRMED")
         (placed_world 0 [true]))
  ∈ map Raise [Http404; MultipleObjectsReturned; ValidationError ["status"];
               OperationalError].
Proof.
  let r := eval vm_compute in
             (OrderStatusUpdateView.patch "AAAAAAAAAA" (Some "CONFIRMED")
                (placed_world 0 [true]))
  in lazymatch r with
     | (Raise ?e, ?w') =>
         assert (Hrun : OrderStatusUpdateView.patch "AAAAAAAAAA"
                          (Some "CONFIRMED") (placed_world 0 [true])
                        = (Raise e, w')) by (vm_compute; reflexivity);
         pose proof (transition_raises_only _ _ _ _ _ Hrun) as Hin
     end.
  rewrite Hrun. cbn [fst]. by apply (list_elem_of_fmap_2 Raise).
Defined.

(** ** Foreign keys *)

Lemma save_row_ids {A} (pk : A → Z) (r : A) (rows : list A) (x : Z) :
  x ∈ map pk rows → x ∈ map pk (save_row pk r rows).
Proof.
  unfold save_row. case_bool_decide as Hin.
  - intros (y & -> & Hy)%list_elem_of_fmap. rewrite map_map.
    apply list_elem_of_fmap. exists y. split; [|done].
    by case_bool_decide.
  - intros Hx. rewrite map_app. apply elem_of_app. by left.
Qed.

Lemma get_or_create_ids email n p a w r w1 (x : Z) :
  Customer_objects.get_or_create email n p a w = (r, w1) →
  x ∈ map Customer.id (DB.customers (World.db w)) →
  x ∈ map Customer.id (DB.customers (World.db w1)).
Proof.
  unfold Customer_objects.get_or_create. rewrite bind_run. cbn [query gets].
  destruct (filter _ _) as [|c0 [|??]]; [|by intros [= <- <-]..].
  unfold Customer_objects.create. intros H Hx. run_cases H; try done.
  all: rewrite map_app; apply elem_of_app; by left.
Qed.

Lemma create_customer_ids cd w r w1 (x : Z) :
  PlaceOrderSerializer.create_customer cd w = (r, w1) →
  x ∈ map Customer.id (DB.customers (World.db w)) →
  x ∈ map Customer.id (DB.customers (World.db w1)).
Proof.
  rewrite create_customer_run.
  destruct (cd !! "email") as [email|]; [|by intros [= <- <-]].
  destruct (Customer_objects.get_or_create _ _ _ _ _) as [[[c b]|e] w0] eqn:Eg.
  - intros H Hx. apply (get_or_create_ids _ _ _ _ _ _ _ x Eg) in Hx.
    destruct (merge_updated cd c).
    + apply Customer_save_run in H as [[_ Hdb]|(t & _ & Hdb)]; rewrite Hdb.
      * done.
      * cbn [DB.customers DB.set_customers]. by apply save_row_ids.
    + by injection H as <- <-.
  - intros [= <- <-]. by apply (get_or_create_ids _ _ _ _ _ _ _ x Eg).
Qed.

(** What a placement does to the rows, however it ends: the customer
    table keeps its keys, and the other tables are as before or have the
    rows of one new order. *)
Lemma post_footprint data w r w' :
  PlaceOrderView.post data w = (r, w') →
  (∀ x, x ∈ map Customer.id (DB.customers (World.db w)) →
        x ∈ map Customer.id (DB.customers (World.db w')))
  ∧ (aggregate_rows (World.db w') = aggregate_rows (World.db w)
     ∨ ∃ o c lines p ev,
         r = Ok o
         ∧ World.db w'
           = DB.mk (DB.customers (World.db w')) (DB.menu_items (World.db w))
               (DB.orders (World.db w) ++ [o])%list
               (DB.order_items (World.db w) ++ lines)%list
               (DB.payments (World.db w) ++ [p])%list
               (DB.events (World.db w) ++ [ev])%list
         ∧ c ∈ DB.customers (World.db w')
         ∧ Order.customer o = Customer.id c
         ∧ (∀ i, i ∈ lines → OrderItem.order i = Order.id o)
         ∧ Payment.order p = Order.id o
         ∧ OrderStatusEvent.order ev = Order.id o).
Proof.
  intros H. destruct r as [o|e].
  - apply post_contents in H
      as (vd & c & w1 & lines & p & ev & _ & Hc & Hdb & Hlines & _ & _ & Hcust
          & _ & _ & _ & _ & _ & Hp & _ & _ & _ & _ & Hev & _).
    assert (Hcs : DB.customers (World.db w') = DB.customers (World.db w1))
      by by rewrite Hdb.
    split.
    + intros x Hx. rewrite Hcs. by eapply create_customer_ids.
    + right. exists o, c, lines, p, ev. rewrite Hcs.
      apply create_customer_Ok in Hc as [Hin _].
      split_and!; try done.
      intros i Hi. by eapply stores_line_order.
  - rewrite post_run in H.
    destruct (PlaceOrderSerializer.run_validation _ _) as [vd|e0] eqn:Ev.
    2:{ injection H as <- <-. split; [done|by left]. }
    rewrite create_run in H.
    destruct (PlaceOrderSerializer.create_customer _ _) as [[c|e1] w1] eqn:Ec.
    + pose proof (transaction_atomic_Raise _ _ _ _ H) as Hdb. rewrite Hdb.
      split; [intros x Hx; by eapply create_customer_ids|].
      left. by apply create_customer_keeps_aggregates in Ec.
    + injection H as <- <-.
      split; [intros x Hx; by eapply create_customer_ids|].
      left. by apply create_customer_keeps_aggregates in Ec.
Qed.

(** X13. The foreign keys hold after a placement and after a status update
    when they held before, however the call ends: every order still
    belongs to a stored customer, and every line item, payment and event
    to a stored order. *)
Theorem references_resolve_preserved (w : World.t) :
  references_resolve (World.db w) →
  (∀ data r w',
     PlaceOrderView.post data w = (r, w') →
     references_resolve (World.db w'))
  ∧ (∀ number data r w',
       OrderStatusUpdateView.patch number data w = (r, w') →
       references_resolve (World.db w')).
Proof.
  intros (Hcust & Hitems & Hpays & Hevents). split.
  - intros data r w' H.
    apply post_footprint in H as [Hids [Hsame|Hnew]].
    + injection Hsame as _ Ho Hi Hp He. unfold references_resolve.
      rewrite Ho, Hi, Hp, He. split_and!; try done.
      intros o Hin. by apply Hids, Hcust.
    + destruct Hnew as (o & c & lines & p & ev & _ & Hdb & Hc & Hoc & Hl & Hp
                        & Hev).
      assert (Hnew : Order.id o
                     ∈ map Order.id (DB.orders (World.db w) ++ [o])).
      { rewrite map_app. apply elem_of_app. right. by left. }
      assert (Hold : ∀ x, x ∈ map Order.id (DB.orders (World.db w)) →
                          x ∈ map Order.id (DB.orders (World.db w) ++ [o])).
      { intros x Hx. rewrite map_app. apply elem_of_app. by left. }
      unfold references_resolve. rewrite Hdb.
      cbn [DB.customers DB.orders DB.order_items DB.payments DB.events].
      split_and!.
      * intros x [Hx| ->%list_elem_of_singleton]%elem_of_app.
        -- by apply Hids, Hcust.
        -- rewrite Hoc. by apply (list_elem_of_fmap_2 Customer.id).
      * intros x [Hx|Hx]%elem_of_app; [by apply Hold, Hitems|].
        by rewrite (Hl x Hx).
      * intros x [Hx| ->%list_elem_of_singleton]%elem_of_app;
          [by apply Hold, Hpays|by rewrite Hp].
      * intros x [Hx| ->%list_elem_of_singleton]%elem_of_app;
          [by apply Hold, Hevents|by rewrite Hev].
  - intros number data r w' H.
    apply patch_footprint in H
      as (Hc & _ & Hi & Hp & (b & s & t & Ho) & He).
    assert (Hids : map Order.id (DB.orders (World.db w'))
                   = map Order.id (DB.orders (World.db w))).
    { rewrite Ho, map_map. apply map_ext. intros x. by destruct (b x). }
    unfold references_resolve. rewrite Hids, Hc, Hi, Hp. split_and!; try done.
    + intros x Hx. rewrite Ho in Hx.
      apply list_elem_of_fmap in Hx as (y & -> & Hy).
      specialize (Hcust y Hy). by destruct (b y).
    + intros x Hx. destruct He as [He|(ev & He & Hev)]; rewrite He in Hx.
      * by apply Hevents.
      * apply elem_of_app in Hx as [Hx| ->%list_elem_of_singleton];
          [by apply Hevents|done].
Qed.

Lemma references_resolve_preserved_witness :
  references_resolve
    (World.db (snd (PlaceOrderView.post sample_request sample_world)))
  ∧ references_resolve
      (World.db (snd (OrderStatusUpdateView.patch "AAAAAAAAAA"
                        (Some "CONFIRMED") (placed_world 0 [false; true])))).
Proof.
  split.
  - eapply (proj1 (references_resolve_preserved sample_world _)
              sample_request
              (fst (PlaceOrderView.post sample_request sample_world))).
    by destruct (PlaceOrderView.post _ _).
  - eapply (proj2 (references_resolve_preserved
                     (placed_world 0 [false; true]) _)
              "AAAAAAAAAA" (Some "CONFIRMED")
              (fst (OrderStatusUpdateView.patch "AAAAAAAAAA"
                      (Some "CONFIRMED") (placed_world 0 [false; true])))).
    by destruct (OrderStatusUpdateView.patch _ _ _).
  Unshelve.
  + split_and!; intros x Hx; change (x ∈ @nil _) in Hx;
      destruct (proj1 (elem_of_nil x) Hx).
  + split_and!; intros x Hx; apply list_elem_of_singleton in Hx; subst x;
      apply (bool_decide_unpack _); vm_compute; exact I.
Defined.

(** ** The events of an order *)

#[local] Instance later_transitive : Transitive OrderEventsView.later.
Proof. intros a b c. unfold OrderEventsView.later. lia. Qed.

#[local] Instance later_total : Total OrderEventsView.later.
Proof. intros a b. unfold OrderEventsView.later. lia. Qed.

Lemma events_list_run (number : string) (w : World.t) :
  OrderEventsView.list number w
  = match filter (λ o, Order.order_number o = number)
            (DB.orders (World.db w)) with
    | [o] =>
        (Ok (OrderEventsView.Response_200
               (map OrderEventsView.entry
                  (merge_sort OrderEventsView.later
                     (filter (λ e, OrderStatusEvent.order e = Order.id o)
                        (DB.events (World.db w)))))), w)
    | [] => (Ok OrderEventsView.Response_404, w)
    | _ => (Raise MultipleObjectsReturned, w)
    end.
Proof.
  unfold OrderEventsView.list. rewrite bind_run. cbn [query gets].
  by repeat case_match.
Qed.

(** X14. The events view reads and writes nothing. An unknown order number
    gives 404. For a stored order the payload has one entry for each
    event of that order and for no other event, latest first. *)
Theorem events_are_listed_latest_first number w :
  (filter (λ x, Order.order_number x = number) (DB.orders (World.db w)) = [] →
   OrderEventsView.list number w = (Ok OrderEventsView.Response_404, w))
  ∧ (∀ o,
       filter (λ x, Order.order_number x = number) (DB.orders (World.db w))
       = [o] →
       ∃ payload,
         OrderEventsView.list number w
         = (Ok (OrderEventsView.Response_200 payload), w)
         ∧ payload
           ≡ₚ map OrderEventsView.entry
                (filter (λ e, OrderStatusEvent.order e = Order.id o)
                   (DB.events (World.db w)))
         ∧ StronglySorted entry_later payload).
Proof.
  split.
  - intros Hnone. by rewrite events_list_run, Hnone.
  - intros o Hone. rewrite events_list_run, Hone. eexists. split; [done|].
    split.
    + apply fmap_Permutation, merge_sort_Permutation.
    + apply (StronglySorted_fmap _ OrderEventsView.later); [done|].
      apply (StronglySorted_merge_sort _).
Qed.

Lemma events_are_listed_latest_first_witness :
  OrderEventsView.list "ZZZZZZZZZZ" (placed_world 0 [])
  = (Ok OrderEventsView.Response_404, placed_world 0 [])
  ∧ ∃ payload,
      OrderEventsView.list "AAAAAAAAAA" (placed_world 0 [])
      = (Ok (OrderEventsView.Response_200 payload), placed_world 0 [])
      ∧ StronglySorted entry_later payload.
Proof.
  split.
  - apply (proj1 (events_are_listed_latest_first "ZZZZZZZZZZ"
                    (placed_world 0 []))).
    vm_compute. reflexivity.
  - destruct (proj2 (events_are_listed_latest_first "AAAAAAAAAA"
                       (placed_world 0 [])) sample_order)
      as (payload & Hrun & _ & Hsorted).
    + vm_compute. reflexivity.
    + exists payload. split; [exact Hrun|exact Hsorted].
Defined.





(** X16. The events view of an order that has just been placed, in a store
    whose events all belong to stored orders: one entry, from PENDING to
    PENDING. *)
Theorem placed_order_lists_its_first_event data w o w' :
  (∀ e, e ∈ DB.events (World.db w) →
        OrderStatusEvent.order e ∈ map Order.id (DB.orders (World.db w))) →
  PlaceOrderView.post data w = (Ok o, w') →
  ∃ t, OrderEventsView.list (Order.order_number o) w'
       = (Ok (OrderEventsView.Response_200
                [OrderEventsView.Entry.mk Order.Status.PENDING
                   Order.Status.PENDING t]), w').
Proof.
  intros Hrefs H.
  apply post_contents in H
    as (vd & c & w1 & lines & p & ev & _ & _ & Hdb & _ & _ & Hid & _ & _ & _
        & _ & Hfresh & _ & _ & _ & _ & _ & _ & Hevo & Hfrom & Hto & _).
  exists (OrderStatusEvent.at_ ev).
  rewrite events_list_run, Hdb. cbn [DB.orders DB.events].
  rewrite filter_fresh_order by done.
  rewrite filter_app, filter_none.
  2:{ intros e He Heq. apply Hrefs in He. rewrite Heq, Hid in He.
      by apply next_id_fresh in He. }
  rewrite filter_cons_True by done. rewrite filter_nil. cbn [app].
  unfold OrderEventsView.entry. cbn. by rewrite Hfrom, Hto.
Qed.

Lemma placed_order_lists_its_first_event_witness :
  ∃ o w' t,
    PlaceOrderView.post sample_request sample_world = (Ok o, w')
    ∧ OrderEventsView.list (Order.order_number o) w'
      = (Ok (OrderEventsView.Response_200
               [OrderEventsView.Entry.mk "PENDING" "PENDING" t]), w').
Proof.
  let r := eval vm_compute in (PlaceOrderView.post sample_request sample_world)
  in lazymatch r with
     | (Ok ?o, ?w') =>
         assert (Hrun : PlaceOrderView.post sample_request sample_world
                        = (Ok o, w')) by (vm_compute; reflexivity);
         pose proof (placed_order_lists_its_first_event sample_request
                       sample_world o w') as H
     end.
  destruct H as (t & Ht).
  { intros e He. change (e ∈ @nil OrderStatusEvent.t) in He.
    destruct (proj1 (elem_of_nil e) He). }
  { exact Hrun. }
  eexists _, _, t. split; [exact Hrun|exact Ht].
Defined.

(** ** Requests that are placed *)

Lemma quiet_tail (b : bool) (fs : list bool) :
  true ∉ false :: fs → true ∉ fs.
Proof. intros H Hin. apply H. by right. Qed.

Ltac quiet_cases w Hq :=
  let d := fresh "d" in let c := fresh "c" in let rg := fresh "rg" in
  let p := fresh "p" in let fs := fresh "fs" in
  destruct w as [d c rg p fs]; unfold quiet in *; cbn [World.faults] in Hq;
  destruct fs as [|[] fs];
  [|exfalso; apply Hq; by left|apply (quiet_tail false) in Hq].

Lemma Customer_create_quiet email n p a w :
  quiet w → email ∉ map Customer.email (DB.customers (World.db w)) →
  ∃ c w', Customer_objects.create email n p a w = (Ok c, w') ∧ quiet w'.
Proof.
  intros Hq Hfresh. unfold Customer_objects.create.
  quiet_cases w Hq; cbn in Hfresh; unfold_ops; cbn;
    rewrite bool_decide_eq_false_2 by done; by eexists _, _.
Qed.

Lemma Customer_save_quiet c w :
  quiet w → ∃ c' w', Customer_save c w = (Ok c', w') ∧ quiet w'.
Proof.
  intros Hq. unfold Customer_save.
  quiet_cases w Hq; unfold_ops; cbn; by eexists _, _.
Qed.

Lemma Order_create_quiet num c si fee w :
  quiet w → num ∉ map Order.order_number (DB.orders (World.db w)) →
  ∃ o w', Order_objects.create num c si fee w = (Ok o, w') ∧ quiet w'.
Proof.
  intros Hq Hfresh. unfold Order_objects.create.
  quiet_cases w Hq; cbn in Hfresh; unfold_ops; cbn;
    rewrite bool_decide_eq_false_2 by done; by eexists _, _.
Qed.

Lemma OrderItem_create_quiet o m q u w :
  quiet w →
  (Order.id o, MenuItem.id m) ∉ map line_key (DB.order_items (World.db w)) →
  ∃ i w', OrderItem_objects.create o m q u w = (Ok i, w') ∧ quiet w'.
Proof.
  intros Hq Hfresh. unfold OrderItem_objects.create.
  quiet_cases w Hq; cbn in Hfresh; unfold_ops; cbn;
    rewrite bool_decide_eq_false_2 by done; by eexists _, _.
Qed.

Lemma Order_save_quiet o w :
  quiet w → ∃ o' w', Order_save o w = (Ok o', w') ∧ quiet w'.
Proof.
  intros Hq. unfold Order_save.
  quiet_cases w Hq; unfold_ops; cbn; by eexists _, _.
Qed.

Lemma Payment_create_quiet o m a c s w :
  quiet w → Order.id o ∉ map Payment.order (DB.payments (World.db w)) →
  ∃ p w', Payment_objects.create o m a c s w = (Ok p, w') ∧ quiet w'.
Proof.
  intros Hq Hfresh. unfold Payment_objects.create.
  quiet_cases w Hq; cbn in Hfresh; unfold_ops; cbn;
    rewrite bool_decide_eq_false_2 by done; by eexists _, _.
Qed.

Lemma Event_create_quiet o f t w :
  quiet w → ∃ ev w', OrderStatusEvent_objects.create o f t w = (Ok ev, w').
Proof.
  intros Hq. unfold OrderStatusEvent_objects.create.
  quiet_cases w Hq; unfold_ops; cbn; by eexists _, _.
Qed.

Lemma for_each_lines_quiet o items w :
  quiet w →
  NoDup (map (λ item, MenuItem.id
                        (OrderItemCreateSerializer.Value.menu_item item))
           items) →
  (∀ item, item ∈ items →
     (Order.id o,
      MenuItem.id (OrderItemCreateSerializer.Value.menu_item item))
     ∉ map line_key (DB.order_items (World.db w))) →
  ∃ w',
    for_each items (λ item,
      OrderItem_objects.create o
        (OrderItemCreateSerializer.Value.menu_item item)
        (OrderItemCreateSerializer.Value.quantity item)
        (OrderItemCreateSerializer.Value.unit_price_cents item);;
      mret tt) w = (Ok tt, w')
    ∧ quiet w'.
Proof.
  revert w. induction items as [|item items IH]; intros w Hq Hnodup Hfresh.
  { by exists w. }
  apply NoDup_cons in Hnodup as [Hitem Hnodup].
  destruct (OrderItem_create_quiet o
              (OrderItemCreateSerializer.Value.menu_item item)
              (OrderItemCreateSerializer.Value.quantity item)
              (OrderItemCreateSerializer.Value.unit_price_cents item) w Hq)
    as (i & w1 & Hi & Hq1).
  { apply Hfresh. by left. }
  pose proof (OrderItem_create_Ok _ _ _ _ _ _ _ Hi)
    as (_ & Ho & Hm & _ & _ & Hdb).
  destruct (IH w1 Hq1 Hnodup) as (w' & Hrest & Hq').
  { intros item' Hin. rewrite Hdb. cbn [DB.order_items DB.set_order_items].
    rewrite map_app. intros [Hold|Hnew%list_elem_of_singleton]%elem_of_app.
    - apply (Hfresh item'); [by right|done].
    - apply Hitem. unfold line_key in Hnew. rewrite Ho, Hm in Hnew.
      injection Hnew as Hnew. rewrite <- Hnew.
      by apply (list_elem_of_fmap_2
                  (λ item, MenuItem.id
                             (OrderItemCreateSerializer.Value.menu_item item))). }
  exists w'. split; [|done].
  cbn [for_each]. rewrite bind_run, bind_run, Hi. cbn [mret M_ret]. exact Hrest.
Qed.

Lemma filter_at_most_one (rows : list Customer.t) (email : string) :
  NoDup (map Customer.email rows) →
  filter (λ x, Customer.email x = email) rows = []
  ∨ ∃ c, filter (λ x, Customer.email x = email) rows = [c].
Proof.
  intros Hnodup.
  destruct (filter _ rows) as [|c rest] eqn:Ef; [by left|]. right. exists c.
  assert (Hc : c ∈ filter (λ x, Customer.email x = email) rows)
    by (rewrite Ef; by left).
  apply list_elem_of_filter in Hc as [Hemail Hc].
  rewrite <- Hemail in Ef.
  rewrite (filter_unique_email rows c Hnodup Hc) in Ef. by injection Ef as <-.
Qed.

(** The upsert of the customer goes through on a quiet database with
    unique emails. *)
Lemma create_customer_quiet cd w :
  quiet w → customers_keyed (World.db w) → is_Some (cd !! "email") →
  ∃ c w1, PlaceOrderSerializer.create_customer cd w = (Ok c, w1) ∧ quiet w1.
Proof.
  intros Hq [_ Hemails] [email Hemail].
  rewrite create_customer_run, Hemail.
  unfold Customer_objects.get_or_create. rewrite bind_run. cbn [query gets].
  destruct (filter_at_most_one _ email Hemails) as [Hnone|[c0 Hone]].
  - rewrite Hnone, bind_run.
    destruct (Customer_create_quiet email (dict_get cd "full_name" "")
                (dict_get cd "phone" "") (dict_get cd "address" "") w Hq)
      as (c & w1 & Hc & Hq1).
    { intros (x & Hx & Hin)%list_elem_of_fmap.
      by apply (filter_nil_not_elem_of _ _ x Hnone). }
    rewrite Hc. cbn [mret M_ret].
    destruct (merge_updated cd c); [|by eexists _, _].
    apply Customer_save_quiet. done.
  - rewrite Hone. cbn [mret M_ret].
    destruct (merge_updated cd c0); [|by eexists _, _].
    by apply Customer_save_quiet.
Qed.

Lemma py_sum_Forall2 {A B} (f : A → Z) (g : B → Z) (l : list A) (k : list B) :
  Forall2 (λ x y, f x = g y) l k → py_sum (map f l) = py_sum (map g k).
Proof.
  unfold py_sum. induction 1 as [|x y l k Hxy _ IH]; [done|].
  cbn [map fold_left]. rewrite (fold_left_add_acc (map f l)).
  rewrite (fold_left_add_acc (map g k)). by rewrite IH, Hxy.
Qed.

Lemma map_Forall2 {A B C} (f : A → C) (g : B → C) (l : list A) (k : list B) :
  Forall2 (λ x y, f x = g y) l k → map f l = map g k.
Proof. induction 1 as [|x y l k Hxy _ IH]; [done|]. cbn. by rewrite IH, Hxy. Qed.

(** The body of the transaction goes through on a quiet database when
    the order number drawn is free, no menu item comes twice, the stored
    line items and payments belong to stored orders, and the subtotal is
    in the range where the tax is exact. *)
Lemma create_aggregate_quiet c si fee items w :
  quiet w →
  py_upper (next_token w)
  ∉ map Order.order_number (DB.orders (World.db w)) →
  NoDup (map (λ item, MenuItem.id
                        (OrderItemCreateSerializer.Value.menu_item item))
           items) →
  (∀ i, i ∈ DB.order_items (World.db w) →
        OrderItem.order i ∈ map Order.id (DB.orders (World.db w))) →
  (∀ p, p ∈ DB.payments (World.db w) →
        Payment.order p ∈ map Order.id (DB.orders (World.db w))) →
  0 ≤ py_sum (map (λ item,
                     OrderItemCreateSerializer.Value.quantity item
                     * OrderItemCreateSerializer.Value.unit_price_cents item)
                items) < 2 ^ 50 →
  ∃ o w', PlaceOrderSerializer.create_aggregate c si fee items w = (Ok o, w').
Proof.
  intros Hq Hfresh Hnodup Hitems Hpays Hsum.
  destruct (get_random_string_run w) as (Htoken & _).
  set (w1 := World.set_rng_pos (World.rng_pos w + 10) w) in *.
  assert (Hq1 : quiet w1) by done.
  destruct (Order_create_quiet (py_upper (next_token w)) c si fee w1 Hq1 Hfresh)
    as (o0 & w2 & Hcreate & Hq2).
  pose proof (Order_create_row _ _ _ _ _ _ _ Hcreate) as Hrow.
  pose proof (Order_create_Ok _ _ _ _ _ _ _ Hcreate) as (_ & _ & _ & _ & Hdb2).
  change (World.db w1) with (World.db w) in Hrow, Hdb2.
  assert (Hid0 : Order.id o0 = next_id (map Order.id (DB.orders (World.db w))))
    by by rewrite Hrow.
  destruct (for_each_lines_quiet o0 items w2 Hq2 Hnodup) as (w3 & Hloop & Hq3).
  { intros item _. rewrite Hdb2. cbn [DB.order_items DB.set_orders].
    intros (i & Hkey & Hin)%list_elem_of_fmap.
    apply Hitems in Hin. injection Hkey as Hkey _.
    rewrite <- Hkey, Hid0 in Hin. by apply next_id_fresh in Hin. }
  pose proof (for_each_lines_Ok _ _ _ _ Hloop) as (lines & Hdb3 & Hlines & _).
  assert (Hsub : sum_lines (order_lines (World.db w3) o0)
                 = py_sum (map (λ item,
                     OrderItemCreateSerializer.Value.quantity item
                     * OrderItemCreateSerializer.Value.unit_price_cents item)
                     items)).
  { unfold order_lines. rewrite Hdb3, Hdb2.
    cbn [DB.order_items DB.set_orders DB.set_order_items].
    rewrite (filter_new_lines _ _ _ _ _ Hid0 Hitems Hlines).
    rewrite <- py_sum_lines. symmetry. apply py_sum_Forall2.
    eapply Forall2_impl; [exact Hlines|].
    intros item i (_ & _ & Hqty & Hprice). unfold line_total.
    by rewrite Hqty, Hprice. }
  assert (Hrecalc : ∃ o1, call o0 recalculate_totals w3 = (Ok (o1, tt), w3)
                          ∧ Order.id o1 = Order.id o0).
  { unfold call. rewrite recalculate_totals_run. cbv zeta. rewrite Hsub.
    rewrite int_round_mul_0_08_exact by done. by eexists. }
  destruct Hrecalc as (o1 & Hrecalc & Hid1).
  destruct (Order_save_quiet o1 w3 Hq3) as (o2 & w5 & Hsave & Hq5).
  pose proof (Order_save_Ok _ _ _ _ Hsave) as ([t Ho2] & Hdb5).
  assert (Hid2 : Order.id o2 = Order.id o0) by by rewrite Ho2.
  destruct (Payment_create_quiet o2 Payment.Method.CARD (Order.total_cents o2)
              "USD" Payment.Status.INITIATED w5 Hq5) as (p & w6 & Hpay & Hq6).
  { rewrite Hdb5, Hdb3, Hdb2.
    cbn [DB.payments DB.set_orders DB.set_order_items].
    intros (x & Hx & Hin)%list_elem_of_fmap. apply Hpays in Hin.
    rewrite <- Hx, Hid2, Hid0 in Hin. by apply next_id_fresh in Hin. }
  destruct (Event_create_quiet o2 Order.Status.PENDING Order.Status.PENDING
              w6 Hq6) as (ev & w7 & Hev).
  exists o2, w7. unfold PlaceOrderSerializer.create_aggregate.
  rewrite (bind_run _ _ w), Htoken. cbv beta iota.
  rewrite (bind_run _ _ w1), Hcreate. cbv beta iota.
  rewrite (bind_run _ _ w2), Hloop. cbv beta iota.
  rewrite (bind_run _ _ w3), Hrecalc. cbv beta iota.
  rewrite (bind_run _ _ w3), Hsave. cbv beta iota.
  rewrite (bind_run _ _ w5), Hpay. cbv beta iota.
  rewrite (bind_run _ _ w6), Hev. reflexivity.
Qed.

(** X17. A request with an acceptable customer, lines and fee is placed when
    nothing stands in the way: the database refuses no statement, the
    customer table has unique keys and emails, the stored rows belong to
    stored orders, the order number about to be drawn is free, no menu
    item is on two lines of the request, and what the request costs is
    in the range where the tax is exact (not negative, below 2^50
    cents). *)
Theorem acceptable_request_is_placed data l w :
  customer_acceptable (PlaceOrderSerializer.Data.customer data) →
  PlaceOrderSerializer.Data.items data = Some l →
  Forall (line_acceptable (World.db w)) l →
  fee_acceptable (PlaceOrderSerializer.Data.delivery_fee_cents data) →
  NoDup (map OrderItemCreateSerializer.Data.menu_item_id l) →
  0 ≤ py_sum (map (quoted_cents (World.db w)) l) < 2 ^ 50 →
  quiet w →
  customers_keyed (World.db w) →
  references_resolve (World.db w) →
  py_upper (next_token w)
  ∉ map Order.order_number (DB.orders (World.db w)) →
  ∃ o w', PlaceOrderView.post data w = (Ok o, w').
Proof.
  intros Hcust Hl Hlines Hfee Hnodup Hsum Hq Hkeyed (_ & Hitems & Hpays & _)
    Hfresh.
  assert (Hvd : ∃ vd, PlaceOrderSerializer.run_validation (World.db w) data
                      = Ok vd).
  { apply field_customer_acceptable in Hcust as [fc Hfc].
    assert (Hi : items_acceptable (World.db w)
                   (PlaceOrderSerializer.Data.items data))
      by (exists l; by rewrite Hl).
    apply field_items_acceptable in Hi as [fi Hfi].
    apply field_fee_acceptable in Hfee as [ff Hff].
    unfold PlaceOrderSerializer.run_validation. rewrite Hfc, Hfi, Hff.
    by eexists. }
  destruct Hvd as [vd Hvd].
  pose proof (run_validation_Ok _ _ _ Hvd)
    as ((l' & Hl' & Hv) & _ & _ & _ & Hemail & _).
  rewrite Hl in Hl'. injection Hl' as <-.
  destruct (create_customer_quiet
              (PlaceOrderSerializer.Validated.customer vd) w Hq Hkeyed Hemail)
    as (c & w1 & Hc & Hq1).
  pose proof (create_customer_keeps_aggregates _ _ _ _ Hc) as Hagg.
  injection Hagg as Hm Ho Hi Hp He.
  pose proof (create_customer_keeps_rng _ _ _ _ Hc) as Hrng.
  injection Hrng as Hrng Hpos.
  destruct (create_aggregate_quiet c
              (default "" (PlaceOrderSerializer.Validated.special_instructions
                             vd))
              (PlaceOrderSerializer.Validated.delivery_fee_cents vd)
              (PlaceOrderSerializer.Validated.items vd) w1 Hq1)
    as (o & w' & Hagg).
  - by rewrite Ho, (next_token_rng w w1).
  - rewrite <- (map_Forall2 OrderItemCreateSerializer.Data.menu_item_id
                  (λ item, MenuItem.id
                     (OrderItemCreateSerializer.Value.menu_item item))
                  l (PlaceOrderSerializer.Validated.items vd)); [done|].
    eapply Forall2_impl; [exact Hv|]. intros x y Hxy.
    apply to_internal_value_Some in Hxy as (Hf & _).
    by apply field_menu_item_Some in Hf as (_ & -> & _).
  - by rewrite Ho, Hi.
  - by rewrite Ho, Hp.
  - rewrite <- (py_sum_Forall2 (quoted_cents (World.db w))
                  (λ item, OrderItemCreateSerializer.Value.quantity item
                           * OrderItemCreateSerializer.Value.unit_price_cents
                               item)
                  l (PlaceOrderSerializer.Validated.items vd)); [done|].
    eapply Forall2_impl; [exact Hv|]. intros x y Hxy.
    apply to_internal_value_Some in Hxy as (Hf & -> & -> & _).
    unfold quoted_cents. by rewrite Hf.
  - exists o, w'. rewrite post_run, Hvd, create_run, Hc.
    unfold transaction_atomic. by rewrite Hagg.
Qed.

Lemma acceptable_request_is_placed_witness :
  ∃ o w', PlaceOrderView.post sample_request sample_world = (Ok o, w').
Proof.
  apply (acceptable_request_is_placed sample_request [line 1 3] sample_world).
  - exists sample_customer. split; [reflexivity|]. split_and!.
    + intros k s Hs.
      assert (Hk : s = "ann@example.org" ∨ s = "Ann Lee").
      { unfold sample_customer in Hs.
        apply lookup_insert_Some in Hs as [[_ <-]|[_ Hs]]; [by left|].
        apply lookup_singleton_Some in Hs as [_ <-]. by right. }
      destruct Hk as [-> | ->]; vm_compute; discriminate.
    + exists "ann@example.org". vm_compute. reflexivity.
    + exists "Ann Lee". vm_compute. reflexivity.
  - reflexivity.
  - constructor; [|constructor]. split; [cbn; lia|].
    exists (MenuItem.mk 1 true (Some 1) "Margherita" 1200 true).
    split_and!; [by left|reflexivity..].
  - intros n [= <-]. lia.
  - apply (bool_decide_unpack _). vm_compute. exact I.
  - vm_compute. split; [discriminate|reflexivity].
  - unfold quiet. apply (bool_decide_unpack _). vm_compute. exact I.
  - split; apply (bool_decide_unpack _); vm_compute; exact I.
  - split_and!; intros x Hx; change (x ∈ @nil _) in Hx;
      destruct (proj1 (elem_of_nil x) Hx).
  - intros Hin. change (py_upper (next_token sample_world) ∈ @nil string) in Hin.
    destruct (proj1 (elem_of_nil _) Hin).
Defined.

Lemma sum_lines_nonneg d o l lines :
  (∀ m, m ∈ DB.menu_items d → 0 ≤ MenuItem.price_cents m) →
  Forall2 (line_snapshot d o) l lines → 0 ≤ sum_lines lines.
Proof.
  intros Hprices. induction 1 as [|x i l lines Hxi _ IH]; [done|].
  destruct Hxi as (_ & _ & Hq & Hrange & m & Hin & _ & _ & _ & Hu).
  cbn [sum_lines]. rewrite Hq, Hu. specialize (Hprices m Hin). nia.
Qed.

(** X18. The amounts of a placed order fit their columns, which hold no
    negative number: in a store whose menu prices are not negative and
    whose line items belong to stored orders, the order that a placement
    returns with a subtotal below 2^50 cents has a tax of
    [(2 * subtotal + 12) / 25], and
    [0 <= tax <= subtotal <= total]. *)
Theorem placed_amounts_are_ordered data w o w' :
  (∀ m, m ∈ DB.menu_items (World.db w) → 0 ≤ MenuItem.price_cents m) →
  (∀ i, i ∈ DB.order_items (World.db w) →
        OrderItem.order i ∈ map Order.id (DB.orders (World.db w))) →
  PlaceOrderView.post data w = (Ok o, w') →
  Order.subtotal_cents o < 2 ^ 50 →
  Order.tax_cents o = (2 * Order.subtotal_cents o + 12) / 25
  ∧ 0 ≤ Order.tax_cents o ≤ Order.subtotal_cents o
  ∧ Order.subtotal_cents o ≤ Order.total_cents o.
Proof.
  intros Hprices Hrefs H Hbound.
  apply post_contents in H
    as (vd & c & w1 & lines & p & ev & Hvd & _ & _ & Hlines & _ & Hid & _
        & _ & _ & Hfee & _ & Hsub & _ & _ & _ & _ & _ & _ & _ & _ & Htax
        & Htotal).
  apply run_validation_Ok in Hvd as ((l & _ & Hv) & _ & _ & Hfee0 & _).
  destruct (stores_line_snapshot _ _ _ _ _ Hv Hlines) as (Hsnap & _ & _).
  rewrite (filter_new_lines _ _ _ _ _ Hid Hrefs Hlines) in Hsub.
  pose proof (sum_lines_nonneg _ _ _ _ Hprices Hsnap) as Hnonneg.
  rewrite <- Hsub in Hnonneg.
  rewrite int_round_mul_0_08_exact in Htax by done. injection Htax as Htax.
  rewrite Htotal, Hfee, <- Htax.
  assert (0 ≤ (2 * Order.subtotal_cents o + 12) / 25
          ≤ Order.subtotal_cents o).
  { split; [apply Z.div_pos; lia|].
    destruct (decide (Order.subtotal_cents o = 0)) as [->|Hne]; [done|].
    apply Z.div_le_upper_bound; lia. }
  split_and!; lia.
Qed.

Lemma placed_amounts_are_ordered_witness :
  ∃ o w',
    PlaceOrderView.post sample_request sample_world = (Ok o, w')
    ∧ 0 ≤ Order.tax_cents o ≤ Order.subtotal_cents o
    ∧ Order.subtotal_cents o ≤ Order.total_cents o.
Proof.
  let r := eval vm_compute in (PlaceOrderView.post sample_request sample_world)
  in lazymatch r with
     | (Ok ?o, ?w') =>
         assert (Hrun : PlaceOrderView.post sample_request sample_world
                        = (Ok o, w')) by (vm_compute; reflexivity);
         pose proof (placed_amounts_are_ordered sample_request sample_world
                       o w') as H
     end.
  destruct H as (_ & Htax & Htotal).
  { intros m Hm. change (m ∈ sample_menu) in Hm. unfold sample_menu in Hm.
    repeat (apply elem_of_cons in Hm as [->|Hm]; [vm_compute; discriminate|]).
    destruct (proj1 (elem_of_nil m) Hm). }
  { intros i Hi. change (i ∈ @nil OrderItem.t) in Hi.
    destruct (proj1 (elem_of_nil i) Hi). }
  { exact Hrun. }
  { vm_compute. reflexivity. }
  eexists _, _. split_and!; [exact Hrun|exact (proj1 Htax)|exact (proj2 Htax)
                            |exact Htotal].
Defined.

(** ** Keys *)

Lemma NoDup_snoc_fresh {A} (l : list A) (x : A) :
  NoDup l → x ∉ l → NoDup (l ++ [x]).
Proof.
  intros Hl Hx. apply NoDup_app. split_and!; [done| |apply NoDup_singleton].
  intros y Hy ->%list_elem_of_singleton. done.
Qed.

Lemma save_row_keys (rows : list Customer.t) (c c' : Customer.t) :
  NoDup (map Customer.id rows) → c ∈ rows →
  Customer.id c' = Customer.id c → Customer.email c' = Customer.email c →
  map Customer.id (save_row Customer.id c' rows) = map Customer.id rows
  ∧ map Customer.email (save_row Customer.id c' rows)
    = map Customer.email rows.
Proof.
  intros Hids Hc Hid Hemail. unfold save_row.
  rewrite bool_decide_eq_true_2.
  2:{ rewrite Hid. by apply (list_elem_of_fmap_2 Customer.id). }
  rewrite !map_map. split; apply map_ext_in; intros x Hx%list_elem_of_In.
  - by case_bool_decide.
  - case_bool_decide as Hx'; [|done]. rewrite Hid in Hx'.
    by rewrite (NoDup_fmap_eq Customer.id _ x c Hids Hx Hc Hx').
Qed.

Lemma get_or_create_keyed email n p a w r w1 :
  customers_keyed (World.db w) →
  Customer_objects.get_or_create email n p a w = (r, w1) →
  customers_keyed (World.db w1)
  ∧ ∀ c b, r = Ok (c, b) → c ∈ DB.customers (World.db w1).
Proof.
  intros [Hids Hemails].
  unfold Customer_objects.get_or_create. rewrite bind_run. cbn [query gets].
  destruct (filter _ _) as [|c0 [|??]] eqn:Ef.
  - unfold Customer_objects.create. intros H. run_cases H.
    all: try (split; [by split|]; by intros ?? [=]).
    all: split; [|intros ?? [= <- <-]; apply elem_of_app; right; by left].
    all: unfold customers_keyed; cbn; rewrite !map_app; cbn.
    all: split; apply NoDup_snoc_fresh; try done; apply next_id_fresh.
  - intros [= <- <-]. split; [by split|]. intros ?? [= <- <-].
    assert (Hc : c0 ∈ filter (λ c, Customer.email c = email)
                        (DB.customers (World.db w))) by (rewrite Ef; by left).
    by apply list_elem_of_filter in Hc as [_ Hc].
  - intros [= <- <-]. split; [by split|]. by intros ?? [=].
Qed.

Lemma create_customer_keyed cd w r w1 :
  customers_keyed (World.db w) →
  PlaceOrderSerializer.create_customer cd w = (r, w1) →
  customers_keyed (World.db w1).
Proof.
  intros Hkeyed. rewrite create_customer_run.
  destruct (cd !! "email") as [email|]; [|by intros [= <- <-]].
  destruct (Customer_objects.get_or_create _ _ _ _ _) as [[[c b]|e] w0] eqn:Eg.
  - apply (get_or_create_keyed _ _ _ _ _ _ _ Hkeyed) in Eg as [Hk Hin].
    specialize (Hin c b eq_refl).
    destruct (merge_updated cd c); [|by intros [= <- <-]].
    intros [[_ Hdb]|(t & _ & Hdb)]%Customer_save_run.
    + unfold customers_keyed. by rewrite Hdb.
    + destruct Hk as [Hids Hemails].
      destruct (save_row_keys (DB.customers (World.db w0)) c
                  (Customer.set_updated_at t (merge_customer cd c)) Hids Hin)
        as [Hi He].
      * cbn. apply merge_customer_id.
      * cbn. apply merge_customer_email.
      * unfold customers_keyed. rewrite Hdb.
        cbn [DB.customers DB.set_customers]. by rewrite Hi, He.
  - intros [= <- <-].
    by apply (get_or_create_keyed _ _ _ _ _ _ _ Hkeyed) in Eg as [Hk _].
Qed.

(** X19. The key constraints hold after a placement and after a status update
    when they held before, however the call ends: customer keys and
    emails, and order keys and order numbers, stay unique. *)
Theorem keys_stay_unique (w : World.t) :
  customers_keyed (World.db w) →
  orders_keyed (World.db w) →
  (∀ data r w',
     PlaceOrderView.post data w = (r, w') →
     customers_keyed (World.db w') ∧ orders_keyed (World.db w'))
  ∧ (∀ number data r w',
       OrderStatusUpdateView.patch number data w = (r, w') →
       customers_keyed (World.db w') ∧ orders_keyed (World.db w')).
Proof.
  intros Hck [Hoids Hnums]. split.
  - intros data r w' H.
    assert (Hc : customers_keyed (World.db w')).
    { rewrite post_run in H.
      destruct (PlaceOrderSerializer.run_validation _ _) as [vd|e0];
        [|by injection H as <- <-].
      rewrite create_run in H.
      destruct (PlaceOrderSerializer.create_customer _ _) as [[c|e1] w1] eqn:Ec.
      - apply (create_customer_keyed _ _ _ _ Hck) in Ec.
        unfold customers_keyed.
        by rewrite (keeps_transaction_atomic
                      (λ w, DB.customers (World.db w)) _
                      (λ _ _ _, eq_refl) (create_aggregate_keeps_customers _ _ _ _)
                      _ _ _ H).
      - injection H as <- <-. by apply (create_customer_keyed _ _ _ _ Hck) in Ec. }
    split; [done|]. destruct r as [o|e].
    + apply post_contents in H
        as (vd & c & w1 & lines & p & ev & _ & _ & Hdb & _ & _ & Hid & _ & _
            & _ & _ & Hfresh & _).
      unfold orders_keyed. rewrite Hdb. cbn [DB.orders]. rewrite !map_app.
      cbn [map]. split; apply NoDup_snoc_fresh; try done.
      rewrite Hid. apply next_id_fresh.
    + apply post_footprint in H as [_ [Hsame|Hnew]].
      * injection Hsame as _ Ho _ _ _. unfold orders_keyed. by rewrite Ho.
      * by destruct Hnew as (? & ? & ? & ? & ? & [=] & _).
  - intros number data r w' H.
    apply patch_footprint in H as (Hc & _ & _ & _ & (b & s & t & Ho) & _).
    split; [unfold customers_keyed; by rewrite Hc|].
    unfold orders_keyed. rewrite Ho, !map_map.
    rewrite (map_ext _ Order.id) by (intros x; by destruct (b x)).
    by rewrite (map_ext _ Order.order_number) by (intros x; by destruct (b x)).
Qed.

Lemma keys_stay_unique_witness :
  let w' := snd (PlaceOrderView.post update_request (placed_world 10 [])) in
  customers_keyed (World.db w') ∧ orders_keyed (World.db w').
Proof.
  cbv zeta.
  eapply (proj1 (keys_stay_unique (placed_world 10 []) _ _) update_request
            (fst (PlaceOrderView.post update_request (placed_world 10 [])))).
  by destruct (PlaceOrderView.post _ _).
  Unshelve.
  - split; apply (bool_decide_unpack _); vm_compute; exact I.
  - split; apply (bool_decide_unpack _); vm_compute; exact I.
Defined.
